(** * Real-Time Audio Visualizer: the signal-to-visual core

    A shallow embedding of the classes that carry the algorithmic content
    of the visualizer, one module per class:

    - [PerformanceLOD]      (utils/PerformanceLOD.ts): the adaptive
      level-of-detail state machine;
    - [DeviceCapabilities]  (utils/DeviceCapabilities.ts): the start-up
      decision table;
    - [AudioAnalyzer]       (AudioAnalyzer.ts): band levels and overall level;
    - [VisualizerEngine]    (VisualizerEngine.ts): mesh morphing, particle
      simulation and configuration updates;
    - [ObjectPool], [EventBus], [ErrorHandler], [PerformanceMonitor] and
      [UserPreferences]: the utilities around them.

    In these modules JavaScript numbers are idealised: integer quantities
    are [Z], quotients of integers are exact rationals [Q], and everything
    that goes through [Math.sqrt], [Math.sin], [Math.cos], [Math.acos] or
    [Math.random] is a real number [R].  The one float behaviour that
    decides control flow or results, NaN, is kept where it can arise (reads
    outside a typed array, 0/0): such results are [None].

    Where a statement depends on how the code rounds, the arithmetic of the
    code is modelled:

    - [PerformanceLODBinary64]: the controller over binary64 frame rates,
      with the additions, the division and the comparisons of the code;
    - [VisualizerEngineRounded]: the particle pass with a rounding after
      every operation and at every store into a [Float32Array];
    - [VisualizerEngineBinary64]: the reset radius as a binary64 number. *)

From Stdlib Require Import String.
From Stdlib Require Import List ZArith QArith Bool Lia Lra.
From Stdlib Require Import Qfield Qround Reals.
From Stdlib Require Strings.Byte.
From Stdlib Require Floats.
Import ListNotations.

(** The comparison [a < b] on rationals, as a boolean. *)
Definition Qltb (a b : Q) : bool := negb (Qle_bool b a).

(* ================================================================== *)
(** * PerformanceLOD *)
(* ================================================================== *)

Module PerformanceLOD.

Local Open Scope Z_scope.

(** [interface LODLevel] *)
Record LODLevel := mkLOD {
  name : string;
  particleCount : Z;
  geometrySegments : Z;
  enableComplexShaders : bool;
  enablePostProcessing : bool;
  targetFPS : Z
}.

(** The table built by the constructor, lowest to highest quality. *)
Definition lodLevels : list LODLevel :=
  [ mkLOD "Potato"%string 100 8 false false 30;
    mkLOD "Low"%string 300 16 false false 45;
    mkLOD "Medium"%string 600 24 true false 55;
    mkLOD "High"%string 1000 32 true true 58;
    mkLOD "Ultra"%string 2000 48 true true 60 ].

(** The levels are objects compared by reference ([indexOf], [!==]).  The
    five objects of the table differ pairwise as values, so comparing the
    fields identifies the same object. *)
Definition LODLevel_eqb (a b : LODLevel) : bool :=
  String.eqb (name a) (name b) && Z.eqb (particleCount a) (particleCount b)
  && Z.eqb (geometrySegments a) (geometrySegments b)
  && Bool.eqb (enableComplexShaders a) (enableComplexShaders b)
  && Bool.eqb (enablePostProcessing a) (enablePostProcessing b)
  && Z.eqb (targetFPS a) (targetFPS b).

(** [Array.prototype.indexOf]: position of the first match, -1 when absent. *)
Fixpoint indexOf_from (i : Z) (x : LODLevel) (l : list LODLevel) : Z :=
  match l with
  | [] => -1
  | y :: t => if LODLevel_eqb y x then i else indexOf_from (i + 1) x t
  end.

Definition indexOf (l : list LODLevel) (x : LODLevel) : Z := indexOf_from 0 x l.

(** The mutable fields of the class.  [lodLevels] and [maxHistoryLength]
    never change after construction. *)
Record state := mkState {
  currentLOD : LODLevel;
  performanceHistory : list Q
}.

Definition maxHistoryLength : nat := 60.

(** The constructor: Medium quality, empty history. *)
Definition initial : state := mkState (nth 2 lodLevels (mkLOD EmptyString 0 0 false false 0)) [].

(** [recentFPS.reduce((sum, fps) => sum + fps, 0)].  The samples are exact
    rationals here and so is their sum; the code rounds each partial sum to
    a number, which [PerformanceLODBinary64] below takes into account. *)
Definition reduce_sum (l : list Q) : Q := fold_left Qplus l (0 # 1)%Q.

(** [performanceHistory.slice(-30)]: the last 30 entries, all of them when
    there are fewer. *)
Definition slice_last (n : nat) (l : list Q) : list Q :=
  skipn (length l - n)%nat l.

Definition lengthQ (l : list Q) : Q := inject_Z (Z.of_nat (length l)).

(** [evaluateLODChange].  The second component is the argument the
    [lodChangeCallback] is invoked with, if it is invoked. *)
Definition evaluateLODChange (st : state) : state * option LODLevel :=
  let recentFPS := slice_last 30 (performanceHistory st) in
  let avgFPS := (reduce_sum recentFPS / lengthQ recentFPS)%Q in
  let currentIndex := indexOf lodLevels (currentLOD st) in
  let target := inject_Z (targetFPS (currentLOD st)) in
  let newLODIndex :=
    if Qltb avgFPS (target - inject_Z 5)%Q && (0 <? currentIndex) then
      Z.max 0 (currentIndex - 1)
    else if Qltb (target + inject_Z 3)%Q avgFPS
            && (currentIndex <? Z.of_nat (length lodLevels) - 1) then
      Z.min (Z.of_nat (length lodLevels) - 1) (currentIndex + 1)
    else currentIndex in
  if negb (newLODIndex =? currentIndex) then
    let newLOD := nth (Z.to_nat newLODIndex) lodLevels (currentLOD st) in
    (mkState newLOD (performanceHistory st), Some newLOD)
  else (st, None).

(** [performanceHistory.push(fps)] followed by the [shift()] that keeps the
    history at [maxHistoryLength] entries. *)
Definition push_shift (h : list Q) (fps : Q) : list Q :=
  let h' := h ++ [fps] in
  if (maxHistoryLength <? length h')%nat then tl h' else h'.

(** [updatePerformance(metrics)], reading [metrics.fps]. *)
Definition updatePerformance (st : state) (fps : Q) : state * option LODLevel :=
  let st1 := mkState (currentLOD st) (push_shift (performanceHistory st) fps) in
  if (30 <=? length (performanceHistory st1))%nat then evaluateLODChange st1
  else (st1, None).

(** [setLOD(lodName)]: [find] by name, switch when found and different. *)
Definition setLOD (st : state) (lodName : string) : state * option LODLevel :=
  match find (fun lod => String.eqb (name lod) lodName) lodLevels with
  | Some newLOD =>
      if negb (LODLevel_eqb newLOD (currentLOD st))
      then (mkState newLOD (performanceHistory st), Some newLOD)
      else (st, None)
  | None => (st, None)
  end.

(** A driver feeding the same fps value [n] times; it returns the final
    state and every callback invocation, most recent first. *)
Fixpoint feed (n : nat) (fps : Q) (st : state) : state * list LODLevel :=
  match n with
  | O => (st, [])
  | S k =>
      let '(st1, calls) := feed k fps st in
      let '(st2, c) := updatePerformance st1 fps in
      (st2, match c with Some l => l :: calls | None => calls end)
  end.

(** ** What the specification says, in its own words *)

Definition tierIndex (st : state) : Z := indexOf lodLevels (currentLOD st).

(** The average [evaluateLODChange] compares with the thresholds. *)
Definition avgFPS_of (st : state) : Q :=
  (reduce_sum (slice_last 30 (performanceHistory st))
   / lengthQ (slice_last 30 (performanceHistory st)))%Q.

(** The three outcomes of one evaluation, as the code decides them. *)
Inductive transition (st : state) (r : state * option LODLevel) : Prop :=
| Downgrade :
    (avgFPS_of st < inject_Z (targetFPS (currentLOD st)) - inject_Z 5)%Q ->
    0 < tierIndex st ->
    tierIndex (fst r) = tierIndex st - 1 ->
    snd r = Some (currentLOD (fst r)) ->
    transition st r
| Upgrade :
    (inject_Z (targetFPS (currentLOD st)) + inject_Z 3 < avgFPS_of st)%Q ->
    tierIndex st < 4 ->
    tierIndex (fst r) = tierIndex st + 1 ->
    snd r = Some (currentLOD (fst r)) ->
    transition st r
| Stay :
    ~ ((avgFPS_of st < inject_Z (targetFPS (currentLOD st)) - inject_Z 5)%Q
       /\ 0 < tierIndex st) ->
    ~ ((inject_Z (targetFPS (currentLOD st)) + inject_Z 3 < avgFPS_of st)%Q
       /\ tierIndex st < 4) ->
    r = (st, None) ->
    transition st r.

(** ** Rational arithmetic helpers *)

Lemma Qltb_lt (a b : Q) : Qltb a b = true <-> (a < b)%Q.
Proof.
  unfold Qltb. rewrite negb_true_iff. split; intro H.
  - apply Qnot_le_lt. intro Hle. apply Qle_bool_iff in Hle. congruence.
  - destruct (Qle_bool b a) eqn:E; [|reflexivity].
    apply Qle_bool_iff in E. exfalso. exact (Qlt_not_le _ _ H E).
Qed.

Lemma Qltb_ge (a b : Q) : Qltb a b = false <-> (b <= a)%Q.
Proof.
  unfold Qltb. rewrite negb_false_iff. apply Qle_bool_iff.
Qed.

Lemma fold_left_Qplus_acc (l : list Q) (a : Q) :
  (fold_left Qplus l a == a + fold_right Qplus (0 # 1) l)%Q.
Proof.
  revert a. induction l as [|x l IH]; intro a; simpl.
  - ring.
  - rewrite IH. ring.
Qed.

Lemma fold_right_Qplus_app (l1 l2 : list Q) :
  (fold_right Qplus (0 # 1) (l1 ++ l2)
   == fold_right Qplus (0 # 1) l1 + fold_right Qplus (0 # 1) l2)%Q.
Proof.
  induction l1 as [|x l1 IH]; simpl.
  - ring.
  - rewrite IH. ring.
Qed.

Lemma fold_right_Qplus_rev (l : list Q) :
  (fold_right Qplus (0 # 1) (rev l) == fold_right Qplus (0 # 1) l)%Q.
Proof.
  induction l as [|x l IH]; simpl.
  - reflexivity.
  - rewrite fold_right_Qplus_app, IH. simpl. ring.
Qed.

Lemma length_slice_last (n : nat) (l : list Q) :
  (n <= length l)%nat -> length (slice_last n l) = n.
Proof.
  intro H. unfold slice_last. rewrite length_skipn. lia.
Qed.


Ltac refute_guard Hd Hu :=
  let H1 := fresh in let H2 := fresh in
  intros [H1 H2];
  first [ exact (Qlt_not_le _ _ H1 Hd)
        | exact (Qlt_not_le _ _ H1 Hu)
        | unfold tierIndex in H2; cbn [currentLOD] in H2;
          vm_compute in H2; discriminate ].

Lemma evaluateLODChange_transition (st : state) :
  In (currentLOD st) lodLevels ->
  transition st (evaluateLODChange st)
  /\ In (currentLOD (fst (evaluateLODChange st))) lodLevels
  /\ performanceHistory (fst (evaluateLODChange st)) = performanceHistory st.
Proof.
  destruct st as [lod h]. cbn [currentLOD]. intro Hin.
  unfold evaluateLODChange.
  fold (avgFPS_of (mkState lod h)).
  cbn [currentLOD performanceHistory].
  simpl in Hin.
  destruct Hin as [<-|[<-|[<-|[<-|[<-|[]]]]]];
  match goal with
  | |- context [indexOf lodLevels ?l] =>
      let v := eval vm_compute in (indexOf lodLevels l) in
      change (indexOf lodLevels l) with v
  end;
  cbn [targetFPS];
  match goal with
  | |- context [Qltb ?a ?b && _] => destruct (Qltb a b) eqn:Hd
  end;
  match goal with
  | |- context [Qltb ?a ?b && _] => destruct (Qltb a b) eqn:Hu
  end;
  try apply Qltb_lt in Hd; try apply Qltb_ge in Hd;
  try apply Qltb_lt in Hu; try apply Qltb_ge in Hu;
  (split;
   [ first
       [ apply Downgrade; [exact Hd | reflexivity | reflexivity | reflexivity]
       | apply Upgrade; [exact Hu | reflexivity | reflexivity | reflexivity]
       | apply Stay; [refute_guard Hd Hu | refute_guard Hd Hu | reflexivity] ]
   | split; [ vm_compute; tauto | reflexivity ] ]).
Qed.

Lemma push_shift_appends (h : list Q) (fps : Q) :
  exists pre, push_shift h fps = pre ++ [fps].
Proof.
  unfold push_shift.
  destruct (Nat.ltb_spec maxHistoryLength (length (h ++ [fps]))) as [Hlt|Hge].
  - destruct h as [|x h].
    + simpl in Hlt. unfold maxHistoryLength in Hlt. lia.
    + exists h. reflexivity.
  - exists h. reflexivity.
Qed.

Lemma push_shift_capacity (h : list Q) (fps : Q) :
  (length h <= maxHistoryLength)%nat ->
  (length (push_shift h fps) <= maxHistoryLength)%nat.
Proof.
  intro H. unfold push_shift.
  destruct (Nat.ltb_spec maxHistoryLength (length (h ++ [fps]))) as [Hlt|Hge].
  - rewrite length_app in Hlt. simpl in Hlt.
    destruct h as [|x h]; simpl in *; [lia|].
    rewrite length_app. simpl. lia.
  - exact Hge.
Qed.

(** ** A constant stream inside the dead band *)

Lemma skipn_repeat_Q (c : Q) (k m : nat) :
  skipn k (repeat c m) = repeat c (m - k).
Proof.
  revert k. induction m as [|m IH]; intro k.
  - destruct k; reflexivity.
  - destruct k as [|k]; [reflexivity|]. simpl. apply IH.
Qed.

Lemma fold_right_Qplus_repeat (c : Q) (m : nat) :
  (fold_right Qplus (0 # 1) (repeat c m) == inject_Z (Z.of_nat m) * c)%Q.
Proof.
  induction m as [|m IH].
  - simpl. ring.
  - rewrite Nat2Z.inj_succ. unfold Z.succ. rewrite inject_Z_plus.
    simpl fold_right. rewrite IH. ring.
Qed.

Lemma avgFPS_of_constant (lod : LODLevel) (c : Q) (m : nat) :
  (0 < m)%nat -> (avgFPS_of (mkState lod (repeat c m)) == c)%Q.
Proof.
  intro Hm. unfold avgFPS_of, reduce_sum, lengthQ, slice_last.
  cbn [performanceHistory].
  rewrite repeat_length, skipn_repeat_Q, repeat_length.
  rewrite fold_left_Qplus_acc, fold_right_Qplus_repeat.
  assert (Hk : (0 < m - (m - 30))%nat) by lia.
  set (k := (m - (m - 30))%nat) in *.
  assert (~ inject_Z (Z.of_nat k) == 0)%Q.
  { unfold inject_Z, Qeq. simpl. lia. }
  field. assumption.
Qed.

Lemma push_shift_repeat (c : Q) (m : nat) :
  (m <= maxHistoryLength)%nat ->
  push_shift (repeat c m) c = repeat c (Nat.min (S m) maxHistoryLength).
Proof.
  intro Hm. unfold push_shift.
  replace (repeat c m ++ [c]) with (repeat c (S m))
    by (change [c] with (repeat c 1); rewrite <- repeat_app; f_equal; lia).
  rewrite repeat_length.
  destruct (Nat.ltb_spec maxHistoryLength (S m)) as [Hlt|Hge].
  - assert (m = maxHistoryLength) by lia. subst m.
    rewrite Nat.min_r by lia. reflexivity.
  - rewrite Nat.min_l by lia. reflexivity.
Qed.

(** A constant fps value inside the closed dead band
    [targetFPS - 5, targetFPS + 3] never moves the tier, however long the
    stream is. *)
Lemma feed_dead_band (lod : LODLevel) (c : Q) :
  In lod lodLevels ->
  (inject_Z (targetFPS lod) - inject_Z 5 <= c)%Q ->
  (c <= inject_Z (targetFPS lod) + inject_Z 3)%Q ->
  forall n,
    feed n c (mkState lod [])
    = (mkState lod (repeat c (Nat.min n maxHistoryLength)), []).
Proof.
  intros Hin Hlo Hhi. induction n as [|n IH]; [reflexivity|].
  cbn [feed]. rewrite IH.
  set (m := Nat.min n maxHistoryLength).
  assert (Hm : (m <= maxHistoryLength)%nat) by (subst m; lia).
  unfold updatePerformance. cbn [currentLOD performanceHistory].
  rewrite (push_shift_repeat c m Hm).
  replace (Nat.min (S m) maxHistoryLength) with (Nat.min (S n) maxHistoryLength)
    by (subst m; lia).
  set (m' := Nat.min (S n) maxHistoryLength).
  assert (Hm' : (0 < m')%nat) by (subst m'; unfold maxHistoryLength; lia).
  rewrite repeat_length.
  destruct (30 <=? m')%nat; [|reflexivity].
  destruct (evaluateLODChange_transition (mkState lod (repeat c m')) Hin)
    as ([Hd _ _ _ | Hu _ _ _ | _ _ Hr] & _ & _).
  - rewrite (avgFPS_of_constant lod c m' Hm') in Hd. cbn [currentLOD] in Hd.
    exfalso. exact (Qlt_not_le _ _ Hd Hlo).
  - rewrite (avgFPS_of_constant lod c m' Hm') in Hu. cbn [currentLOD] in Hu.
    exfalso. exact (Qlt_not_le _ _ Hu Hhi).
  - rewrite Hr. reflexivity.
Qed.

(** C4.  From an empty history, 200 consecutive calls with the constant
    value [targetFPS - 2] of the starting tier leave the controller in that
    tier after every one of the calls and never invoke the change callback,
    whichever tier of the table it starts in. *)
Theorem dead_band_200_no_change (lod : LODLevel) :
  In lod lodLevels ->
  forall n, (n <= 200)%nat ->
    let r := feed n (inject_Z (targetFPS lod - 2)) (mkState lod []) in
    currentLOD (fst r) = lod /\ snd r = [].
Proof.
  intros Hin n _ r. subst r.
  rewrite (feed_dead_band lod (inject_Z (targetFPS lod - 2)) Hin).
  - split; reflexivity.
  - unfold Qle, Qminus, Qplus, Qopp, inject_Z. simpl. lia.
  - unfold Qle, Qplus, inject_Z. simpl. lia.
Qed.

Lemma dead_band_200_no_change_witness :
  In (currentLOD initial) lodLevels
  /\ currentLOD (fst (feed 200 (inject_Z 53) initial)) = currentLOD initial
  /\ snd (feed 200 (inject_Z 53) initial) = [].
Proof.
  assert (Hin : In (currentLOD initial) lodLevels) by (vm_compute; tauto).
  split; [exact Hin|].
  exact (dead_band_200_no_change (currentLOD initial) Hin 200%nat (le_n 200)).
Defined.

(** ** Two runs of the controller *)

(** Thirty samples of 30 fps take the freshly constructed controller from
    Medium to Low at the thirtieth call, and the thirty-first takes it on to
    Potato: one step per call. *)
Example sustained_drop_steps_down_once_per_call :
  map name (snd (feed 29 (30 # 1) initial)) = []
  /\ map name (snd (feed 30 (30 # 1) initial)) = ["Low"%string]
  /\ map name (snd (feed 31 (30 # 1) initial)) = ["Potato"%string; "Low"%string]
  /\ map name (snd (feed 200 (30 # 1) initial)) = ["Potato"%string; "Low"%string].
Proof. repeat split; vm_compute; reflexivity. Qed.

(** [setLOD] switches by name and leaves the history alone. *)
Example setLOD_keeps_history :
  let st := fst (feed 10 (60 # 1) initial) in
  name (currentLOD (fst (setLOD st "Ultra"))) = "Ultra"%string
  /\ performanceHistory (fst (setLOD st "Ultra")) = performanceHistory st
  /\ setLOD st "Medium" = (st, None)
  /\ setLOD st "Extreme" = (st, None).
Proof. repeat split; vm_compute; reflexivity. Qed.

(* ------------------------------------------------------------------ *)
(** ** The rest of the class: averages, recommendations, call sequences *)
(* ------------------------------------------------------------------ *)

(** [getAverageFPS]: 60 while there is no sample. *)
Definition getAverageFPS (st : state) : Q :=
  if (length (performanceHistory st) =? 0)%nat then 60 # 1
  else (reduce_sum (performanceHistory st) / lengthQ (performanceHistory st))%Q.

(** The three sentences [getRecommendations] can push, by what they
    advise: "Potato" or "Low" settings, "Low" or "Medium" settings, or that
    the device can handle higher quality settings. *)
Inductive Recommendation :=
| UsePotatoOrLow
| UseLowOrMedium
| CanHandleHigher.

(** [getRecommendations] *)
Definition getRecommendations (st : state) : list Recommendation :=
  let avgFPS := getAverageFPS st in
  if Qltb avgFPS (30 # 1) then [UsePotatoOrLow]
  else if Qltb avgFPS (45 # 1) then [UseLowOrMedium]
  else if Qltb (58 # 1) avgFPS
          && negb (String.eqb (name (currentLOD st)) "Ultra") then [CanHandleHigher]
  else [].

(** A public call that changes the controller. *)
Inductive call :=
| Update (fps : Q)
| SetLOD (lodName : string).

Definition perform (st : state) (c : call) : state :=
  match c with
  | Update fps => fst (updatePerformance st fps)
  | SetLOD lodName => fst (setLOD st lodName)
  end.

(** The controller after a sequence of calls, first call first. *)
Definition run (calls : list call) (st : state) : state :=
  fold_left perform calls st.

Lemma LODLevel_eqb_eq (a b : LODLevel) : LODLevel_eqb a b = true <-> a = b.
Proof.
  unfold LODLevel_eqb. destruct a, b. cbn [name particleCount geometrySegments
    enableComplexShaders enablePostProcessing targetFPS].
  rewrite !andb_true_iff, String.eqb_eq, !Z.eqb_eq, !Bool.eqb_true_iff.
  split.
  - intros (((((-> & ->) & ->) & ->) & ->) & ->). reflexivity.
  - intro H. inversion H. repeat split.
Qed.

Lemma In_lodLevels_index (lod : LODLevel) :
  In lod lodLevels ->
  0 <= indexOf lodLevels lod <= 4
  /\ nth (Z.to_nat (indexOf lodLevels lod)) lodLevels lod = lod.
Proof.
  simpl. intros [<-|[<-|[<-|[<-|[<-|[]]]]]]; vm_compute; repeat split; congruence.
Qed.

Lemma index_determines_level (a b : LODLevel) :
  In a lodLevels -> In b lodLevels ->
  indexOf lodLevels a = indexOf lodLevels b -> a = b.
Proof.
  intros Ha Hb E.
  destruct (In_lodLevels_index a Ha) as (_ & Na).
  destruct (In_lodLevels_index b Hb) as (_ & Nb).
  rewrite <- Na, <- Nb, E.
  apply nth_indep.
  destruct (In_lodLevels_index b Hb) as (Hr & _). simpl. lia.
Qed.

Lemma setLOD_In (st : state) (lodName : string) :
  In (currentLOD st) lodLevels -> In (currentLOD (fst (setLOD st lodName))) lodLevels.
Proof.
  intro H. unfold setLOD.
  destruct (find _ lodLevels) as [newLOD|] eqn:F; [|exact H].
  destruct (negb (LODLevel_eqb newLOD (currentLOD st))); [|exact H].
  cbn [fst currentLOD]. apply find_some in F. tauto.
Qed.

Lemma setLOD_history (st : state) (lodName : string) :
  performanceHistory (fst (setLOD st lodName)) = performanceHistory st.
Proof.
  unfold setLOD.
  destruct (find _ lodLevels) as [newLOD|]; [|reflexivity].
  destruct (negb (LODLevel_eqb newLOD (currentLOD st))); reflexivity.
Qed.

Lemma updatePerformance_history (st : state) (fps : Q) :
  performanceHistory (fst (updatePerformance st fps))
  = push_shift (performanceHistory st) fps.
Proof.
  unfold updatePerformance. cbn [performanceHistory].
  destruct (30 <=? _)%nat; [|reflexivity].
  unfold evaluateLODChange. cbn [performanceHistory].
  destruct (negb _); reflexivity.
Qed.

Lemma updatePerformance_In (st : state) (fps : Q) :
  In (currentLOD st) lodLevels ->
  In (currentLOD (fst (updatePerformance st fps))) lodLevels.
Proof.
  intro H. unfold updatePerformance. cbn [performanceHistory].
  destruct (30 <=? _)%nat; [|exact H].
  apply (evaluateLODChange_transition
           (mkState (currentLOD st) (push_shift (performanceHistory st) fps)) H).
Qed.

(** X1.  Whatever sequence of [updatePerformance] and [setLOD] calls a
    freshly constructed controller receives, its current level is one of the
    five levels of the table and its history holds at most 60 samples. *)
Theorem run_keeps_level_and_capacity (calls : list call) :
  In (currentLOD (run calls initial)) lodLevels
  /\ (length (performanceHistory (run calls initial)) <= maxHistoryLength)%nat.
Proof.
  unfold run.
  assert (H0 : In (currentLOD initial) lodLevels
               /\ (length (performanceHistory initial) <= maxHistoryLength)%nat)
    by (split; [vm_compute; tauto | vm_compute; lia]).
  revert H0. generalize initial as st.
  induction calls as [|c calls IH]; intros st H0; [exact H0|].
  cbn [fold_left]. apply IH. destruct H0 as [Hin Hlen].
  destruct c as [fps|lodName]; cbn [perform].
  - split; [apply updatePerformance_In; exact Hin|].
    rewrite updatePerformance_history. apply push_shift_capacity. exact Hlen.
  - split; [apply setLOD_In; exact Hin|].
    rewrite setLOD_history. exact Hlen.
Qed.

(** ** Constant streams outside the dead band *)

Lemma feed_warm_up (lod : LODLevel) (c : Q) (n : nat) :
  (n <= 29)%nat ->
  feed n c (mkState lod []) = (mkState lod (repeat c n), []).
Proof.
  induction n as [|n IH]; intro Hn; [reflexivity|].
  cbn [feed]. rewrite IH by lia.
  unfold updatePerformance. cbn [currentLOD performanceHistory].
  rewrite push_shift_repeat by (unfold maxHistoryLength; lia).
  rewrite Nat.min_l by (unfold maxHistoryLength; lia).
  rewrite repeat_length.
  destruct (Nat.leb_spec 30 (S n)); [lia|reflexivity].
Qed.

Lemma state_eta (st : state) :
  st = mkState (currentLOD st) (performanceHistory st).
Proof. destruct st. reflexivity. Qed.

(** One call on a history that repeats [c], at a level [a] that [c] makes
    the controller leave for the neighbouring level [b]. *)
Lemma updatePerformance_leaves (a b : LODLevel) (c : Q) (m : nat) :
  In a lodLevels -> In b lodLevels ->
  (29 <= m <= maxHistoryLength)%nat ->
  ((c < inject_Z (targetFPS a) - inject_Z 5)%Q
   /\ indexOf lodLevels b = indexOf lodLevels a - 1
   \/ (inject_Z (targetFPS a) - inject_Z 5 <= c)%Q
      /\ (inject_Z (targetFPS a) + inject_Z 3 < c)%Q
      /\ indexOf lodLevels b = indexOf lodLevels a + 1) ->
  updatePerformance (mkState a (repeat c m)) c
  = (mkState b (repeat c (Nat.min (S m) maxHistoryLength)), Some b).
Proof.
  intros Ha Hb Hm Hc.
  unfold updatePerformance. cbn [currentLOD performanceHistory].
  rewrite push_shift_repeat by lia.
  set (m' := Nat.min (S m) maxHistoryLength).
  assert (Hm' : (30 <= m')%nat) by (subst m'; unfold maxHistoryLength in *; lia).
  rewrite repeat_length.
  destruct (Nat.leb_spec 30 m'); [|lia].
  destruct (evaluateLODChange_transition (mkState a (repeat c m')) Ha)
    as (Htr & Hin & Hh).
  pose proof (avgFPS_of_constant a c m' ltac:(lia)) as Havg.
  destruct (In_lodLevels_index a Ha) as (Hra & _).
  destruct (In_lodLevels_index b Hb) as (Hrb & _).
  assert (Hgoal : forall r : state * option LODLevel,
             In (currentLOD (fst r)) lodLevels ->
             performanceHistory (fst r) = repeat c m' ->
             tierIndex (fst r) = indexOf lodLevels b ->
             snd r = Some (currentLOD (fst r)) ->
             r = (mkState b (repeat c m'), Some b)).
  { intros [st' cb] Hin' Hh' Hidx Hcb. cbn [fst snd] in *.
    assert (currentLOD st' = b)
      by (apply index_determines_level; assumption).
    rewrite (state_eta st'), Hh', Hcb. subst b. reflexivity. }
  destruct Htr as [Hd Hpos Hidx Hcb | Hu Hhi Hidx Hcb | Hnd Hnu Hr];
    unfold tierIndex in *; cbn [currentLOD] in *;
    try rewrite Havg in Hd; try rewrite Havg in Hu;
    try rewrite Havg in Hnd; try rewrite Havg in Hnu.
  - destruct Hc as [(_ & Hb1) | (Hge & _)].
    + apply Hgoal; try assumption. lia.
    + exfalso. exact (Qlt_not_le _ _ Hd Hge).
  - destruct Hc as [(Hlt & Hb1) | (_ & _ & Hb1)].
    + exfalso.
      assert (inject_Z (targetFPS a) - inject_Z 5 < inject_Z (targetFPS a) + inject_Z 3)%Q
        by (unfold Qlt, Qminus, Qplus, Qopp, inject_Z; simpl; lia).
      eapply Qlt_irrefl. eapply Qlt_trans; [exact Hlt|].
      eapply Qlt_trans; [eassumption|exact Hu].
    + apply Hgoal; try assumption. lia.
  - exfalso. destruct Hc as [(Hlt & Hb1) | (_ & Hgt & Hb1)].
    + apply Hnd. split; [exact Hlt|lia].
    + apply Hnu. split; [exact Hgt|lia].
Qed.

(** A constant stream that lies above the upgrade threshold of the lower
    level [b] and below the downgrade threshold of the level [a] next above
    it: from the 30th call on every call changes the level. *)
Lemma feed_alternates (a b : LODLevel) (c : Q) :
  In a lodLevels -> In b lodLevels ->
  indexOf lodLevels a = indexOf lodLevels b + 1 ->
  (inject_Z (targetFPS b) + inject_Z 3 < c)%Q ->
  (c < inject_Z (targetFPS a) - inject_Z 5)%Q ->
  forall n,
    currentLOD (fst (feed (29 + n) c (mkState a [])))
    = (if Nat.even n then a else b)
    /\ performanceHistory (fst (feed (29 + n) c (mkState a [])))
       = repeat c (Nat.min (29 + n) maxHistoryLength)
    /\ length (snd (feed (29 + n) c (mkState a []))) = n.
Proof.
  intros Ha Hb Hidx Hlo Hhi.
  assert (Hb_stays_up : (inject_Z (targetFPS b) - inject_Z 5 <= c)%Q).
  { apply Qlt_le_weak. eapply Qlt_trans; [|exact Hlo].
    unfold Qlt, Qminus, Qplus, Qopp, inject_Z. simpl. lia. }
  induction n as [|n IH].
  - rewrite Nat.add_0_r, feed_warm_up by lia. repeat split.
  - replace (29 + S n)%nat with (S (29 + n)) by lia. cbn [feed].
    destruct (feed (29 + n) c (mkState a [])) as [st calls] eqn:E.
    cbn [fst snd] in IH. destruct IH as (Hcur & Hhist & Hlen).
    rewrite (state_eta st), Hcur, Hhist.
    assert (Hm : (29 <= Nat.min (29 + n) maxHistoryLength <= maxHistoryLength)%nat)
      by (unfold maxHistoryLength; lia).
    rewrite Nat.even_succ, <- Nat.negb_even.
    destruct (Nat.even n); cbn [negb].
    + rewrite (updatePerformance_leaves a b c _ Ha Hb Hm)
        by (left; split; [exact Hhi | lia]).
      cbn [fst snd currentLOD performanceHistory length].
      repeat split; [f_equal; unfold maxHistoryLength; lia | lia].
    + rewrite (updatePerformance_leaves b a c _ Hb Ha Hm)
        by (right; repeat split; [exact Hb_stays_up | exact Hlo | lia]).
      cbn [fst snd currentLOD performanceHistory length].
      repeat split; [f_equal; unfold maxHistoryLength; lia | lia].
Qed.

(** X2.  The thresholds of neighbouring levels overlap in two places.  A
    constant frame rate strictly between 48 and 50 makes a freshly
    constructed controller (Medium) change level on every call from the 30th
    on, alternating between Low and Medium; a constant rate strictly between
    33 and 40 does the same between Potato and Low for a controller that was
    set to Low.  After [29 + n] calls the callback has fired [n] times. *)
Theorem threshold_overlap_oscillates (c : Q) (n : nat) :
  ((48 # 1 < c)%Q -> (c < 50 # 1)%Q ->
   name (currentLOD (fst (feed (29 + n) c initial)))
   = (if Nat.even n then "Medium" else "Low")%string
   /\ length (snd (feed (29 + n) c initial)) = n)
  /\ ((33 # 1 < c)%Q -> (c < 40 # 1)%Q ->
      name (currentLOD (fst (feed (29 + n) c (fst (setLOD initial "Low")))))
      = (if Nat.even n then "Low" else "Potato")%string
      /\ length (snd (feed (29 + n) c (fst (setLOD initial "Low")))) = n).
Proof.
  split; intros Hlo Hhi.
  - destruct (feed_alternates (nth 2 lodLevels (currentLOD initial))
                (nth 1 lodLevels (currentLOD initial)) c
                ltac:(vm_compute; tauto) ltac:(vm_compute; tauto)
                ltac:(reflexivity) Hlo Hhi n) as (Hcur & _ & Hlen).
    change (mkState (nth 2 lodLevels (currentLOD initial)) []) with initial in *.
    rewrite Hcur. split; [|exact Hlen]. destruct (Nat.even n); reflexivity.
  - destruct (feed_alternates (nth 1 lodLevels (currentLOD initial))
                (nth 0 lodLevels (currentLOD initial)) c
                ltac:(vm_compute; tauto) ltac:(vm_compute; tauto)
                ltac:(reflexivity) Hlo Hhi n) as (Hcur & _ & Hlen).
    change (mkState (nth 1 lodLevels (currentLOD initial)) [])
      with (fst (setLOD initial "Low")) in *.
    rewrite Hcur. split; [|exact Hlen]. destruct (Nat.even n); reflexivity.
Qed.

(** ** Streams that never exceed a ceiling *)

Lemma fold_right_Qplus_le (l : list Q) (c : Q) :
  Forall (fun f => (f <= c)%Q) l ->
  (fold_right Qplus (0 # 1) l <= inject_Z (Z.of_nat (length l)) * c)%Q.
Proof.
  induction 1 as [|f l Hf _ IH].
  - simpl. rewrite Qmult_0_l. apply Qle_refl.
  - cbn [fold_right length]. rewrite Nat2Z.inj_succ. unfold Z.succ.
    rewrite inject_Z_plus.
    setoid_replace ((inject_Z (Z.of_nat (length l)) + inject_Z 1) * c)%Q
      with (c + inject_Z (Z.of_nat (length l)) * c)%Q by ring.
    apply Qplus_le_compat; assumption.
Qed.

Lemma Forall_skipn_Q (P : Q -> Prop) (n : nat) (l : list Q) :
  Forall P l -> Forall P (skipn n l).
Proof.
  revert l. induction n as [|n IH]; intros l H; [exact H|].
  destruct l as [|x l]; [constructor|]. simpl. apply IH. inversion H; assumption.
Qed.

Lemma avgFPS_of_le (st : state) (c : Q) :
  performanceHistory st <> [] ->
  Forall (fun f => (f <= c)%Q) (performanceHistory st) ->
  (avgFPS_of st <= c)%Q.
Proof.
  intros Hne Hall. unfold avgFPS_of, reduce_sum, lengthQ.
  set (recent := slice_last 30 (performanceHistory st)).
  assert (Hrecent : Forall (fun f => (f <= c)%Q) recent)
    by (apply Forall_skipn_Q; exact Hall).
  assert (Hlen : (0 < length recent)%nat).
  { subst recent. unfold slice_last. rewrite length_skipn.
    destruct (performanceHistory st) as [|q l]; [contradiction|].
    cbn [length]. lia. }
  rewrite fold_left_Qplus_acc, Qplus_0_l.
  apply Qle_shift_div_r.
  - unfold Qlt, inject_Z. simpl. lia.
  - rewrite Qmult_comm. apply fold_right_Qplus_le. exact Hrecent.
Qed.

Lemma push_shift_Forall (P : Q -> Prop) (h : list Q) (fps : Q) :
  Forall P h -> P fps -> Forall P (push_shift h fps).
Proof.
  intros Hh Hf. unfold push_shift.
  assert (H : Forall P (h ++ [fps])) by (apply Forall_app; split; [exact Hh|]; constructor; [exact Hf|constructor]).
  destruct (_ <? _)%nat; [|exact H].
  destruct (h ++ [fps]); [constructor|]. inversion H; assumption.
Qed.

Lemma push_shift_nonempty (h : list Q) (fps : Q) : push_shift h fps <> [].
Proof.
  destruct (push_shift_appends h fps) as [pre ->].
  destruct pre; discriminate.
Qed.

Lemma updatePerformance_below_Ultra (st : state) (fps : Q) :
  In (currentLOD st) lodLevels ->
  tierIndex st <= 3 ->
  Forall (fun f => (f <= 61 # 1)%Q) (performanceHistory st) ->
  (fps <= 61 # 1)%Q ->
  tierIndex (fst (updatePerformance st fps)) <= 3.
Proof.
  intros Hin Hidx Hall Hf.
  unfold updatePerformance. cbn [performanceHistory].
  set (st1 := mkState (currentLOD st) (push_shift (performanceHistory st) fps)).
  destruct (30 <=? _)%nat; [|exact Hidx].
  assert (Havg : (avgFPS_of st1 <= 61 # 1)%Q).
  { apply avgFPS_of_le; cbn [st1 performanceHistory].
    - apply push_shift_nonempty.
    - apply push_shift_Forall; assumption. }
  destruct (evaluateLODChange_transition st1 Hin) as (Htr & _ & _).
  destruct Htr as [_ _ Hi _ | Hu _ Hi _ | _ _ Hr].
  - change (tierIndex st1) with (tierIndex st) in Hi. lia.
  - change (tierIndex st1) with (tierIndex st) in Hi.
    change (currentLOD st1) with (currentLOD st) in Hu.
    destruct (Z.eq_dec (tierIndex st) 3) as [E3|]; [|lia].
    exfalso. unfold tierIndex in E3.
    assert (Ht : currentLOD st = nth 3 lodLevels (currentLOD st)).
    { apply index_determines_level; [exact Hin | vm_compute; tauto |].
      rewrite E3. reflexivity. }
    rewrite Ht in Hu. cbn [nth lodLevels targetFPS] in Hu.
    apply (Qlt_not_le _ _ Hu).
    eapply Qle_trans; [exact Havg|]. unfold Qle. simpl. lia.
  - rewrite Hr. exact Hidx.
Qed.

(** X3.  Without a manual [setLOD], a freshly constructed controller never
    reaches Ultra on samples that do not exceed 61 fps: leaving High upwards
    needs a mean above [58 + 3]. *)
Theorem Ultra_needs_more_than_61 (samples : list Q) :
  Forall (fun f => (f <= 61 # 1)%Q) samples ->
  name (currentLOD (run (map Update samples) initial)) <> "Ultra"%string
  /\ tierIndex (run (map Update samples) initial) <= 3.
Proof.
  intro Hs.
  assert (H : In (currentLOD (run (map Update samples) initial)) lodLevels
              /\ tierIndex (run (map Update samples) initial) <= 3).
  { unfold run.
    assert (H0 : In (currentLOD initial) lodLevels /\ tierIndex initial <= 3
                 /\ Forall (fun f => (f <= 61 # 1)%Q) (performanceHistory initial))
      by (repeat split; [vm_compute; tauto | vm_compute; discriminate | constructor]).
    revert H0. generalize initial as st.
    induction Hs as [|f samples Hf _ IH]; intros st (Hin & Hidx & Hall);
      [split; assumption|].
    cbn [map fold_left perform]. apply IH. repeat split.
    - apply updatePerformance_In; exact Hin.
    - apply updatePerformance_below_Ultra; assumption.
    - rewrite updatePerformance_history. apply push_shift_Forall; assumption. }
  destruct H as [Hin Hidx]. split; [|exact Hidx].
  intro Hname. unfold tierIndex in Hidx.
  simpl in Hin.
  destruct Hin as [E|[E|[E|[E|[E|[]]]]]]; rewrite <- E in Hname, Hidx;
    try discriminate Hname.
  vm_compute in Hidx. apply Hidx. reflexivity.
Qed.

Lemma Ultra_needs_more_than_61_witness :
  Forall (fun f => (f <= 61 # 1)%Q) (repeat (60 # 1) 90)
  /\ tierIndex (run (map Update (repeat (60 # 1) 90)) initial) <= 3.
Proof.
  assert (H : Forall (fun f => (f <= 61 # 1)%Q) (repeat (60 # 1) 90)).
  { apply Forall_forall. intros f Hf. apply repeat_spec in Hf. subst f.
    unfold Qle. simpl. lia. }
  split; [exact H|].
  exact (proj2 (Ultra_needs_more_than_61 (repeat (60 # 1) 90) H)).
Defined.

(** A steady 60 fps takes the controller from Medium to High and no
    further. *)
Example steady_60_fps_stops_at_High :
  name (currentLOD (run (map Update (repeat (60 # 1) 90)) initial)) = "High"%string.
Proof. vm_compute. reflexivity. Qed.

(** ** Manual selection and recommendations *)

Lemma names_determine_level (a b : LODLevel) :
  In a lodLevels -> In b lodLevels -> name a = name b -> a = b.
Proof.
  simpl.
  intros [<-|[<-|[<-|[<-|[<-|[]]]]]] [<-|[<-|[<-|[<-|[<-|[]]]]]] E;
    first [reflexivity | discriminate E].
Qed.

Lemma setLOD_twice (st : state) (lodName : string) :
  setLOD (fst (setLOD st lodName)) lodName = (fst (setLOD st lodName), None).
Proof.
  assert (Hrefl : forall l, LODLevel_eqb l l = true)
    by (intro l; apply LODLevel_eqb_eq; reflexivity).
  assert (Hdef : forall s, setLOD s lodName
            = match find (fun lod => String.eqb (name lod) lodName) lodLevels with
              | Some newLOD =>
                  if negb (LODLevel_eqb newLOD (currentLOD s))
                  then (mkState newLOD (performanceHistory s), Some newLOD)
                  else (s, None)
              | None => (s, None)
              end) by reflexivity.
  rewrite (Hdef st).
  destruct (find (fun lod => String.eqb (name lod) lodName) lodLevels)
    as [newLOD|] eqn:F.
  - destruct (LODLevel_eqb newLOD (currentLOD st)) eqn:E; cbn [negb fst].
    + rewrite Hdef, E. reflexivity.
    + rewrite Hdef. cbn [currentLOD]. rewrite Hrefl. reflexivity.
  - cbn [fst]. rewrite Hdef. reflexivity.
Qed.

(** X4.  [setLOD] never touches the history.  Given the name of a level of
    the table it makes that level current and invokes the callback exactly
    when the level was not current already; given any other name it does
    nothing; and repeating the same call never invokes the callback. *)
Theorem setLOD_selects_by_name (st : state) (lodName : string) :
  let r := setLOD st lodName in
  performanceHistory (fst r) = performanceHistory st
  /\ (forall lod, In lod lodLevels -> name lod = lodName ->
        currentLOD (fst r) = lod
        /\ (currentLOD st = lod -> snd r = None)
        /\ (currentLOD st <> lod -> snd r = Some lod))
  /\ ((forall lod, In lod lodLevels -> name lod <> lodName) -> r = (st, None))
  /\ setLOD (fst r) lodName = (fst r, None).
Proof.
  intro r. split; [apply setLOD_history|].
  split; [|split; [|apply setLOD_twice]]; subst r; unfold setLOD;
    destruct (find (fun lod => String.eqb (name lod) lodName) lodLevels)
      as [newLOD|] eqn:F.
  - pose proof (find_some _ _ F) as [Hin Hname].
    apply String.eqb_eq in Hname.
    intros lod Hl Hn.
    assert (lod = newLOD) by (apply names_determine_level; congruence).
    subst lod.
    destruct (LODLevel_eqb newLOD (currentLOD st)) eqn:E; cbn [negb fst snd].
    + apply LODLevel_eqb_eq in E. repeat split; congruence.
    + assert (Hne : newLOD <> currentLOD st)
        by (intro H; apply LODLevel_eqb_eq in H; congruence).
      cbn [currentLOD]. repeat split; congruence.
  - intros lod Hl Hn. exfalso.
    pose proof (find_none _ _ F lod Hl) as Hf. cbn beta in Hf.
    apply String.eqb_neq in Hf. contradiction.
  - pose proof (find_some _ _ F) as [Hin Hname].
    apply String.eqb_eq in Hname.
    intro Hnone. exfalso. exact (Hnone newLOD Hin Hname).
  - reflexivity.
Qed.

(** X5.  [getRecommendations] gives at most one recommendation.  A
    controller without samples takes its average to be 60 fps, so at every
    level but Ultra it reports that the device can handle higher quality
    before anything was measured; at Ultra, and with an average from 45 to
    58, it recommends nothing. *)
Theorem getRecommendations_cases (st : state) :
  (length (getRecommendations st) <= 1)%nat
  /\ (performanceHistory st = [] ->
      getRecommendations st
      = if String.eqb (name (currentLOD st)) "Ultra" then [] else [CanHandleHigher])
  /\ ((45 # 1 <= getAverageFPS st)%Q -> (getAverageFPS st <= 58 # 1)%Q ->
      getRecommendations st = [])
  /\ (In UsePotatoOrLow (getRecommendations st) <-> (getAverageFPS st < 30 # 1)%Q)
  /\ (In UseLowOrMedium (getRecommendations st)
      <-> (30 # 1 <= getAverageFPS st)%Q /\ (getAverageFPS st < 45 # 1)%Q).
Proof.
  unfold getRecommendations.
  split; [|split; [|split; [|split]]].
  - destruct (Qltb _ _); [simpl; lia|].
    destruct (Qltb _ _); [simpl; lia|].
    destruct (_ && _); simpl; lia.
  - intro He. unfold getAverageFPS. rewrite He. cbn [length Nat.eqb].
    replace (Qltb (60 # 1) (30 # 1)) with false by reflexivity.
    replace (Qltb (60 # 1) (45 # 1)) with false by reflexivity.
    replace (Qltb (58 # 1) (60 # 1)) with true by reflexivity.
    cbn [andb]. destruct (String.eqb _ _); reflexivity.
  - intros Hlo Hhi.
    assert (H30 : (30 # 1 <= getAverageFPS st)%Q)
      by (eapply Qle_trans; [|exact Hlo]; unfold Qle; simpl; lia).
    apply Qltb_ge in H30, Hlo, Hhi. rewrite H30, Hlo, Hhi. reflexivity.
  - destruct (Qltb (getAverageFPS st) (30 # 1)) eqn:E1.
    + apply Qltb_lt in E1. split; [intros _; exact E1 | intros _; left; reflexivity].
    + apply Qltb_ge in E1. split.
      * intro H. exfalso.
        destruct (Qltb _ _); [destruct H as [H|[]]; discriminate|].
        destruct (_ && _); [destruct H as [H|[]]; discriminate | destruct H].
      * intro H. exfalso. exact (Qlt_not_le _ _ H E1).
  - destruct (Qltb (getAverageFPS st) (30 # 1)) eqn:E1.
    + apply Qltb_lt in E1. split.
      * intros [H|[]]. discriminate.
      * intros [H _]. exfalso. exact (Qlt_not_le _ _ E1 H).
    + apply Qltb_ge in E1.
      destruct (Qltb (getAverageFPS st) (45 # 1)) eqn:E2.
      * apply Qltb_lt in E2. split; [intros _; split; assumption | intros _; left; reflexivity].
      * apply Qltb_ge in E2. split.
        -- intro H. exfalso.
           destruct (_ && _); [destruct H as [H|[]]; discriminate | destruct H].
        -- intros [_ H]. exfalso. exact (Qlt_not_le _ _ H E2).
Qed.

End PerformanceLOD.

(* ================================================================== *)
(** * PerformanceLOD in the arithmetic of the code's numbers *)
(* ================================================================== *)

(** The frame rates a controller receives are JavaScript numbers, binary64
    floating-point values, and [evaluateLODChange] adds them up one by one.
    This module repeats the controller of [PerformanceLOD] with the history
    as a list of such numbers and with the code's additions, division and
    comparisons on them.  The level table, [indexOf] and the index
    arithmetic are those of [PerformanceLOD]. *)

Module PerformanceLODBinary64.

Import Floats.

(** The number a small non-negative integer denotes; it is exact. *)
Definition number (z : Z) : float := of_uint63 (Uint63.of_Z z).

Record state := mkState {
  currentLOD : PerformanceLOD.LODLevel;
  performanceHistory : list float
}.

Definition maxHistoryLength : nat := 60.

(** The constructor: Medium quality, empty history. *)
Definition initial : state :=
  mkState (PerformanceLOD.currentLOD PerformanceLOD.initial) [].

(** [recentFPS.reduce((sum, fps) => sum + fps, 0)] *)
Definition reduce_sum (l : list float) : float :=
  fold_left PrimFloat.add l 0%float.

(** [performanceHistory.slice(-30)] *)
Definition slice_last (n : nat) (l : list float) : list float :=
  skipn (length l - n)%nat l.

(** [evaluateLODChange], with the argument of the callback, if invoked. *)
Definition evaluateLODChange (st : state)
    : state * option PerformanceLOD.LODLevel :=
  let recentFPS := slice_last 30 (performanceHistory st) in
  let avgFPS :=
    (reduce_sum recentFPS / number (Z.of_nat (length recentFPS)))%float in
  let currentIndex :=
    PerformanceLOD.indexOf PerformanceLOD.lodLevels (currentLOD st) in
  let target := number (PerformanceLOD.targetFPS (currentLOD st)) in
  let last := (Z.of_nat (length PerformanceLOD.lodLevels) - 1)%Z in
  let newLODIndex :=
    if (avgFPS <? target - 5)%float && (0 <? currentIndex)%Z then
      Z.max 0 (currentIndex - 1)
    else if (target + 3 <? avgFPS)%float && (currentIndex <? last)%Z then
      Z.min last (currentIndex + 1)
    else currentIndex in
  if negb (newLODIndex =? currentIndex)%Z then
    let newLOD :=
      nth (Z.to_nat newLODIndex) PerformanceLOD.lodLevels (currentLOD st) in
    (mkState newLOD (performanceHistory st), Some newLOD)
  else (st, None).

(** [performanceHistory.push(fps)] and the [shift()] that follows it. *)
Definition push_shift (h : list float) (fps : float) : list float :=
  let h' := h ++ [fps] in
  if (maxHistoryLength <? length h')%nat then tl h' else h'.

(** [updatePerformance(metrics)], reading [metrics.fps]. *)
Definition updatePerformance (st : state) (fps : float)
    : state * option PerformanceLOD.LODLevel :=
  let st1 := mkState (currentLOD st) (push_shift (performanceHistory st) fps) in
  if (30 <=? length (performanceHistory st1))%nat then evaluateLODChange st1
  else (st1, None).

(** ** The claim's side *)

(** The most recent 30 of the samples received, oldest first. *)
Definition recent30 (samples : list float) : list float :=
  skipn (length samples - 30)%nat samples.

(** Their mean as a number: the samples added one by one to 0, oldest
    first, and the sum divided by 30, each operation rounded. *)
Definition mean_recent30 (samples : list float) : float :=
  (fold_left PrimFloat.add (recent30 samples) 0 / 30)%float.

Definition tierIndex (st : state) : Z :=
  PerformanceLOD.indexOf PerformanceLOD.lodLevels (currentLOD st).

(** The rational number a finite number is. *)
Definition exact (a : float) : Q :=
  match Prim2SF a with
  | S754_finite s m e =>
      ((if s then inject_Z (Z.neg m) else inject_Z (Z.pos m)) * Qpower (2 # 1) e)%Q
  | _ => (0 # 1)%Q
  end.

(** The mean of the most recent 30 samples with nothing rounded. *)
Definition exact_mean_recent30 (samples : list float) : Q :=
  (fold_right Qplus (0 # 1) (map exact (recent30 samples)) / inject_Z 30)%Q.

(** ** Order of numbers *)

Lemma SFltb_trans (a b c : spec_float) :
  SFltb a b = true -> SFltb b c = true -> SFltb a c = true.
Proof.
  unfold SFltb, SFcompare.
  destruct a as [sa|sa| |sa ma ea], b as [sb|sb| |sb mb eb], c as [sc|sc| |sc mc ec];
    try destruct sa; try destruct sb; try destruct sc;
    try discriminate; try reflexivity;
    repeat match goal with
      | |- context [Z.compare ?u ?v] => destruct (Z.compare_spec u v)
      | |- context [Pos.compare_cont Eq ?u ?v] =>
          change (Pos.compare_cont Eq u v) with (Pos.compare u v);
          destruct (Pos.compare_spec u v)
      end;
    cbn [CompOpp]; try discriminate; try reflexivity; intros; exfalso; lia.
Qed.

Lemma ltb_trans (a b c : float) :
  (a <? b)%float = true -> (b <? c)%float = true -> (a <? c)%float = true.
Proof. rewrite !ltb_spec. apply SFltb_trans. Qed.

(** No number lies below [targetFPS - 5] and above [targetFPS + 3] of the
    same level. *)
Lemma thresholds_exclusive (lod : PerformanceLOD.LODLevel) (avg : float) :
  In lod PerformanceLOD.lodLevels ->
  (avg <? number (PerformanceLOD.targetFPS lod) - 5)%float = true ->
  (number (PerformanceLOD.targetFPS lod) + 3 <? avg)%float = true ->
  False.
Proof.
  intros Hin Hd Hu. pose proof (ltb_trans _ _ _ Hu Hd) as H.
  simpl in Hin.
  destruct Hin as [<-|[<-|[<-|[<-|[<-|[]]]]]]; vm_compute in H; discriminate.
Qed.

(** ** The history *)

Lemma push_shift_keeps_sample (h : list float) (fps : float) :
  exists pre, push_shift h fps = pre ++ [fps].
Proof.
  unfold push_shift.
  destruct (Nat.ltb_spec maxHistoryLength (length (h ++ [fps]))) as [Hlt|Hge].
  - destruct h as [|a h].
    + simpl in Hlt. unfold maxHistoryLength in Hlt. lia.
    + exists h. reflexivity.
  - exists h. reflexivity.
Qed.

(** The samples the evaluation averages are the most recent 30 of those
    received, whether or not the oldest entry was just dropped. *)
Lemma slice_push_shift (h : list float) (fps : float) :
  slice_last 30 (push_shift h fps) = recent30 (h ++ [fps]).
Proof.
  unfold push_shift, slice_last, recent30.
  destruct (Nat.ltb_spec maxHistoryLength (length (h ++ [fps]))) as [Hlt|Hge];
    [|reflexivity].
  unfold maxHistoryLength in Hlt.
  destruct (h ++ [fps]) as [|a t]; [simpl in Hlt; lia|].
  cbn [tl length] in *.
  replace (S (length t) - 30)%nat with (S (length t - 30)) by lia.
  reflexivity.
Qed.

Lemma length_push_shift_30 (h : list float) (fps : float) :
  (30 <= length (push_shift h fps))%nat <-> (30 <= length (h ++ [fps]))%nat.
Proof.
  unfold push_shift.
  destruct (Nat.ltb_spec maxHistoryLength (length (h ++ [fps]))) as [Hlt|Hge];
    [|tauto].
  unfold maxHistoryLength in Hlt.
  destruct (h ++ [fps]) as [|a t]; cbn [tl length] in *; lia.
Qed.

(** The average the code computes is the mean of the most recent 30 samples
    received. *)
Lemma avgFPS_mean_recent30 (h : list float) (fps : float) :
  (30 <= length (h ++ [fps]))%nat ->
  (reduce_sum (slice_last 30 (push_shift h fps))
   / number (Z.of_nat (length (slice_last 30 (push_shift h fps)))))%float
  = mean_recent30 (h ++ [fps]).
Proof.
  intro H. rewrite slice_push_shift. unfold mean_recent30, reduce_sum.
  assert (L : length (recent30 (h ++ [fps])) = 30%nat)
    by (unfold recent30; rewrite length_skipn; lia).
  rewrite L. reflexivity.
Qed.

(** ** One evaluation *)

(** The average [evaluateLODChange] compares with the thresholds. *)
Definition avgFPS_of (st : state) : float :=
  (reduce_sum (slice_last 30 (performanceHistory st))
   / number (Z.of_nat (length (slice_last 30 (performanceHistory st)))))%float.

Lemma evaluateLODChange_cases (st : state) :
  In (currentLOD st) PerformanceLOD.lodLevels ->
  let r := evaluateLODChange st in
  let i := tierIndex st in
  let target := number (PerformanceLOD.targetFPS (currentLOD st)) in
  let below := (avgFPS_of st <? target - 5)%float in
  let above := (target + 3 <? avgFPS_of st)%float in
  ((below = true /\ (0 < i)%Z /\ tierIndex (fst r) = (i - 1)%Z
    /\ snd r = Some (currentLOD (fst r)))
   \/ (above = true /\ (i < 4)%Z /\ tierIndex (fst r) = (i + 1)%Z
       /\ snd r = Some (currentLOD (fst r)))
   \/ (~ (below = true /\ (0 < i)%Z) /\ ~ (above = true /\ (i < 4)%Z)
       /\ r = (st, None)))
  /\ In (currentLOD (fst r)) PerformanceLOD.lodLevels
  /\ performanceHistory (fst r) = performanceHistory st.
Proof.
  destruct st as [lod h]. intros Hin r i target below above.
  cbn [currentLOD] in Hin, target.
  subst r. unfold evaluateLODChange.
  fold (avgFPS_of (mkState lod h)).
  cbn [currentLOD performanceHistory].
  fold target. fold below. fold above.
  assert (Hi : PerformanceLOD.indexOf PerformanceLOD.lodLevels lod = i)
    by reflexivity.
  rewrite Hi.
  assert (Hex : below = true -> above = true -> False)
    by (apply thresholds_exclusive; exact Hin).
  clearbody below above. clear Hi.
  simpl in Hin.
  destruct Hin as [<-|[<-|[<-|[<-|[<-|[]]]]]];
    vm_compute in i; subst i;
    destruct below, above;
    try (exfalso; apply Hex; reflexivity);
    cbn -[PerformanceLOD.lodLevels];
    (split; [| split; [vm_compute; tauto | reflexivity]]);
    first
      [ left; repeat split; reflexivity
      | right; left; repeat split; reflexivity
      | right; right; split; [intros [E L]; first [discriminate E | lia]|];
        split; [intros [E L]; first [discriminate E | lia] | reflexivity] ].
Qed.

(** ** One call of [updatePerformance] *)

(** C1, amended.  One call of [updatePerformance] appends the sample; while
    fewer than 30 samples are held nothing is evaluated; from 30 samples on
    the tier moves one step down iff the mean of the most recent 30 samples,
    as the code computes it (the samples added one by one to 0, oldest
    first, the sum divided by 30, every operation rounded to a number), is
    below [targetFPS - 5] and the tier is not the lowest, one step up iff
    that mean is above [targetFPS + 3] and the tier is not the highest, and
    stays otherwise; the tier index changes by at most one and the callback
    fires exactly when it changes. *)
Theorem updatePerformance_spec (st : state) (fps : float) :
  In (currentLOD st) PerformanceLOD.lodLevels ->
  let samples := performanceHistory st ++ [fps] in
  let st' := fst (updatePerformance st fps) in
  let fired := snd (updatePerformance st fps) in
  let i := tierIndex st in
  let target := number (PerformanceLOD.targetFPS (currentLOD st)) in
  let down := (mean_recent30 samples <? target - 5)%float = true /\ (0 < i)%Z in
  let up := (target + 3 <? mean_recent30 samples)%float = true /\ (i < 4)%Z in
  (exists pre, performanceHistory st' = pre ++ [fps])
  /\ ((length samples < 30)%nat -> currentLOD st' = currentLOD st /\ fired = None)
  /\ ((30 <= length samples)%nat ->
        (tierIndex st' = (i - 1)%Z <-> down)
        /\ (tierIndex st' = (i + 1)%Z <-> up)
        /\ (currentLOD st' = currentLOD st <-> ~ down /\ ~ up))
  /\ (tierIndex st' = (i - 1)%Z \/ tierIndex st' = i \/ tierIndex st' = (i + 1)%Z)
  /\ In (currentLOD st') PerformanceLOD.lodLevels
  /\ (fired = None /\ currentLOD st' = currentLOD st
      \/ fired = Some (currentLOD st') /\ tierIndex st' <> i).
Proof.
  intros Hin samples st' fired i target down up.
  set (st1 := mkState (currentLOD st) (push_shift (performanceHistory st) fps)).
  assert (Hup : updatePerformance st fps
                = if (30 <=? length (push_shift (performanceHistory st) fps))%nat
                  then evaluateLODChange st1 else (st1, None))
    by reflexivity.
  pose proof (length_push_shift_30 (performanceHistory st) fps) as Hlen.
  fold samples in Hlen.
  destruct (evaluateLODChange_cases st1 Hin) as (Hcases & Hin' & Hh).
  cbv zeta in Hcases.
  change (tierIndex st1) with i in Hcases.
  change (number (PerformanceLOD.targetFPS (currentLOD st1))) with target in Hcases.
  assert (Hsame : forall s, currentLOD s = currentLOD st -> tierIndex s = i)
    by (intros s E; unfold tierIndex; rewrite E; reflexivity).
  subst st' fired. rewrite Hup.
  destruct (Nat.leb_spec 30 (length (push_shift (performanceHistory st) fps)))
    as [Hge|Hlt].
  - apply Hlen in Hge.
    assert (Hmean : avgFPS_of st1 = mean_recent30 samples)
      by (apply avgFPS_mean_recent30; exact Hge).
    rewrite Hmean in Hcases.
    assert (Hexcl : ~ (down /\ up)).
    { intros [[H1 _] [H2 _]].
      exact (thresholds_exclusive (currentLOD st) _ Hin H1 H2). }
    split; [|split; [|split; [|split; [|split]]]].
    + rewrite Hh. apply push_shift_keeps_sample.
    + intro. lia.
    + intros _.
      destruct Hcases as [(Hd & Hpos & Hidx & Hcb)
                         | [(Hu & Hhi & Hidx & Hcb) | (Hnd & Hnu & Hr)]].
      * assert (Hdown : down) by (split; assumption).
        split; [split; intros _; assumption|].
        split; [split; [intro E; lia | intro U; exfalso; apply Hexcl; split; assumption]|].
        split; [intro E; apply Hsame in E; lia | intros [N _]; exfalso; exact (N Hdown)].
      * assert (Hupg : up) by (split; assumption).
        split; [split; [intro E; lia | intro D; exfalso; apply Hexcl; split; assumption]|].
        split; [split; intros _; assumption|].
        split; [intro E; apply Hsame in E; lia | intros [_ N]; exfalso; exact (N Hupg)].
      * rewrite Hr. cbn [fst]. change (tierIndex st1) with i.
        split; [split; [intro E; lia | intro D; exfalso; exact (Hnd D)]|].
        split; [split; [intro E; lia | intro U; exfalso; exact (Hnu U)]|].
        split; [intros _; split; assumption | intros _; reflexivity].
    + destruct Hcases as [(_ & _ & Hidx & _) | [(_ & _ & Hidx & _) | (_ & _ & Hr)]];
        [left; exact Hidx | right; right; exact Hidx
        | right; left; rewrite Hr; reflexivity].
    + exact Hin'.
    + destruct Hcases as [(_ & _ & Hidx & Hcb) | [(_ & _ & Hidx & Hcb) | (_ & _ & Hr)]].
      * right. split; [exact Hcb | lia].
      * right. split; [exact Hcb | lia].
      * left. rewrite Hr. split; reflexivity.
  - assert (Hshort : (length samples < 30)%nat).
    { destruct (Nat.le_gt_cases 30 (length samples)) as [H|H]; [|exact H].
      apply Hlen in H. lia. }
    cbn [fst snd].
    split; [|split; [|split; [|split; [|split]]]].
    + apply push_shift_keeps_sample.
    + intros _. split; reflexivity.
    + intro. lia.
    + right; left; reflexivity.
    + exact Hin.
    + left. split; reflexivity.
Qed.

Lemma updatePerformance_spec_witness :
  In (currentLOD (mkState (currentLOD initial) (repeat 30%float 29)))
     PerformanceLOD.lodLevels
  /\ tierIndex (fst (updatePerformance
                       (mkState (currentLOD initial) (repeat 30%float 29))
                       30%float)) = 1%Z.
Proof.
  assert (Hin : In (currentLOD (mkState (currentLOD initial) (repeat 30%float 29)))
                   PerformanceLOD.lodLevels) by (vm_compute; tauto).
  split; [exact Hin|].
  destruct (updatePerformance_spec _ 30%float Hin) as (_ & _ & Hev & _).
  destruct (Hev ltac:(vm_compute; lia)) as (Hdown & _).
  apply Hdown. split; vm_compute; reflexivity.
Defined.

(** C1, the claim as stated fails.  A controller at Medium (target 55) that
    holds fifteen samples of 49.9 and fourteen of 50.1 receives one more
    sample of 50.1.  The mean of these 30 samples is exactly 50, which is
    not below [55 - 5]; the sum the code accumulates is rounded at every
    step and gives the mean 49.99999999999997, so the controller drops to
    Low and invokes the callback. *)
Lemma rounded_sum_drops_tier_at_mean_50 :
  let a := 0x1.8f33333333333p+5%float in
  let b := 0x1.90ccccccccccdp+5%float in
  let st := mkState (currentLOD initial) (repeat a 15 ++ repeat b 14) in
  let samples := performanceHistory st ++ [b] in
  let r := updatePerformance st b in
  (exact a == 7022800668930867 # 140737488355328)%Q
  /\ (exact b == 7050948166601933 # 140737488355328)%Q
  /\ length samples = 30%nat
  /\ (exact_mean_recent30 samples == 50 # 1)%Q
  /\ ~ (exact_mean_recent30 samples
        < inject_Z (PerformanceLOD.targetFPS (currentLOD st)) - inject_Z 5)%Q
  /\ mean_recent30 samples = 0x1.8fffffffffffcp+5%float
  /\ tierIndex st = 2%Z
  /\ tierIndex (fst r) = 1%Z
  /\ snd r = Some (currentLOD (fst r))
  /\ PerformanceLOD.name (currentLOD (fst r)) = "Low"%string.
Proof.
  cbv zeta.
  split; [vm_compute; reflexivity|].
  split; [vm_compute; reflexivity|].
  split; [reflexivity|].
  split; [vm_compute; reflexivity|].
  split; [vm_compute; intro H; discriminate H|].
  repeat split; vm_compute; reflexivity.
Qed.

End PerformanceLODBinary64.

(* ================================================================== *)
(** * DeviceCapabilities *)
(* ================================================================== *)

Module DeviceCapabilities.

Local Open Scope Z_scope.

Inductive GpuTier := low | medium | high.

Definition GpuTier_eqb (a b : GpuTier) : bool :=
  match a, b with
  | low, low | medium, medium | high, high => true
  | _, _ => false
  end.

(** [interface DeviceInfo] *)
Record DeviceInfo := mkDeviceInfo {
  isMobile : bool;
  isTablet : bool;
  isLowEnd : bool;
  hasWebGL2 : bool;
  hasHighDPI : bool;
  maxTextureSize : Z;
  gpuTier : GpuTier;
  memoryGB : Q;
  cores : Z
}.

(** [interface QualitySettings] *)
Record QualitySettings := mkQuality {
  particleCount : Z;
  geometrySegments : Z;
  enableComplexShaders : bool;
  enablePostProcessing : bool;
  shadowMapSize : Z;
  maxAnisotropy : Z;
  pixelRatio : Q
}.

(** What a WebGL context answers: [MAX_TEXTURE_SIZE], and the unmasked
    renderer string when the [WEBGL_debug_renderer_info] extension exists. *)
Record GLContext := mkGL {
  MAX_TEXTURE_SIZE : Z;
  UNMASKED_RENDERER_WEBGL : option string
}.

(** The host signals [detectDeviceInfo] reads.  The two regular expressions
    over the user agent are taken as their boolean results; an absent
    [hardwareConcurrency] or [deviceMemory] is [None]. *)
Record Host := mkHost {
  userAgentMobile : bool;
  userAgentTablet : bool;
  hardwareConcurrency : option Z;
  deviceMemory : option Q;
  webgl : option GLContext;
  webgl2 : bool;
  devicePixelRatio : Q
}.

(** [String.prototype.toLowerCase] on ASCII letters. *)
Definition lower_ascii (c : Ascii.ascii) : Ascii.ascii :=
  let n := Ascii.nat_of_ascii c in
  if (65 <=? n)%nat && (n <=? 90)%nat then Ascii.ascii_of_nat (n + 32) else c.

Fixpoint toLowerCase (s : string) : string :=
  match s with
  | EmptyString => EmptyString
  | String c t => String (lower_ascii c) (toLowerCase t)
  end.

(** [String.prototype.includes] *)
Definition includes (s needle : string) : bool :=
  match String.index 0 needle s with Some _ => true | None => false end.

(** [x || 4] on an integer that may be absent: 0 and absent are falsy. *)
Definition orZ (x : option Z) (d : Z) : Z :=
  match x with
  | Some v => if v =? 0 then d else v
  | None => d
  end.

Definition orQ (x : option Q) (d : Q) : Q :=
  match x with
  | Some v => if Qeq_bool v (0 # 1) then d else v
  | None => d
  end.

(** The renderer-string classification inside [if (debugInfo)]. *)
Definition classifyRenderer (renderer : string) : GpuTier :=
  if includes renderer "intel" && includes renderer "hd" then low
  else if includes renderer "gtx" || includes renderer "rtx"
          || includes renderer "radeon" then high
  else medium.

(** [detectDeviceInfo] *)
Definition detectDeviceInfo (h : Host) : DeviceInfo :=
  let isMobile := userAgentMobile h in
  let isTablet := userAgentTablet h in
  let cores := orZ (hardwareConcurrency h) 4 in
  let memoryGB := orQ (deviceMemory h) (4 # 1) in
  let '(maxTextureSize, gpuTier) :=
    match webgl h with
    | Some gl =>
        (MAX_TEXTURE_SIZE gl,
         match UNMASKED_RENDERER_WEBGL gl with
         | Some r => classifyRenderer (toLowerCase r)
         | None => medium
         end)
    | None => (2048, medium)
    end in
  let isLowEnd :=
    (isMobile && (cores <=? 2) && Qle_bool memoryGB (2 # 1))
    || GpuTier_eqb gpuTier low || (maxTextureSize <? 4096) in
  mkDeviceInfo isMobile isTablet isLowEnd (webgl2 h)
    (Qltb (3 # 2) (devicePixelRatio h))
    maxTextureSize gpuTier memoryGB cores.

(** [Math.min(a, b)] *)
Definition Math_min (a b : Q) : Q := if Qle_bool a b then a else b.

(** [determineQualitySettings]; [dpr] is [window.devicePixelRatio], which
    the two desktop branches read again. *)
Definition determineQualitySettings (info : DeviceInfo) (dpr : Q) : QualitySettings :=
  if isLowEnd info then
    mkQuality 200 8 false false 512 1 (1 # 1)
  else if isMobile info then
    mkQuality 500 16 false false 1024 2
      (if hasHighDPI info then (2 # 1) else (1 # 1))
  else if GpuTier_eqb (gpuTier info) high then
    mkQuality 2000 64 true true 2048 16 (Math_min dpr (2 # 1))
  else
    mkQuality 1000 32 true false 1024 4 (Math_min dpr (2 # 1)).

(** The constructor: detect once, decide once. *)
Definition construct (h : Host) : DeviceInfo * QualitySettings :=
  let info := detectDeviceInfo h in
  (info, determineQualitySettings info (devicePixelRatio h)).

(** ** The four tiers of the decision table, by name *)

Definition lowestTier : QualitySettings :=
  mkQuality 200 8 false false 512 1 (1 # 1).
Definition secondLowestTier (ratio : Q) : QualitySettings :=
  mkQuality 500 16 false false 1024 2 ratio.
Definition middleTier (ratio : Q) : QualitySettings :=
  mkQuality 1000 32 true false 1024 4 ratio.
Definition highestTier (ratio : Q) : QualitySettings :=
  mkQuality 2000 64 true true 2048 16 ratio.

(** One tier is below another when it asks for fewer particles and a
    coarser mesh. *)
Definition below (a b : QualitySettings) : Prop :=
  particleCount a < particleCount b /\ geometrySegments a < geometrySegments b.

Lemma GpuTier_eqb_eq (a b : GpuTier) : GpuTier_eqb a b = true <-> a = b.
Proof. destruct a, b; simpl; split; congruence. Qed.

(** The low-end flag is the disjunction the detection computes. *)
Lemma isLowEnd_iff (h : Host) :
  let info := detectDeviceInfo h in
  isLowEnd info = true <->
  (isMobile info = true /\ cores info <= 2 /\ (memoryGB info <= 2 # 1)%Q)
  \/ gpuTier info = low \/ maxTextureSize info < 4096.
Proof.
  unfold detectDeviceInfo.
  destruct (match webgl h with Some _ => _ | None => _ end) as [mts tier].
  cbn [isLowEnd isMobile cores memoryGB gpuTier maxTextureSize].
  rewrite !orb_true_iff, !andb_true_iff, Z.leb_le, Z.ltb_lt,
    Qle_bool_iff, GpuTier_eqb_eq.
  tauto.
Qed.

(** The four tiers are strictly ordered. *)
Lemma tiers_ordered (r1 r2 r3 : Q) :
  below lowestTier (secondLowestTier r1)
  /\ below (secondLowestTier r1) (middleTier r2)
  /\ below (middleTier r2) (highestTier r3).
Proof. unfold below. simpl. lia. Qed.

(** C9.  The classification is a first-match decision table over the
    detected signals: low-end (mobile with at most 2 cores and at most 2 GB,
    or a low GPU tier, or a maximal texture size below 4096) gives the lowest
    tier; otherwise mobile gives the second-lowest tier, with pixel ratio 2
    exactly when the display is high-DPI and 1 otherwise; otherwise a high
    GPU tier gives the highest tier; otherwise the fixed middle tier. *)
Theorem decision_table (h : Host) :
  let info := detectDeviceInfo h in
  let q := snd (construct h) in
  let lowEnd :=
    (isMobile info = true /\ cores info <= 2 /\ (memoryGB info <= 2 # 1)%Q)
    \/ gpuTier info = low \/ maxTextureSize info < 4096 in
  let ratio := Math_min (devicePixelRatio h) (2 # 1) in
  (lowEnd -> q = lowestTier)
  /\ (~ lowEnd -> isMobile info = true ->
      q = secondLowestTier (if hasHighDPI info then 2 # 1 else 1 # 1))
  /\ (~ lowEnd -> isMobile info = false -> gpuTier info = high ->
      q = highestTier ratio)
  /\ (~ lowEnd -> isMobile info = false -> gpuTier info <> high ->
      q = middleTier ratio)
  /\ below lowestTier (secondLowestTier (pixelRatio q))
  /\ below (secondLowestTier (pixelRatio q)) (middleTier ratio)
  /\ below (middleTier ratio) (highestTier ratio).
Proof.
  intros info q lowEnd ratio.
  pose proof (isLowEnd_iff h) as Hlow. cbv zeta in Hlow.
  fold info in Hlow. fold lowEnd in Hlow.
  assert (Hq : q = determineQualitySettings info (devicePixelRatio h))
    by reflexivity.
  unfold determineQualitySettings in Hq.
  repeat split; try (unfold below; simpl; lia).
  - intro Hl. apply Hlow in Hl. rewrite Hl in Hq. exact Hq.
  - intros Hn Hm.
    destruct (isLowEnd info) eqn:E; [exfalso; apply Hn, Hlow; reflexivity|].
    rewrite Hm in Hq. exact Hq.
  - intros Hn Hm Hg.
    destruct (isLowEnd info) eqn:E; [exfalso; apply Hn, Hlow; reflexivity|].
    rewrite Hm, Hg in Hq. exact Hq.
  - intros Hn Hm Hg.
    destruct (isLowEnd info) eqn:E; [exfalso; apply Hn, Hlow; reflexivity|].
    rewrite Hm in Hq.
    destruct (GpuTier_eqb (gpuTier info) high) eqn:G;
      [apply GpuTier_eqb_eq in G; contradiction|].
    exact Hq.
Qed.

(** ** Three hosts *)

Example desktop_with_rtx_gets_highest_tier :
  snd (construct (mkHost false false (Some 16) (Some (8 # 1))
                    (Some (mkGL 16384 (Some "NVIDIA GeForce RTX 3080"%string)))
                    true (1 # 1)))
  = highestTier (1 # 1).
Proof. vm_compute. reflexivity. Qed.

Example host_without_webgl_is_low_end :
  snd (construct (mkHost false false (Some 8) None None false (2 # 1)))
  = lowestTier.
Proof. vm_compute. reflexivity. Qed.

Example high_dpi_phone_gets_ratio_2 :
  snd (construct (mkHost true false (Some 8) (Some (4 # 1))
                    (Some (mkGL 8192 (Some "Adreno (TM) 650"%string)))
                    true (3 # 1)))
  = secondLowestTier (2 # 1).
Proof. vm_compute. reflexivity. Qed.

(* ------------------------------------------------------------------ *)
(** ** Feature queries and what every host gets *)
(* ------------------------------------------------------------------ *)

(** The argument of [supports]. *)
Inductive Feature :=
| webgl2Feature
| complexShaders
| postProcessing
| highParticleCount.

(** [supports(feature)] on the two fields the constructor has filled. *)
Definition supports (d : DeviceInfo * QualitySettings) (feature : Feature) : bool :=
  match feature with
  | webgl2Feature => hasWebGL2 (fst d)
  | complexShaders => enableComplexShaders (snd d)
  | postProcessing => enablePostProcessing (snd d)
  | highParticleCount => 1000 <=? particleCount (snd d)
  end.

Lemma Math_min_le_r (a b : Q) : (Math_min a b <= b)%Q.
Proof.
  unfold Math_min. destruct (Qle_bool a b) eqn:E.
  - apply Qle_bool_iff. exact E.
  - apply Qle_refl.
Qed.

(** X6.  A host without a WebGL context is given the maximal texture size
    2048 and is therefore low-end: it gets the lowest tier and none of the
    three quality features, whatever its cores, memory, user agent and pixel
    ratio are. *)
Theorem no_webgl_gets_lowest_tier (h : Host) :
  webgl h = None ->
  maxTextureSize (fst (construct h)) = 2048
  /\ isLowEnd (fst (construct h)) = true
  /\ snd (construct h) = lowestTier
  /\ supports (construct h) complexShaders = false
  /\ supports (construct h) postProcessing = false
  /\ supports (construct h) highParticleCount = false.
Proof.
  intro H. unfold construct, detectDeviceInfo. rewrite H.
  cbn [fst snd maxTextureSize isLowEnd]. 
  replace (2048 <? 4096) with true by reflexivity.
  rewrite orb_true_r. repeat split.
Qed.

Lemma no_webgl_gets_lowest_tier_witness :
  webgl (mkHost false false (Some 32) (Some (64 # 1)) None true (1 # 1)) = None
  /\ snd (construct (mkHost false false (Some 32) (Some (64 # 1)) None true (1 # 1)))
     = lowestTier.
Proof.
  split; [reflexivity|].
  apply (no_webgl_gets_lowest_tier
           (mkHost false false (Some 32) (Some (64 # 1)) None true (1 # 1))).
  reflexivity.
Defined.

(** X7.  For every host the recommended settings obey: the pixel ratio is
    at most 2; post-processing is only enabled together with complex
    shaders; complex shaders go exactly with at least 1000 particles, and
    exactly with a device that is neither low-end nor mobile, so no mobile
    device gets them. *)
Theorem recommended_settings_invariants (h : Host) :
  let d := construct h in
  (pixelRatio (snd d) <= 2 # 1)%Q
  /\ (supports d postProcessing = true -> supports d complexShaders = true)
  /\ supports d complexShaders = supports d highParticleCount
  /\ supports d complexShaders
     = negb (isLowEnd (fst d)) && negb (isMobile (fst d))
  /\ supports d postProcessing
     = negb (isLowEnd (fst d)) && negb (isMobile (fst d))
       && GpuTier_eqb (gpuTier (fst d)) high.
Proof.
  intro d. subst d. unfold construct. cbn [fst snd].
  set (info := detectDeviceInfo h).
  unfold determineQualitySettings, supports. cbn [fst snd].
  destruct (isLowEnd info); [repeat split; discriminate|].
  destruct (isMobile info).
  - cbn [pixelRatio enableComplexShaders enablePostProcessing particleCount negb andb].
    repeat split; try discriminate.
    destruct (hasHighDPI info); discriminate.
  - destruct (GpuTier_eqb (gpuTier info) high);
      cbn [pixelRatio enableComplexShaders enablePostProcessing particleCount negb andb];
      repeat split; try discriminate; apply Math_min_le_r.
Qed.

(** X8.  An absent or zero [hardwareConcurrency] counts as 4 cores and an
    absent or zero [deviceMemory] as 4 GB.  On a host that lacks either one
    the cores-and-memory rule cannot fire: the host is low-end exactly when
    its GPU tier is low or its maximal texture size is below 4096. *)
Theorem absent_signals_default_to_4 (h : Host) :
  let info := detectDeviceInfo h in
  ((hardwareConcurrency h = None \/ hardwareConcurrency h = Some 0) ->
   cores info = 4)
  /\ ((deviceMemory h = None \/ deviceMemory h = Some (0 # 1)%Q) ->
      memoryGB info = (4 # 1)%Q)
  /\ ((hardwareConcurrency h = None \/ hardwareConcurrency h = Some 0
       \/ deviceMemory h = None \/ deviceMemory h = Some (0 # 1)%Q) ->
      (isLowEnd info = true <-> gpuTier info = low \/ maxTextureSize info < 4096)).
Proof.
  intro info.
  assert (Hc : (hardwareConcurrency h = None \/ hardwareConcurrency h = Some 0) ->
               cores info = 4).
  { subst info. unfold detectDeviceInfo.
    destruct (match webgl h with Some _ => _ | None => _ end) as [mts tier].
    cbn [cores]. intros [->| ->]; reflexivity. }
  assert (Hm : (deviceMemory h = None \/ deviceMemory h = Some (0 # 1)%Q) ->
               memoryGB info = (4 # 1)%Q).
  { subst info. unfold detectDeviceInfo.
    destruct (match webgl h with Some _ => _ | None => _ end) as [mts tier].
    cbn [memoryGB]. intros [->| ->]; reflexivity. }
  split; [exact Hc|]. split; [exact Hm|].
  intro Habsent.
  pose proof (isLowEnd_iff h) as Hlow. cbv zeta in Hlow. fold info in Hlow.
  rewrite Hlow. split; [|tauto].
  intros [(_ & Hcores & Hmem) | H]; [exfalso | exact H].
  destruct Habsent as [H|[H|[H|H]]].
  - rewrite (Hc (or_introl H)) in Hcores. lia.
  - rewrite (Hc (or_intror H)) in Hcores. lia.
  - rewrite (Hm (or_introl H)) in Hmem. unfold Qle in Hmem. simpl in Hmem. lia.
  - rewrite (Hm (or_intror H)) in Hmem. unfold Qle in Hmem. simpl in Hmem. lia.
Qed.

End DeviceCapabilities.

(* ================================================================== *)
(** * AudioAnalyzer *)
(* ================================================================== *)

Module AudioAnalyzer.

Local Open Scope Z_scope.

(** [Uint8Array]: every element is a byte, so every sample is in [0,255]
    by construction. *)
Definition Uint8Array := list Byte.byte.

Definition byteZ (b : Byte.byte) : Z := Z.of_N (Byte.to_N b).

(** [data[i]]: [undefined] ([None]) outside the array, never an exception. *)
Definition get (data : Uint8Array) (i : Z) : option Z :=
  if i <? 0 then None else option_map byteZ (nth_error data (Z.to_nat i)).

(** [sum += x]: adding [undefined] gives NaN, and NaN stays NaN. *)
Definition add (sum x : option Z) : option Z :=
  match sum, x with
  | Some s, Some v => Some (s + v)
  | _, _ => None
  end.

(** [interface AudioAnalyzerConfig]; a range is the pair [start, end]. *)
Record AudioAnalyzerConfig := mkConfig {
  fftSize : Z;
  smoothingTimeConstant : Q;
  bassRange : Z * Z;
  midRange : Z * Z;
  trebleRange : Z * Z
}.

Definition defaultConfig : AudioAnalyzerConfig :=
  mkConfig 2048 (8 # 10) (0, 10) (10, 100) (100, 512).

(** The loop of [calculateBandLevel]:
    [for (let i = start; i < end && i < frequencyData.length; i++)
       sum += frequencyData[i]].
    Every iteration increases [i], so [end - start] iterations are enough
    to reach the exit test (see [band_loop_fuel]). *)
Fixpoint band_loop (fuel : nat) (data : Uint8Array) (i end_ : Z)
    (sum : option Z) : option Z :=
  match fuel with
  | O => sum
  | S fuel' =>
      if (i <? end_) && (i <? Z.of_nat (length data))
      then band_loop fuel' data (i + 1) end_ (add sum (get data i))
      else sum
  end.

(** [calculateBandLevel([start, end])]; [None] is NaN. *)
Definition calculateBandLevel (data : Uint8Array) (range : Z * Z) : option Q :=
  let '(start, end_) := range in
  let count := end_ - start in
  let sum := band_loop (Z.to_nat count) data start end_ (Some 0) in
  if 0 <? count then
    match sum with
    | Some s => Some (inject_Z s / inject_Z count / inject_Z 255)%Q
    | None => None
    end
  else Some (0 # 1)%Q.

(** The loop of [calculateOverallLevel], over every element in order. *)
Definition sum_squares (data : Uint8Array) : Z :=
  fold_left (fun sum b => sum + byteZ b * byteZ b) data 0.

(** [calculateOverallLevel]; on an empty array [sum / length] is 0/0, NaN. *)
Definition calculateOverallLevel (data : Uint8Array) : option R :=
  if (length data =? 0)%nat then None
  else Some (sqrt (IZR (sum_squares data) / IZR (Z.of_nat (length data))) / 255)%R.

(** The four levels of [interface AudioFrequencyData]. *)
Record AudioFrequencyData := mkLevels {
  bassLevel : option Q;
  midLevel : option Q;
  trebleLevel : option Q;
  overallLevel : option R
}.

(** [getFrequencyData]; [analysed] is the frame the analyser node has just
    written into [frequencyData], [None] when there is no analyser. *)
Definition getFrequencyData (config : AudioAnalyzerConfig)
    (analysed : option Uint8Array) : AudioFrequencyData :=
  match analysed with
  | None => mkLevels (Some (0 # 1)%Q) (Some (0 # 1)%Q) (Some (0 # 1)%Q) (Some 0%R)
  | Some frequencyData =>
      mkLevels (calculateBandLevel frequencyData (bassRange config))
               (calculateBandLevel frequencyData (midRange config))
               (calculateBandLevel frequencyData (trebleRange config))
               (calculateOverallLevel frequencyData)
  end.

(** ** The quantities the specification speaks of *)

(** The sample at index [i], an index outside the frame counting as 0. *)
Definition sample0 (data : Uint8Array) (i : Z) : Z :=
  match get data i with Some v => v | None => 0 end.

(** The sum of the [n] samples from index [start] on, padded with 0. *)
Fixpoint padded_sum (data : Uint8Array) (start : Z) (n : nat) : Z :=
  match n with
  | O => 0
  | S n' => sample0 data start + padded_sum data (start + 1) n'
  end.

(** "mean(sample_i^2)" over all samples, as a real number. *)
Definition mean_square (data : Uint8Array) : R :=
  (fold_right Rplus 0 (map (fun b => IZR (byteZ b) ^ 2) data)
   / INR (length data))%R.

(** The frame with the sample at position [i] replaced by [b]. *)
Fixpoint set_sample (data : Uint8Array) (i : nat) (b : Byte.byte) : Uint8Array :=
  match data, i with
  | [], _ => []
  | _ :: t, O => b :: t
  | x :: t, S i' => x :: set_sample t i' b
  end.

(** A number that is not NaN and lies in [0,1]. *)
Definition in_unit_Q (x : option Q) : Prop :=
  exists v, x = Some v /\ (0 <= v)%Q /\ (v <= 1)%Q.

Definition in_unit_R (x : option R) : Prop :=
  exists v, x = Some v /\ (0 <= v <= 1)%R.

(** [x <= y] on two numbers that are not NaN. *)
Definition le_Q (x y : option Q) : Prop :=
  exists v w, x = Some v /\ y = Some w /\ (v <= w)%Q.

(** ** The band loop in closed form *)

Lemma byteZ_range (b : Byte.byte) : 0 <= byteZ b <= 255.
Proof.
  unfold byteZ. pose proof (Byte.to_N_bounded b). lia.
Qed.

Lemma get_inside (data : Uint8Array) (i : Z) :
  0 <= i < Z.of_nat (length data) ->
  exists b, nth_error data (Z.to_nat i) = Some b /\ get data i = Some (byteZ b).
Proof.
  intro Hi. unfold get.
  destruct (Z.ltb_spec i 0) as [|_]; [lia|].
  destruct (nth_error data (Z.to_nat i)) as [b|] eqn:E.
  - exists b. split; reflexivity.
  - apply nth_error_None in E. lia.
Qed.

Lemma get_outside (data : Uint8Array) (i : Z) :
  i < 0 \/ Z.of_nat (length data) <= i -> get data i = None.
Proof.
  intros [Hi|Hi]; unfold get.
  - destruct (Z.ltb_spec i 0); [reflexivity|lia].
  - destruct (Z.ltb_spec i 0); [reflexivity|].
    replace (nth_error data (Z.to_nat i)) with (@None Byte.byte);
      [reflexivity|].
    symmetry. apply nth_error_None. lia.
Qed.

Lemma sample0_range (data : Uint8Array) (i : Z) : 0 <= sample0 data i <= 255.
Proof.
  unfold sample0, get.
  destruct (i <? 0); [lia|].
  destruct (nth_error data (Z.to_nat i)) as [b|]; simpl;
    [apply byteZ_range | lia].
Qed.

Lemma sample0_outside (data : Uint8Array) (i : Z) :
  i < 0 \/ Z.of_nat (length data) <= i -> sample0 data i = 0.
Proof.
  intro H. unfold sample0. rewrite (get_outside data i H). reflexivity.
Qed.

Lemma padded_sum_range (data : Uint8Array) (n : nat) (start : Z) :
  0 <= padded_sum data start n <= 255 * Z.of_nat n.
Proof.
  revert start. induction n as [|n IH]; intro start.
  - simpl. lia.
  - cbn [padded_sum]. specialize (IH (start + 1)).
    pose proof (sample0_range data start). lia.
Qed.

Lemma padded_sum_outside (data : Uint8Array) (n : nat) (start : Z) :
  Z.of_nat (length data) <= start -> padded_sum data start n = 0.
Proof.
  revert start. induction n as [|n IH]; intros start H; [reflexivity|].
  cbn [padded_sum]. rewrite sample0_outside by lia. rewrite IH by lia.
  reflexivity.
Qed.

Lemma padded_sum_mono (d d' : Uint8Array) (n : nat) (start : Z) :
  (forall j, sample0 d j <= sample0 d' j) ->
  padded_sum d start n <= padded_sum d' start n.
Proof.
  intro H. revert start. induction n as [|n IH]; intro start.
  - simpl. lia.
  - cbn [padded_sum]. specialize (IH (start + 1)). specialize (H start). lia.
Qed.

Lemma band_loop_NaN (fuel : nat) (data : Uint8Array) (i end_ : Z) :
  band_loop fuel data i end_ None = None.
Proof.
  revert i. induction fuel as [|fuel IH]; intro i; [reflexivity|].
  cbn [band_loop]. destruct ((i <? end_) && (i <? Z.of_nat (length data)));
    [apply IH | reflexivity].
Qed.

(** From a non-negative index the loop adds up the samples it passes, and
    with at least [end - i] iterations allowed it passes every index of the
    range: what lies outside the frame adds nothing. *)
Lemma band_loop_sum (fuel : nat) (data : Uint8Array) (i end_ s : Z) :
  0 <= i -> end_ - i <= Z.of_nat fuel ->
  band_loop fuel data i end_ (Some s)
  = Some (s + padded_sum data i (Z.to_nat (end_ - i))).
Proof.
  revert i s. induction fuel as [|fuel IH]; intros i s Hi Hfuel.
  - cbn [band_loop]. replace (Z.to_nat (end_ - i)) with O by lia.
    simpl. f_equal. lia.
  - cbn [band_loop].
    destruct (Z.ltb_spec i end_) as [Hlt|Hge]; cbn [andb].
    + replace (Z.to_nat (end_ - i)) with (S (Z.to_nat (end_ - (i + 1)))) by lia.
      cbn [padded_sum].
      destruct (Z.ltb_spec i (Z.of_nat (length data))) as [Hin|Hout].
      * destruct (get_inside data i (conj Hi Hin)) as (b & _ & Hg).
        rewrite Hg. cbn [add]. rewrite IH by lia.
        unfold sample0. rewrite Hg. f_equal. lia.
      * rewrite sample0_outside by lia.
        rewrite padded_sum_outside by lia. f_equal. lia.
    + replace (Z.to_nat (end_ - i)) with O by lia. simpl. f_equal. lia.
Qed.

(** More iterations than [end - start] change nothing: the loop has left
    through its exit test. *)
Lemma band_loop_fuel (extra : nat) (data : Uint8Array) (start end_ : Z) :
  0 <= start ->
  band_loop (Z.to_nat (end_ - start) + extra) data start end_ (Some 0)
  = band_loop (Z.to_nat (end_ - start)) data start end_ (Some 0).
Proof.
  intro H. rewrite !band_loop_sum by lia. reflexivity.
Qed.

(** [calculateBandLevel] on a range that starts at a non-negative index. *)
Lemma calculateBandLevel_closed (data : Uint8Array) (start end_ : Z) :
  0 <= start ->
  calculateBandLevel data (start, end_)
  = if 0 <? end_ - start
    then Some (inject_Z (padded_sum data start (Z.to_nat (end_ - start)))
               / inject_Z (end_ - start) / inject_Z 255)%Q
    else Some (0 # 1)%Q.
Proof.
  intro H. unfold calculateBandLevel.
  rewrite band_loop_sum by lia. reflexivity.
Qed.

(** ** Band levels: degradation, bounds, monotonicity *)

Lemma inject_Z_pos (c : Z) : 0 < c -> (0 < inject_Z c)%Q.
Proof. intro H. unfold Qlt, inject_Z. simpl. lia. Qed.

Lemma level_Q_bounds (s c : Z) :
  0 < c -> 0 <= s <= 255 * c ->
  (0 <= inject_Z s / inject_Z c / inject_Z 255)%Q
  /\ (inject_Z s / inject_Z c / inject_Z 255 <= 1)%Q.
Proof.
  intros Hc Hs.
  assert (Hc' : (0 < inject_Z c)%Q) by (apply inject_Z_pos; exact Hc).
  assert (H255 : (0 < inject_Z 255)%Q) by reflexivity.
  split.
  - apply Qle_shift_div_l; [exact H255|].
    apply Qle_shift_div_l; [exact Hc'|].
    rewrite !Qmult_0_l. unfold Qle, inject_Z. simpl. lia.
  - apply Qle_shift_div_r; [exact H255|].
    apply Qle_shift_div_r; [exact Hc'|].
    rewrite Qmult_1_l, <- inject_Z_mult, <- Zle_Qle. lia.
Qed.

Lemma level_Q_mono (s s' c : Z) :
  0 < c -> s <= s' ->
  (inject_Z s / inject_Z c / inject_Z 255
   <= inject_Z s' / inject_Z c / inject_Z 255)%Q.
Proof.
  intros Hc Hs.
  assert (Hc' : (0 < inject_Z c)%Q) by (apply inject_Z_pos; exact Hc).
  assert (H255 : (0 < inject_Z 255)%Q) by reflexivity.
  apply Qle_shift_div_l; [exact H255|].
  apply Qle_shift_div_l; [exact Hc'|].
  setoid_replace (inject_Z s / inject_Z c / inject_Z 255 * inject_Z 255 * inject_Z c)%Q
    with (inject_Z s)
    by (field; intro E; rewrite E in Hc'; discriminate).
  rewrite <- Zle_Qle. exact Hs.
Qed.

(** A band level is a number in [0,1] on every range that starts at a
    non-negative index. *)
Lemma calculateBandLevel_unit (data : Uint8Array) (start end_ : Z) :
  0 <= start -> in_unit_Q (calculateBandLevel data (start, end_)).
Proof.
  intro H. rewrite calculateBandLevel_closed by exact H.
  destruct (Z.ltb_spec 0 (end_ - start)) as [Hc|Hc].
  - eexists. split; [reflexivity|].
    apply level_Q_bounds; [exact Hc|].
    pose proof (padded_sum_range data (Z.to_nat (end_ - start)) start). lia.
  - exists (0 # 1)%Q. split; [reflexivity|]. split; discriminate.
Qed.

Lemma sample0_set_sample (data : Uint8Array) (i : nat) (b : Byte.byte) (j : Z) :
  sample0 (set_sample data i b) j
  = if (j =? Z.of_nat i) && (j <? Z.of_nat (length data))
    then byteZ b else sample0 data j.
Proof.
  unfold sample0, get.
  destruct (Z.ltb_spec j 0) as [Hneg|Hpos].
  - destruct (Z.eqb_spec j (Z.of_nat i)); [lia|reflexivity].
  - replace (j <? Z.of_nat (length data)) with (Z.to_nat j <? length data)%nat
      by (destruct (Nat.ltb_spec (Z.to_nat j) (length data));
          destruct (Z.ltb_spec j (Z.of_nat (length data))); lia || reflexivity).
    replace (j =? Z.of_nat i) with (Z.to_nat j =? i)%nat
      by (destruct (Nat.eqb_spec (Z.to_nat j) i);
          destruct (Z.eqb_spec j (Z.of_nat i)); lia || reflexivity).
    generalize (Z.to_nat j) as k. clear j Hpos. intro k.
    revert i k. induction data as [|x t IH]; intros i k.
    + cbn [set_sample]. destruct k; simpl; rewrite ?andb_false_r; reflexivity.
    + destruct i as [|i]; destruct k as [|k]; cbn [set_sample nth_error];
        try reflexivity.
      rewrite IH. reflexivity.
Qed.

(** Raising one sample raises no sample of the frame. *)
Lemma set_sample_raises (data : Uint8Array) (i : nat) (b b' : Byte.byte) :
  nth_error data i = Some b -> byteZ b <= byteZ b' ->
  forall j, sample0 data j <= sample0 (set_sample data i b') j.
Proof.
  intros Hb Hle j. rewrite sample0_set_sample.
  destruct (Z.eqb_spec j (Z.of_nat i)) as [->|_]; cbn [andb]; [|lia].
  destruct (Z.ltb_spec (Z.of_nat i) (Z.of_nat (length data))); [|lia].
  unfold sample0, get.
  destruct (Z.ltb_spec (Z.of_nat i) 0); [lia|].
  rewrite Nat2Z.id, Hb. simpl. exact Hle.
Qed.

Lemma calculateBandLevel_mono (data : Uint8Array) (start end_ : Z)
    (i : nat) (b b' : Byte.byte) :
  0 <= start ->
  nth_error data i = Some b -> byteZ b <= byteZ b' ->
  le_Q (calculateBandLevel data (start, end_))
       (calculateBandLevel (set_sample data i b') (start, end_)).
Proof.
  intros H Hb Hle. rewrite !calculateBandLevel_closed by exact H.
  destruct (Z.ltb_spec 0 (end_ - start)) as [Hc|Hc].
  - eexists. eexists. split; [reflexivity|]. split; [reflexivity|].
    apply level_Q_mono; [exact Hc|].
    apply padded_sum_mono. apply (set_sample_raises data i b b' Hb Hle).
  - exists (0 # 1)%Q, (0 # 1)%Q. repeat split. discriminate.
Qed.

(** C6, the claim as stated fails: with the default treble range [100,512)
    and [fftSize = 256] the frame has 128 samples, the range's indices
    exceed the frame length, and on a saturated frame the treble level is
    7/103, not 0. *)
Lemma treble_partly_outside_frame_not_zero :
  Z.of_nat (length (repeat Byte.xff 128)) < snd (trebleRange defaultConfig)
  /\ exists v,
       calculateBandLevel (repeat Byte.xff 128) (trebleRange defaultConfig) = Some v
       /\ (v == 7 # 103)%Q /\ ~ (v == 0)%Q.
Proof.
  split; [vm_compute; reflexivity|].
  eexists. split; [vm_compute; reflexivity|]. split; [reflexivity|discriminate].
Qed.

(** C6, amended.  The band level is computed without failure for every
    frame and every integer range: it is 0 when [end <= start]; it is 0 when
    the whole range lies at or beyond the end of the frame; and when only
    part of the range lies beyond the frame, the samples beyond it count as
    0 while the divisor stays [end - start].  NaN arises only from a
    negative start index. *)
Theorem calculateBandLevel_degrades (data : Uint8Array) (start end_ : Z) :
  (end_ <= start -> calculateBandLevel data (start, end_) = Some (0 # 1)%Q)
  /\ (0 <= start -> Z.of_nat (length data) <= start ->
      exists v, calculateBandLevel data (start, end_) = Some v /\ (v == 0)%Q)
  /\ (0 <= start -> start < end_ ->
      calculateBandLevel data (start, end_)
      = Some (inject_Z (padded_sum data start (Z.to_nat (end_ - start)))
              / inject_Z (end_ - start) / inject_Z 255)%Q)
  /\ (calculateBandLevel data (start, end_) = None -> start < 0).
Proof.
  split; [|split; [|split]].
  - intro H. unfold calculateBandLevel.
    destruct (Z.ltb_spec 0 (end_ - start)); [lia|reflexivity].
  - intros H0 Hout. rewrite calculateBandLevel_closed by exact H0.
    destruct (Z.ltb_spec 0 (end_ - start)).
    + eexists. split; [reflexivity|].
      rewrite padded_sum_outside by exact Hout.
      unfold Qeq, Qdiv, Qmult, inject_Z. simpl. reflexivity.
    + exists (0 # 1)%Q. split; reflexivity.
  - intros H0 Hlt. rewrite calculateBandLevel_closed by exact H0.
    destruct (Z.ltb_spec 0 (end_ - start)); [reflexivity|lia].
  - intro HN. destruct (Z.ltb_spec start 0) as [|H0]; [assumption|].
    rewrite calculateBandLevel_closed in HN by exact H0.
    destruct (0 <? end_ - start); discriminate.
Qed.

(** ** The overall level *)

Lemma sum_squares_acc (data : Uint8Array) (a : Z) :
  fold_left (fun sum b => sum + byteZ b * byteZ b) data a
  = a + sum_squares data.
Proof.
  unfold sum_squares. revert a.
  induction data as [|b t IH]; intro a; cbn [fold_left].
  - lia.
  - rewrite IH, (IH (0 + _)). lia.
Qed.

Lemma sum_squares_cons (b : Byte.byte) (t : Uint8Array) :
  sum_squares (b :: t) = byteZ b * byteZ b + sum_squares t.
Proof.
  unfold sum_squares at 1. cbn [fold_left]. rewrite sum_squares_acc. lia.
Qed.

Lemma sum_squares_range (data : Uint8Array) :
  0 <= sum_squares data <= 65025 * Z.of_nat (length data).
Proof.
  induction data as [|b t IH].
  - unfold sum_squares. simpl. lia.
  - rewrite sum_squares_cons. cbn [length]. rewrite Nat2Z.inj_succ.
    pose proof (byteZ_range b). nia.
Qed.

Lemma sum_squares_IZR (data : Uint8Array) :
  IZR (sum_squares data)
  = fold_right Rplus 0%R (map (fun b => (IZR (byteZ b) ^ 2)%R) data).
Proof.
  induction data as [|b t IH].
  - reflexivity.
  - rewrite sum_squares_cons, plus_IZR, mult_IZR, IH. cbn [map fold_right].
    ring.
Qed.

Lemma sum_squares_silence (data : Uint8Array) :
  Forall (fun b => b = Byte.x00) data -> sum_squares data = 0.
Proof.
  induction 1 as [|b t Hb _ IH].
  - reflexivity.
  - rewrite sum_squares_cons, IH, Hb. reflexivity.
Qed.

Lemma length_pos_IZR (data : Uint8Array) :
  data <> [] -> (0 < IZR (Z.of_nat (length data)))%R.
Proof.
  intro H. apply IZR_lt. destruct data; [contradiction|]. simpl. lia.
Qed.

Lemma calculateOverallLevel_nonempty (data : Uint8Array) :
  data <> [] ->
  calculateOverallLevel data
  = Some (sqrt (IZR (sum_squares data) / IZR (Z.of_nat (length data))) / 255)%R.
Proof.
  intro H. unfold calculateOverallLevel.
  destruct data; [contradiction|reflexivity].
Qed.

Lemma calculateOverallLevel_unit (data : Uint8Array) :
  data <> [] -> in_unit_R (calculateOverallLevel data).
Proof.
  intro H. rewrite (calculateOverallLevel_nonempty data H).
  eexists. split; [reflexivity|].
  pose proof (length_pos_IZR data H) as HL.
  pose proof (sum_squares_range data) as [Hlo Hhi].
  apply IZR_le in Hlo, Hhi. rewrite mult_IZR in Hhi.
  set (S := IZR (sum_squares data)) in *.
  set (L := IZR (Z.of_nat (length data))) in *.
  assert (Hq0 : (0 <= S / L)%R).
  { apply Rmult_le_pos; [exact Hlo|]. left. apply Rinv_0_lt_compat. exact HL. }
  assert (Hq1 : (S / L <= 255 * 255)%R).
  { apply (Rmult_le_reg_r L); [exact HL|].
    unfold Rdiv. rewrite Rmult_assoc, Rinv_l, Rmult_1_r by lra. lra. }
  assert (Hs : (sqrt (S / L) <= 255)%R).
  { rewrite <- (sqrt_square 255) by lra. apply sqrt_le_1_alt. exact Hq1. }
  pose proof (sqrt_pos (S / L)). lra.
Qed.

(** C7.  On a frame with at least one sample the overall level is the
    root of the mean of the squared samples, divided by 255; on silence it
    is exactly 0; and it is not the mean of the three band levels: on the
    default configuration, a 1024-sample frame whose only non-zero sample is
    bin 0 at 255 has overall level 1/32 while its band levels average to
    1/30. *)
Theorem calculateOverallLevel_rms (data : Uint8Array) :
  data <> [] ->
  calculateOverallLevel data = Some (sqrt (mean_square data) / 255)%R
  /\ (Forall (fun b => b = Byte.x00) data ->
      calculateOverallLevel data = Some 0%R)
  /\ (let frame := Byte.xff :: repeat Byte.x00 1023 in
      exists b m t o,
        getFrequencyData defaultConfig (Some frame)
        = mkLevels (Some b) (Some m) (Some t) (Some o)
        /\ o = (1 / 32)%R
        /\ ((Q2R b + Q2R m + Q2R t) / 3 = 1 / 30)%R
        /\ o <> ((Q2R b + Q2R m + Q2R t) / 3)%R).
Proof.
  intro H. split; [|split].
  - rewrite (calculateOverallLevel_nonempty data H).
    unfold mean_square. rewrite sum_squares_IZR, INR_IZR_INZ. reflexivity.
  - intro Hz. rewrite (calculateOverallLevel_nonempty data H).
    rewrite (sum_squares_silence data Hz).
    unfold Rdiv. rewrite !Rmult_0_l, sqrt_0, Rmult_0_l. reflexivity.
  - intro frame.
    assert (Hne : frame <> []) by discriminate.
    unfold getFrequencyData.
    rewrite (calculateOverallLevel_nonempty frame Hne).
    replace (sum_squares frame) with 65025 by (vm_compute; reflexivity).
    replace (Z.of_nat (length frame)) with 1024 by (vm_compute; reflexivity).
    repeat match goal with
    | |- context [calculateBandLevel frame ?r] =>
        let v := eval vm_compute in (calculateBandLevel frame r) in
        replace (calculateBandLevel frame r) with v by (vm_compute; reflexivity)
    end.
    rewrite (sqrt_lem_1 (65025 / 1024) (255 / 32)) by lra.
    do 4 eexists. split; [reflexivity|].
    unfold Q2R. simpl. repeat split; lra.
Qed.

Lemma calculateOverallLevel_rms_witness :
  [Byte.xff; Byte.xff] <> []
  /\ calculateOverallLevel [Byte.xff; Byte.xff]
     = Some (sqrt (mean_square [Byte.xff; Byte.xff]) / 255)%R.
Proof.
  assert (H : [Byte.xff; Byte.xff] <> []) by discriminate.
  split; [exact H|].
  exact (proj1 (calculateOverallLevel_rms [Byte.xff; Byte.xff] H)).
Defined.

(** C8.  On a frame with at least one sample and band ranges that start at
    non-negative indices, the three band levels and the overall level are
    numbers in [0,1]; and raising one sample of a band's index range never
    lowers that band's level. *)
Theorem levels_unit_and_monotone (config : AudioAnalyzerConfig) (data : Uint8Array) :
  data <> [] ->
  0 <= fst (bassRange config) ->
  0 <= fst (midRange config) ->
  0 <= fst (trebleRange config) ->
  let levels := getFrequencyData config (Some data) in
  in_unit_Q (bassLevel levels)
  /\ in_unit_Q (midLevel levels)
  /\ in_unit_Q (trebleLevel levels)
  /\ in_unit_R (overallLevel levels)
  /\ (forall range i b b',
        In range [bassRange config; midRange config; trebleRange config] ->
        fst range <= Z.of_nat i < snd range ->
        nth_error data i = Some b -> byteZ b <= byteZ b' ->
        le_Q (calculateBandLevel data range)
             (calculateBandLevel (set_sample data i b') range)).
Proof.
  intros Hne Hb Hm Ht levels. subst levels. cbn [getFrequencyData
    bassLevel midLevel trebleLevel overallLevel].
  destruct (bassRange config) as [bs be] eqn:Eb.
  destruct (midRange config) as [ms me] eqn:Em.
  destruct (trebleRange config) as [ts te] eqn:Et.
  cbn [fst] in Hb, Hm, Ht.
  split; [apply calculateBandLevel_unit; exact Hb|].
  split; [apply calculateBandLevel_unit; exact Hm|].
  split; [apply calculateBandLevel_unit; exact Ht|].
  split; [apply calculateOverallLevel_unit; exact Hne|].
  intros range i b b' Hin _ Hnth Hle.
  destruct Hin as [<-|[<-|[<-|[]]]];
    eapply calculateBandLevel_mono; eassumption.
Qed.

Lemma levels_unit_and_monotone_witness :
  [Byte.x10; Byte.xff; Byte.x00; Byte.x80] <> []
  /\ in_unit_Q (bassLevel (getFrequencyData defaultConfig
                             (Some [Byte.x10; Byte.xff; Byte.x00; Byte.x80])))
  /\ le_Q (calculateBandLevel [Byte.x10; Byte.xff; Byte.x00; Byte.x80] (0, 10))
          (calculateBandLevel [Byte.x10; Byte.xff; Byte.xc0; Byte.x80] (0, 10)).
Proof.
  assert (Hne : [Byte.x10; Byte.xff; Byte.x00; Byte.x80] <> []) by discriminate.
  split; [exact Hne|].
  destruct (levels_unit_and_monotone defaultConfig
              [Byte.x10; Byte.xff; Byte.x00; Byte.x80] Hne
              ltac:(simpl; lia) ltac:(simpl; lia) ltac:(simpl; lia))
    as (Hbass & _ & _ & _ & Hmono).
  split; [exact Hbass|].
  apply (Hmono (0, 10) 2%nat Byte.x00 Byte.xc0).
  - left. reflexivity.
  - simpl. lia.
  - reflexivity.
  - vm_compute. discriminate.
Defined.

(** ** Silence and saturation on the default configuration *)

Example silence_gives_zero_bands :
  let levels := getFrequencyData defaultConfig (Some (repeat Byte.x00 1024)) in
  le_Q (bassLevel levels) (Some (0 # 1)%Q)
  /\ le_Q (midLevel levels) (Some (0 # 1)%Q)
  /\ le_Q (trebleLevel levels) (Some (0 # 1)%Q).
Proof.
  cbv zeta. repeat split; eexists; eexists;
    (split; [vm_compute; reflexivity|]); (split; [reflexivity|]); discriminate.
Qed.

Example saturation_gives_full_bands :
  let levels := getFrequencyData defaultConfig (Some (repeat Byte.xff 1024)) in
  le_Q (Some (1 # 1)%Q) (bassLevel levels)
  /\ le_Q (Some (1 # 1)%Q) (midLevel levels)
  /\ le_Q (Some (1 # 1)%Q) (trebleLevel levels)
  /\ overallLevel levels = Some 1%R.
Proof.
  cbv zeta. split; [|split; [|split]];
    try (eexists; eexists; split; [reflexivity|];
         split; [vm_compute; reflexivity|]; discriminate).
  cbn [getFrequencyData overallLevel].
  rewrite calculateOverallLevel_nonempty by discriminate.
  replace (sum_squares (repeat Byte.xff 1024)) with (65025 * 1024)%Z
    by (vm_compute; reflexivity).
  replace (Z.of_nat (length (repeat Byte.xff 1024))) with 1024%Z
    by (vm_compute; reflexivity).
  rewrite mult_IZR.
  replace (IZR 65025 * IZR 1024 / IZR 1024)%R with (255 * 255)%R by lra.
  rewrite sqrt_square by lra. f_equal. lra.
Qed.

(* ------------------------------------------------------------------ *)
(** ** Volume, and more on the levels *)
(* ------------------------------------------------------------------ *)

(** [Math.max(a, b)] *)
Definition Math_max (a b : Q) : Q := if Qle_bool a b then b else a.

(** [setVolume(volume)] on the gain node's value; [None] when there is no
    gain node yet. *)
Definition setVolume (gain : option Q) (volume : Q) : option Q :=
  match gain with
  | Some _ => Some (Math_max (0 # 1) (DeviceCapabilities.Math_min (1 # 1) volume))
  | None => None
  end.

(** [handleVolumeChange] of the UI controller:
    [setVolume(parseInt(volumeSlider.value) / 100)], the slider's value
    being the integer [slider]. *)
Definition handleVolumeChange (gain : option Q) (slider : Z) : option Q :=
  setVolume gain (inject_Z slider / inject_Z 100)%Q.

(** X9.  [setVolume] does nothing without a gain node; with one, the gain
    becomes the volume clamped to [0,1]: the volume itself when it lies in
    [0,1], 0 below and 1 above.  Setting the same volume twice changes
    nothing more, and the volume slider, which ranges over 0..100, sets the
    gain to exactly a hundredth of its value. *)
Theorem setVolume_clamps (gain : option Q) (volume : Q) :
  (gain = None -> setVolume gain volume = None)
  /\ (gain <> None ->
      exists g, setVolume gain volume = Some g
        /\ (0 <= g)%Q /\ (g <= 1)%Q
        /\ ((0 <= volume)%Q -> (volume <= 1)%Q -> (g == volume)%Q)
        /\ ((volume < 0)%Q -> g = (0 # 1)%Q)
        /\ ((1 < volume)%Q -> g = (1 # 1)%Q))
  /\ setVolume (setVolume gain volume) volume = setVolume gain volume
  /\ (forall slider, 0 <= slider <= 100 -> gain <> None ->
        exists g, handleVolumeChange gain slider = Some g
          /\ (g == inject_Z slider / inject_Z 100)%Q).
Proof.
  assert (Hclamp : forall v,
            let g := Math_max (0 # 1) (DeviceCapabilities.Math_min (1 # 1) v) in
            (0 <= g)%Q /\ (g <= 1)%Q
            /\ ((0 <= v)%Q -> (v <= 1)%Q -> (g == v)%Q)
            /\ ((v < 0)%Q -> g = (0 # 1)%Q)
            /\ ((1 < v)%Q -> g = (1 # 1)%Q)).
  { intros v g. subst g. unfold Math_max, DeviceCapabilities.Math_min.
    destruct (Qle_bool (1 # 1) v) eqn:E1.
    - apply Qle_bool_iff in E1. cbn.
      repeat split; try discriminate.
      + intros _ Hv. apply Qle_antisym; assumption.
      + intro Hneg. exfalso. apply (Qlt_not_le _ _ Hneg).
        eapply Qle_trans; [|exact E1]. discriminate.
    - assert (Hlt : (v < 1)%Q)
        by (apply Qnot_le_lt; intro H; apply Qle_bool_iff in H; congruence).
      destruct (Qle_bool (0 # 1) v) eqn:E0.
      + apply Qle_bool_iff in E0.
        repeat split; try assumption; try reflexivity.
        * apply Qlt_le_weak. exact Hlt.
        * intro Hneg. exfalso. exact (Qlt_not_le _ _ Hneg E0).
        * intro Hbig. exfalso. exact (Qlt_irrefl _ (Qlt_trans _ _ _ Hbig Hlt)).
      + assert (Hneg : (v < 0)%Q)
          by (apply Qnot_le_lt; intro H; apply Qle_bool_iff in H; congruence).
        repeat split; try discriminate; try reflexivity.
        * intros H0 _. exfalso. exact (Qlt_not_le _ _ Hneg H0).
        * intro Hbig. exfalso. exact (Qlt_irrefl _ (Qlt_trans _ _ _ Hbig Hlt)). }
  split; [intros ->; reflexivity|].
  split; [|split].
  - intro Hg. destruct gain as [g0|]; [|contradiction].
    eexists. split; [reflexivity|]. apply Hclamp.
  - destruct gain; reflexivity.
  - intros slider Hs Hg. destruct gain as [g0|]; [|contradiction].
    unfold handleVolumeChange, setVolume. eexists. split; [reflexivity|].
    apply Hclamp.
    + apply Qle_shift_div_l; [reflexivity|].
      rewrite Qmult_0_l. unfold Qle, inject_Z. simpl. lia.
    + apply Qle_shift_div_r; [reflexivity|].
      rewrite Qmult_1_l. unfold Qle, inject_Z. simpl. lia.
Qed.

Lemma padded_sum_ext (d d' : Uint8Array) (n : nat) (start : Z) :
  (forall j, start <= j < start + Z.of_nat n -> sample0 d j = sample0 d' j) ->
  padded_sum d start n = padded_sum d' start n.
Proof.
  revert start. induction n as [|n IH]; intros start H; [reflexivity|].
  cbn [padded_sum]. rewrite (H start) by lia. f_equal.
  apply IH. intros j Hj. apply H. lia.
Qed.

(** X10.  A band level depends only on the samples of its own index
    range: replacing a sample at an index outside [start, end) leaves the
    level as it was. *)
Theorem calculateBandLevel_local (data : Uint8Array) (start end_ : Z)
    (i : nat) (b : Byte.byte) :
  0 <= start ->
  Z.of_nat i < start \/ end_ <= Z.of_nat i ->
  calculateBandLevel (set_sample data i b) (start, end_)
  = calculateBandLevel data (start, end_).
Proof.
  intros H0 Hout. rewrite !calculateBandLevel_closed by exact H0.
  destruct (Z.ltb_spec 0 (end_ - start)); [|reflexivity].
  rewrite (padded_sum_ext (set_sample data i b) data); [reflexivity|].
  intros j Hj. rewrite sample0_set_sample.
  destruct (Z.eqb_spec j (Z.of_nat i)); [lia|reflexivity].
Qed.

Lemma calculateBandLevel_local_witness :
  0 <= fst (bassRange defaultConfig)
  /\ calculateBandLevel (set_sample (repeat Byte.x10 1024) 512 Byte.xff)
       (bassRange defaultConfig)
     = calculateBandLevel (repeat Byte.x10 1024) (bassRange defaultConfig).
Proof.
  split; [simpl; lia|].
  apply (calculateBandLevel_local (repeat Byte.x10 1024) 0 10 512 Byte.xff).
  - lia.
  - right. simpl. lia.
Defined.

(** ** Frames of one repeated sample *)

Lemma sample0_repeat (b : Byte.byte) (n : nat) (j : Z) :
  sample0 (repeat b n) j = if (0 <=? j) && (j <? Z.of_nat n) then byteZ b else 0.
Proof.
  destruct (Z.leb_spec 0 j) as [H0|H0]; cbn [andb].
  - destruct (Z.ltb_spec j (Z.of_nat n)) as [Hn|Hn].
    + destruct (get_inside (repeat b n) j) as (b' & Hnth & Hget).
      { rewrite repeat_length. lia. }
      unfold sample0. rewrite Hget. f_equal.
      apply nth_error_In, repeat_spec in Hnth. exact Hnth.
    + apply sample0_outside. rewrite repeat_length. lia.
  - apply sample0_outside. lia.
Qed.

Lemma padded_sum_repeat (b : Byte.byte) (n k : nat) (start : Z) :
  0 <= start ->
  padded_sum (repeat b n) start k
  = byteZ b * Z.max 0 (Z.min (start + Z.of_nat k) (Z.of_nat n) - start).
Proof.
  revert start. induction k as [|k IH]; intros start H0.
  - cbn [padded_sum]. replace (Z.max 0 _) with 0 by lia. lia.
  - cbn [padded_sum]. rewrite IH by lia. rewrite sample0_repeat.
    destruct (Z.leb_spec 0 start); [|lia]. cbn [andb].
    destruct (Z.ltb_spec start (Z.of_nat n)).
    + replace (Z.max 0 (Z.min (start + 1 + Z.of_nat k) (Z.of_nat n) - (start + 1)))
        with (Z.min (start + 1 + Z.of_nat k) (Z.of_nat n) - (start + 1)) by lia.
      replace (Z.max 0 (Z.min (start + Z.of_nat (S k)) (Z.of_nat n) - start))
        with (Z.min (start + 1 + Z.of_nat k) (Z.of_nat n) - (start + 1) + 1) by lia.
      ring.
    + replace (Z.max 0 (Z.min (start + 1 + Z.of_nat k) (Z.of_nat n) - (start + 1)))
        with 0 by lia.
      replace (Z.max 0 (Z.min (start + Z.of_nat (S k)) (Z.of_nat n) - start))
        with 0 by lia.
      ring.
Qed.

Lemma sum_squares_repeat (b : Byte.byte) (n : nat) :
  sum_squares (repeat b n) = Z.of_nat n * (byteZ b * byteZ b).
Proof.
  induction n as [|n IH]; [reflexivity|].
  cbn [repeat]. rewrite sum_squares_cons, IH. lia.
Qed.

(** X11.  On a frame of [n >= 1] samples that all have the value [v],
    the overall level is [v / 255], and a band [start, end) with
    [0 <= start < end] has the level [v / 255] scaled by the share of its
    indices that lie inside the frame; for a band inside the frame that is
    [v / 255] itself.  Silence gives 0 everywhere and saturation 1. *)
Theorem constant_frame_levels (b : Byte.byte) (n : nat) (start end_ : Z) :
  (0 < n)%nat -> 0 <= start -> start < end_ ->
  calculateOverallLevel (repeat b n) = Some (IZR (byteZ b) / 255)%R
  /\ (exists level,
        calculateBandLevel (repeat b n) (start, end_) = Some level
        /\ (level == inject_Z (byteZ b) / inject_Z 255
                     * (inject_Z (Z.max 0 (Z.min end_ (Z.of_nat n) - start))
                        / inject_Z (end_ - start)))%Q
        /\ (end_ <= Z.of_nat n -> (level == inject_Z (byteZ b) / inject_Z 255)%Q)).
Proof.
  intros Hn H0 Hlt. split.
  - rewrite calculateOverallLevel_nonempty by (destruct n; [lia|discriminate]).
    rewrite sum_squares_repeat, repeat_length, !mult_IZR.
    pose proof (byteZ_range b) as [Hb _]. apply IZR_le in Hb.
    assert (HN : (0 < IZR (Z.of_nat n))%R) by (apply IZR_lt; lia).
    replace (IZR (Z.of_nat n) * (IZR (byteZ b) * IZR (byteZ b)) / IZR (Z.of_nat n))%R
      with (IZR (byteZ b) * IZR (byteZ b))%R by (field; lra).
    rewrite sqrt_square by exact Hb. reflexivity.
  - rewrite calculateBandLevel_closed by exact H0.
    destruct (Z.ltb_spec 0 (end_ - start)); [|lia].
    eexists. split; [reflexivity|].
    rewrite padded_sum_repeat by exact H0.
    replace (start + Z.of_nat (Z.to_nat (end_ - start))) with end_ by lia.
    assert (Hc : ~ (inject_Z (end_ - start) == 0)%Q)
      by (unfold Qeq, inject_Z; simpl; lia).
    split.
    + rewrite inject_Z_mult. field. exact Hc.
    + intro Hin.
      replace (Z.max 0 (Z.min end_ (Z.of_nat n) - start)) with (end_ - start) by lia.
      rewrite inject_Z_mult. field. exact Hc.
Qed.

Lemma constant_frame_levels_witness :
  (0 < 1024)%nat /\ 0 <= 100 /\ 100 < 512
  /\ calculateOverallLevel (repeat Byte.xff 1024) = Some (IZR (byteZ Byte.xff) / 255)%R.
Proof.
  assert (H1 : (0 < 1024)%nat) by lia.
  assert (H2 : 0 <= 100) by lia.
  assert (H3 : 100 < 512) by lia.
  repeat split; try assumption.
  exact (proj1 (constant_frame_levels Byte.xff 1024 100 512 H1 H2 H3)).
Defined.

(** ** The overall level against single samples and against the mean *)

Lemma length_set_sample (data : Uint8Array) (i : nat) (b : Byte.byte) :
  length (set_sample data i b) = length data.
Proof.
  revert i. induction data as [|x t IH]; intro i; [reflexivity|].
  destruct i; cbn [set_sample length]; [reflexivity | rewrite IH; reflexivity].
Qed.

Lemma sum_squares_set_sample (data : Uint8Array) (i : nat) (b b' : Byte.byte) :
  nth_error data i = Some b -> byteZ b <= byteZ b' ->
  sum_squares data <= sum_squares (set_sample data i b').
Proof.
  revert i. induction data as [|x t IH]; intros i Hn Hle.
  - destruct i; discriminate.
  - destruct i as [|i]; cbn [set_sample nth_error] in *.
    + injection Hn as ->. rewrite !sum_squares_cons.
      pose proof (byteZ_range b). nia.
    + rewrite !sum_squares_cons. specialize (IH i Hn Hle). lia.
Qed.

(** X12.  Raising one sample of the frame, wherever it lies, never lowers
    the overall level. *)
Theorem calculateOverallLevel_mono (data : Uint8Array) (i : nat)
    (b b' : Byte.byte) :
  nth_error data i = Some b -> byteZ b <= byteZ b' ->
  exists v w,
    calculateOverallLevel data = Some v
    /\ calculateOverallLevel (set_sample data i b') = Some w
    /\ (v <= w)%R.
Proof.
  intros Hn Hle.
  assert (Hne : data <> []) by (intro E; subst data; destruct i; discriminate).
  assert (Hne' : set_sample data i b' <> []).
  { intro E. apply (f_equal (@length _)) in E.
    rewrite length_set_sample in E. destruct data; [contradiction|discriminate]. }
  rewrite (calculateOverallLevel_nonempty data Hne).
  rewrite (calculateOverallLevel_nonempty _ Hne'), length_set_sample.
  eexists. eexists. split; [reflexivity|]. split; [reflexivity|].
  pose proof (length_pos_IZR data Hne) as HL.
  pose proof (sum_squares_set_sample data i b b' Hn Hle) as Hs.
  apply IZR_le in Hs.
  apply Rmult_le_compat_r; [lra|].
  apply sqrt_le_1_alt.
  apply Rmult_le_compat_r; [|exact Hs].
  left. apply Rinv_0_lt_compat. exact HL.
Qed.

Lemma calculateOverallLevel_mono_witness :
  nth_error [Byte.x10; Byte.x20] 1 = Some Byte.x20
  /\ byteZ Byte.x20 <= byteZ Byte.xff
  /\ exists v w,
       calculateOverallLevel [Byte.x10; Byte.x20] = Some v
       /\ calculateOverallLevel [Byte.x10; Byte.xff] = Some w
       /\ (v <= w)%R.
Proof.
  assert (H1 : nth_error [Byte.x10; Byte.x20] 1 = Some Byte.x20) by reflexivity.
  assert (H2 : byteZ Byte.x20 <= byteZ Byte.xff) by (vm_compute; discriminate).
  split; [exact H1|]. split; [exact H2|].
  exact (calculateOverallLevel_mono [Byte.x10; Byte.x20] 1 Byte.x20 Byte.xff H1 H2).
Defined.

(** The sum of all samples. *)
Definition sum_samples (data : Uint8Array) : Z :=
  fold_right (fun b acc => byteZ b + acc) 0 data.

Lemma sample0_cons_succ (x : Byte.byte) (t : Uint8Array) (j : Z) :
  0 <= j -> sample0 (x :: t) (j + 1) = sample0 t j.
Proof.
  intro H. unfold sample0, get.
  destruct (Z.ltb_spec (j + 1) 0); [lia|].
  destruct (Z.ltb_spec j 0); [lia|].
  replace (Z.to_nat (j + 1)) with (S (Z.to_nat j)) by lia. reflexivity.
Qed.

Lemma padded_sum_cons_succ (x : Byte.byte) (t : Uint8Array) (n : nat) (start : Z) :
  0 <= start -> padded_sum (x :: t) (start + 1) n = padded_sum t start n.
Proof.
  revert start. induction n as [|n IH]; intros start H; [reflexivity|].
  cbn [padded_sum]. rewrite sample0_cons_succ by exact H.
  rewrite IH by lia. reflexivity.
Qed.

Lemma padded_sum_whole (data : Uint8Array) :
  padded_sum data 0 (length data) = sum_samples data.
Proof.
  induction data as [|x t IH]; [reflexivity|].
  cbn [length padded_sum sum_samples fold_right].
  rewrite (padded_sum_cons_succ x t (length t) 0) by lia.
  rewrite IH. reflexivity.
Qed.

Lemma sum_samples_shifted_squares (data : Uint8Array) (a : Z) :
  0 <= sum_squares data - 2 * a * sum_samples data
       + Z.of_nat (length data) * (a * a).
Proof.
  induction data as [|x t IH].
  - unfold sum_squares. simpl. lia.
  - rewrite sum_squares_cons. cbn [sum_samples fold_right length].
    fold (sum_samples t). rewrite Nat2Z.inj_succ.
    pose proof (Z.square_nonneg (byteZ x - a)). nia.
Qed.

(** The square of the sum is at most the count times the sum of squares. *)
Lemma sum_samples_sqr_le (data : Uint8Array) :
  sum_samples data * sum_samples data
  <= Z.of_nat (length data) * sum_squares data.
Proof.
  induction data as [|x t IH].
  - unfold sum_squares. simpl. lia.
  - rewrite sum_squares_cons. cbn [sum_samples fold_right length].
    fold (sum_samples t). rewrite Nat2Z.inj_succ.
    pose proof (sum_samples_shifted_squares t (byteZ x)). nia.
Qed.

Lemma sum_samples_nonneg (data : Uint8Array) : 0 <= sum_samples data.
Proof.
  induction data as [|x t IH]; [simpl; lia|].
  cbn [sum_samples fold_right]. fold (sum_samples t).
  pose proof (byteZ_range x). lia.
Qed.

(** X13.  The overall level is never below the level of the band that
    spans the whole frame: the root of the mean square dominates the mean.
    So a frame with a few loud bins has a higher overall level than its
    average magnitude. *)
Theorem overall_at_least_mean_level (data : Uint8Array) :
  data <> [] ->
  exists overall mean,
    calculateOverallLevel data = Some overall
    /\ calculateBandLevel data (0, Z.of_nat (length data)) = Some mean
    /\ (Q2R mean <= overall)%R.
Proof.
  intro Hne.
  rewrite (calculateOverallLevel_nonempty data Hne).
  rewrite calculateBandLevel_closed by lia.
  assert (Hlen : 0 < Z.of_nat (length data))
    by (destruct data; [contradiction | simpl; lia]).
  rewrite Z.sub_0_r.
  destruct (Z.ltb_spec 0 (Z.of_nat (length data))); [|lia].
  rewrite Nat2Z.id, padded_sum_whole.
  eexists. eexists. split; [reflexivity|]. split; [reflexivity|].
  pose proof (sum_samples_sqr_le data) as Hcs. apply IZR_le in Hcs.
  rewrite !mult_IZR in Hcs.
  pose proof (sum_samples_nonneg data) as Hs0. apply IZR_le in Hs0.
  pose proof (length_pos_IZR data Hne) as HL.
  set (S := IZR (sum_samples data)) in *.
  set (Q := IZR (sum_squares data)) in *.
  set (L := IZR (Z.of_nat (length data))) in *.
  assert (HQ : Q2R (inject_Z (sum_samples data) / inject_Z (Z.of_nat (length data))
                    / inject_Z 255) = (S / L / 255)%R).
  { rewrite !Qreals.Q2R_div.
    - unfold Q2R, inject_Z. simpl. subst S L. field. lra.
    - unfold Qeq, inject_Z. simpl. lia.
    - discriminate. }
  rewrite HQ.
  apply Rmult_le_compat_r; [lra|].
  assert (Hm0 : (0 <= S / L)%R).
  { apply Rmult_le_pos; [exact Hs0|]. left. apply Rinv_0_lt_compat. exact HL. }
  rewrite <- (sqrt_square (S / L)) by exact Hm0.
  apply sqrt_le_1_alt.
  apply (Rmult_le_reg_r (L * L)); [nra|].
  replace (S / L * (S / L) * (L * L))%R with (S * S)%R by (field; lra).
  replace (Q / L * (L * L))%R with (L * Q)%R by (field; lra).
  exact Hcs.
Qed.

Lemma overall_at_least_mean_level_witness :
  [Byte.xff; Byte.x00; Byte.x00; Byte.x00] <> []
  /\ exists overall mean,
       calculateOverallLevel [Byte.xff; Byte.x00; Byte.x00; Byte.x00] = Some overall
       /\ calculateBandLevel [Byte.xff; Byte.x00; Byte.x00; Byte.x00] (0, 4) = Some mean
       /\ (Q2R mean <= overall)%R.
Proof.
  assert (H : [Byte.xff; Byte.x00; Byte.x00; Byte.x00] <> []) by discriminate.
  split; [exact H|].
  exact (overall_at_least_mean_level [Byte.xff; Byte.x00; Byte.x00; Byte.x00] H).
Defined.

End AudioAnalyzer.

(* ================================================================== *)
(** * VisualizerEngine *)
(* ================================================================== *)

Module VisualizerEngine.

Local Open Scope R_scope.

(** [THREE.Vector3], and three consecutive floats of a [Float32Array]. *)
Record Vector3 := vec3 { x : R; y : R; z : R }.

Definition multiplyScalar (v : Vector3) (s : R) : Vector3 :=
  vec3 (x v * s) (y v * s) (z v * s).

(** [Math.sqrt(px * px + py * py + pz * pz)] *)
Definition distance (p : Vector3) : R :=
  sqrt (x p * x p + y p * y p + z p * z p).

(** [interface VisualizerConfig] *)
Record VisualizerConfig := mkConfig {
  geometrySegments : Z;
  particleCount : Z;
  morphingIntensity : R;
  colorSaturation : R;
  enableWireframe : bool
}.

(** [Partial<VisualizerConfig>]: a field is present or absent. *)
Record PartialConfig := mkPartial {
  geometrySegments' : option Z;
  particleCount' : option Z;
  morphingIntensity' : option R;
  colorSaturation' : option R;
  enableWireframe' : option bool
}.

(** The four levels of [AudioFrequencyData] the engine reads, as numbers. *)
Record AudioLevels := mkAudio {
  bassLevel : R;
  midLevel : R;
  trebleLevel : R;
  overallLevel : R
}.

(** One particle: its three floats in [particlePositions] and its three
    floats in [particleVelocities].  Both arrays are allocated together with
    [particleCount * 3] elements, and the geometry's position attribute wraps
    [particlePositions] itself, so [positionArray] in [updateParticleSystem]
    is that same array. *)
Record Particle := mkParticle {
  position : Vector3;
  velocity : Vector3
}.

(** The fields of the engine that the update methods read and write.
    [originalVertices] is the copy of the mesh positions taken in
    [setupMainGeometry]; [positionArray] is the mesh's live position array. *)
Record Engine := mkEngine {
  config : VisualizerConfig;
  originalVertices : list Vector3;
  positionArray : list Vector3;
  particles : list Particle;
  isAnimating : bool
}.

(** [{ ...config, ...newConfig }] *)
Definition spread (c : VisualizerConfig) (n : PartialConfig) : VisualizerConfig :=
  mkConfig
    (match geometrySegments' n with Some v => v | None => geometrySegments c end)
    (match particleCount' n with Some v => v | None => particleCount c end)
    (match morphingIntensity' n with Some v => v | None => morphingIntensity c end)
    (match colorSaturation' n with Some v => v | None => colorSaturation c end)
    (match enableWireframe' n with Some v => v | None => enableWireframe c end).

(** [updateConfig(newConfig)] *)
Definition updateConfig (newConfig : PartialConfig) (e : Engine) : Engine :=
  mkEngine (spread (config e) newConfig) (originalVertices e)
    (positionArray e) (particles e) (isAnimating e).

(** [getParticleCount()] *)
Definition getParticleCount (e : Engine) : Z := particleCount (config e).

(** [getVertexCount()]: the count of the position attribute. *)
Definition getVertexCount (e : Engine) : nat := length (positionArray e).

(** ** Mesh morphing *)

(** The scalar computed for vertex [vertexIndex] of [total] vertices in the
    body of the loop of [updateGeometryMorphing]. *)
Definition displacement (c : VisualizerConfig) (audioData : AudioLevels)
    (time : R) (vertexIndex total : nat) : R :=
  let bassIntensity := bassLevel audioData * morphingIntensity c in
  let midIntensity := midLevel audioData * morphingIntensity c in
  let trebleIntensity := trebleLevel audioData * morphingIntensity c in
  let normalizedIndex := INR vertexIndex / INR total in
  let displacement := 1 in
  let displacement :=
    if Rlt_dec normalizedIndex 0.33 then displacement + bassIntensity * 0.5
    else if Rlt_dec normalizedIndex 0.66 then displacement + midIntensity * 0.3
    else displacement + trebleIntensity * 0.4 in
  let timeOffset := time * 2 + INR vertexIndex * 0.1 in
  displacement + sin timeOffset * overallLevel audioData * 0.1.

(** The loop over the vertices, from vertex [vertexIndex] on. *)
Fixpoint morph_from (c : VisualizerConfig) (audioData : AudioLevels) (time : R)
    (vertexIndex total : nat) (original : list Vector3) : list Vector3 :=
  match original with
  | [] => []
  | originalVertex :: rest =>
      multiplyScalar originalVertex (displacement c audioData time vertexIndex total)
      :: morph_from c audioData time (S vertexIndex) total rest
  end.

(** [updateGeometryMorphing(audioData, time)]: every vertex of the position
    array is overwritten from the vertex of [originalVertices] with the same
    index; the two arrays have the same length since [setupMainGeometry]. *)
Definition updateGeometryMorphing (audioData : AudioLevels) (time : R)
    (e : Engine) : Engine :=
  mkEngine (config e) (originalVertices e)
    (morph_from (config e) audioData time 0 (length (originalVertices e))
       (originalVertices e))
    (particles e) (isAnimating e).

(** ** Particles *)

Section Random.

(** The values [Math.random()] returns, in the order of the calls. *)
Variable rng : nat -> R.

(** A computation that calls [Math.random()]: from the number of calls made
    so far to a result and the number of calls made after it. *)
Definition Rand (A : Type) : Type := nat -> A * nat.

Definition ret {A : Type} (a : A) : Rand A := fun k => (a, k).

Definition bind {A B : Type} (m : Rand A) (f : A -> Rand B) : Rand B :=
  fun k => let (a, k') := m k in f a k'.

Notation "x <- m ;; f" := (bind m (fun x => f))
  (at level 61, m at next level, right associativity).

Definition Math_random : Rand R := fun k => (rng k, S k).

(** The point at radius [radius] with angles [theta] and [phi]. *)
Definition spherical (radius theta phi : R) : Vector3 :=
  vec3 (radius * sin phi * cos theta)
       (radius * sin phi * sin theta)
       (radius * cos phi).

(** The velocity after the random force and the damping. *)
Definition integrate_velocity (audioData : AudioLevels) (deltaTime : R)
    (v : Vector3) (r1 r2 r3 : R) : Vector3 :=
  let audioForce := overallLevel audioData * 0.1 in
  vec3 ((x v + (r1 - 0.5) * audioForce * deltaTime) * 0.99)
       ((y v + (r2 - 0.5) * audioForce * deltaTime) * 0.99)
       ((z v + (r3 - 0.5) * audioForce * deltaTime) * 0.99).

Definition translate (p v : Vector3) : Vector3 :=
  vec3 (x p + x v) (y p + y v) (z p + z v).

(** The body of the loop of [updateParticleSystem] for one particle, in
    exact arithmetic; [VisualizerEngineRounded] below repeats it with the
    roundings of the code. *)
Definition updateParticle (audioData : AudioLevels) (deltaTime : R)
    (p : Particle) : Rand Particle :=
  r1 <- Math_random ;;
  r2 <- Math_random ;;
  r3 <- Math_random ;;
  let v := integrate_velocity audioData deltaTime (velocity p) r1 r2 r3 in
  let moved := translate (position p) v in
  if Rlt_dec 8 (distance moved) then
    u1 <- Math_random ;;
    u2 <- Math_random ;;
    u3 <- Math_random ;;
    let resetRadius := 3 + u1 in
    let theta := u2 * PI * 2 in
    let phi := acos (2 * u3 - 1) in
    ret (mkParticle (spherical resetRadius theta phi) v)
  else ret (mkParticle moved v).

(** [for (let i = 0; i < this.config.particleCount; i++)] over the
    particles in order.  An index past the end of the arrays reads
    [undefined] and writes nothing: such an iteration only makes its three
    calls of [Math.random()]. *)
Fixpoint particle_loop (audioData : AudioLevels) (deltaTime : R)
    (count : nat) (ps : list Particle) : Rand (list Particle) :=
  match count with
  | O => ret ps
  | S count' =>
      match ps with
      | [] =>
          _ <- Math_random ;; _ <- Math_random ;; _ <- Math_random ;;
          particle_loop audioData deltaTime count' []
      | p :: rest =>
          p' <- updateParticle audioData deltaTime p ;;
          rest' <- particle_loop audioData deltaTime count' rest ;;
          ret (p' :: rest')
      end
  end.

(** [updateParticleSystem(audioData, deltaTime)], positions and velocities. *)
Definition updateParticleSystem (audioData : AudioLevels) (deltaTime : R)
    (e : Engine) : Rand Engine :=
  ps <- particle_loop audioData deltaTime
          (Z.to_nat (particleCount (config e))) (particles e) ;;
  ret (mkEngine (config e) (originalVertices e) (positionArray e) ps
         (isAnimating e)).

(** One particle of [setupParticleSystem]: position, velocity, then the
    draws for its colour (two) and its size (one).  The objects three.js
    creates around the loop draw further values for their identifiers;
    these are not counted, and nothing below depends on where in the stream
    a computation starts. *)
Definition setupParticle : Rand Particle :=
  a <- Math_random ;;
  b <- Math_random ;;
  c <- Math_random ;;
  let radius := 3 + a * 2 in
  let theta := b * PI * 2 in
  let phi := acos (2 * c - 1) in
  v1 <- Math_random ;;
  v2 <- Math_random ;;
  v3 <- Math_random ;;
  _ <- Math_random ;; _ <- Math_random ;; _ <- Math_random ;;
  ret (mkParticle (spherical radius theta phi)
         (vec3 ((v1 - 0.5) * 0.02) ((v2 - 0.5) * 0.02)
               ((v3 - 0.5) * 0.02))).

(** [setupParticleSystem]: [particleCount] fresh particles. *)
Fixpoint setupParticleSystem (count : nat) : Rand (list Particle) :=
  match count with
  | O => ret []
  | S count' =>
      p <- setupParticle ;;
      rest <- setupParticleSystem count' ;;
      ret (p :: rest)
  end.

(** The constructor, from the merged configuration and the vertices the
    icosahedron geometry was built with. *)
Definition construct (c : VisualizerConfig) (geometry : list Vector3) : Rand Engine :=
  ps <- setupParticleSystem (Z.to_nat (particleCount c)) ;;
  ret (mkEngine c geometry geometry ps false).

(** [updateVisualization(audioData)], with the clock's [getDelta()] and
    [getElapsedTime()] as [deltaTime] and [elapsedTime]. *)
Definition updateVisualization (audioData : AudioLevels)
    (deltaTime elapsedTime : R) (e : Engine) : Rand Engine :=
  if isAnimating e then
    updateParticleSystem audioData deltaTime
      (updateGeometryMorphing audioData elapsedTime e)
  else ret e.

End Random.

(** [toggleWireframe()], as far as the configuration goes. *)
Definition toggleWireframe (e : Engine) : Engine :=
  mkEngine
    (mkConfig (geometrySegments (config e)) (particleCount (config e))
       (morphingIntensity (config e)) (colorSaturation (config e))
       (negb (enableWireframe (config e))))
    (originalVertices e) (positionArray e) (particles e) (isAnimating e).

Definition startAnimation (e : Engine) : Engine :=
  mkEngine (config e) (originalVertices e) (positionArray e) (particles e) true.

Definition stopAnimation (e : Engine) : Engine :=
  mkEngine (config e) (originalVertices e) (positionArray e) (particles e) false.

(** ** Mesh morphing: what one update writes *)

(** The region term, in the words of the specification: one band for each
    third of the normalized index. *)
Definition regionTerm (c : VisualizerConfig) (audioData : AudioLevels) (u : R) : R :=
  if Rlt_dec u 0.33 then bassLevel audioData * morphingIntensity c * 0.5
  else if Rlt_dec u 0.66 then midLevel audioData * morphingIntensity c * 0.3
  else trebleLevel audioData * morphingIntensity c * 0.4.

(** The displacement as the specification states it, with the ripple's
    phase taken from the normalized index [u]. *)
Definition claimed_displacement (c : VisualizerConfig) (audioData : AudioLevels)
    (elapsed u : R) : R :=
  1 + regionTerm c audioData u
  + sin (2 * elapsed + u * 10) * overallLevel audioData * 0.1.

Definition origin : Vector3 := vec3 0 0 0.

Lemma length_morph_from c audioData time i total original :
  length (morph_from c audioData time i total original) = length original.
Proof.
  revert i. induction original as [|v rest IH]; intro i; simpl;
    [reflexivity | rewrite IH; reflexivity].
Qed.

Lemma nth_morph_from c audioData time total original :
  forall i k,
    (k < length original)%nat ->
    nth k (morph_from c audioData time i total original) origin
    = multiplyScalar (nth k original origin)
        (displacement c audioData time (i + k) total).
Proof.
  induction original as [|v rest IH]; intros i k Hk; simpl in Hk; [lia|].
  destruct k as [|k]; cbn [morph_from nth].
  - rewrite Nat.add_0_r. reflexivity.
  - rewrite IH by lia. do 2 f_equal. lia.
Qed.

Lemma displacement_region c audioData time k total :
  displacement c audioData time k total
  = 1 + regionTerm c audioData (INR k / INR total)
    + sin (2 * time + INR k * 0.1) * overallLevel audioData * 0.1.
Proof.
  unfold displacement, regionTerm.
  replace (time * 2 + INR k * 0.1) with (2 * time + INR k * 0.1) by ring.
  destruct (Rlt_dec (INR k / INR total) 0.33);
    [|destruct (Rlt_dec (INR k / INR total) 0.66)]; ring.
Qed.

Lemma regionTerm_cases c audioData u :
  (u < 0.33 -> regionTerm c audioData u
               = bassLevel audioData * morphingIntensity c * 0.5)
  /\ (0.33 <= u < 0.66 -> regionTerm c audioData u
                          = midLevel audioData * morphingIntensity c * 0.3)
  /\ (0.66 <= u -> regionTerm c audioData u
                   = trebleLevel audioData * morphingIntensity c * 0.4).
Proof.
  unfold regionTerm.
  destruct (Rlt_dec u 0.33); [|destruct (Rlt_dec u 0.66)];
    repeat split; intros; try reflexivity; lra.
Qed.

Lemma PI_gt_3 : 3 < PI.
Proof. pose proof PI2_3_2. lra. Qed.

(** C2, the claim as stated fails: on a mesh of 60 vertices (an icosahedron
    without subdivision), with silence in the three bands, overall level 1
    and elapsed time 0, vertex 30 (normalized index 0.5) is pushed outwards
    by the code, its ripple phase being 30 * 0.1 = 3, while the stated phase
    0.5 * 10 = 5 would pull it inwards. *)
Lemma ripple_phase_is_not_normalized_index :
  let c := mkConfig 0 0 1 0.8 false in
  let audioData := mkAudio 0 0 0 1 in
  let mesh := repeat (vec3 1.5 0 0) 60 in
  let e := mkEngine c mesh mesh [] true in
  let written := nth 30 (positionArray (updateGeometryMorphing audioData 0 e)) origin in
  let stated := multiplyScalar (nth 30 mesh origin)
                  (claimed_displacement c audioData 0 (INR 30 / INR 60)) in
  x stated < 1.5 /\ 1.5 < x written.
Proof.
  intros c audioData mesh e written stated.
  assert (Hu : INR 30 / INR 60 = 0.5) by (rewrite !INR_IZR_INZ; simpl; lra).
  assert (Hk : INR 30 * 0.1 = 3) by (rewrite INR_IZR_INZ; simpl; lra).
  pose proof PI_gt_3 as Hpi3. pose proof PI_4 as Hpi4.
  assert (Hs3 : 0 < sin 3) by (apply sin_gt_0; lra).
  assert (Hs5 : sin 5 < 0) by (apply sin_lt_0; lra).
  split.
  - subst stated. unfold claimed_displacement, regionTerm. rewrite Hu.
    destruct (Rlt_dec 0.5 0.33); [lra|]. destruct (Rlt_dec 0.5 0.66); [|lra].
    replace (2 * 0 + 0.5 * 10) with 5 by lra.
    change (nth 30 mesh origin) with (vec3 1.5 0 0).
    cbn [multiplyScalar x midLevel overallLevel morphingIntensity audioData c].
    nra.
  - subst written. unfold updateGeometryMorphing. cbn [positionArray originalVertices e].
    rewrite nth_morph_from by (subst mesh; rewrite repeat_length; lia).
    rewrite displacement_region. cbn [Nat.add].
    replace (length mesh) with 60%nat by (subst mesh; rewrite repeat_length; reflexivity).
    rewrite Hu, Hk. unfold regionTerm.
    destruct (Rlt_dec 0.5 0.33); [lra|]. destruct (Rlt_dec 0.5 0.66); [|lra].
    replace (2 * 0 + 3) with 3 by lra.
    change (nth 30 mesh origin) with (vec3 1.5 0 0).
    cbn [multiplyScalar x midLevel overallLevel morphingIntensity audioData c config].
    nra.
Qed.

(** C2, amended.  Every vertex [k] of the mesh is written as its base
    position scaled by [1 + regionTerm + sin(2*elapsed + k*0.1) * overall * 0.1]:
    the ripple's phase advances by 0.1 per vertex index, not by ten times the
    normalized index.  The region term is bass*intensity*0.5 for a normalized
    index below 0.33, mid*intensity*0.3 from 0.33 to below 0.66, and
    treble*intensity*0.4 from 0.66 on; the base positions are left as they
    were. *)
Theorem updateGeometryMorphing_vertex (audioData : AudioLevels) (elapsed : R)
    (e : Engine) (k : nat) :
  (k < length (originalVertices e))%nat ->
  let u := INR k / INR (length (originalVertices e)) in
  let intensity := morphingIntensity (config e) in
  let e' := updateGeometryMorphing audioData elapsed e in
  exists region,
    nth k (positionArray e') origin
    = multiplyScalar (nth k (originalVertices e) origin)
        (1 + region + sin (2 * elapsed + INR k * 0.1) * overallLevel audioData * 0.1)
    /\ (u < 0.33 -> region = bassLevel audioData * intensity * 0.5)
    /\ (0.33 <= u < 0.66 -> region = midLevel audioData * intensity * 0.3)
    /\ (0.66 <= u -> region = trebleLevel audioData * intensity * 0.4)
    /\ 0 <= u < 1
    /\ originalVertices e' = originalVertices e
    /\ length (positionArray e') = length (originalVertices e).
Proof.
  intros Hk u intensity e'.
  exists (regionTerm (config e) audioData u).
  split; [|split; [|split; [|split; [|split; [|split]]]]].
  - subst e'. unfold updateGeometryMorphing. cbn [positionArray].
    rewrite nth_morph_from by exact Hk.
    rewrite displacement_region. reflexivity.
  - apply regionTerm_cases.
  - apply regionTerm_cases.
  - apply regionTerm_cases.
  - subst u.
    assert (Hn : 0 < INR (length (originalVertices e))) by (apply lt_0_INR; lia).
    assert (Hkn : INR k < INR (length (originalVertices e))) by (apply lt_INR; exact Hk).
    pose proof (pos_INR k) as Hk0.
    split.
    + apply Rmult_le_pos; [exact Hk0|]. left. apply Rinv_0_lt_compat. exact Hn.
    + apply (Rmult_lt_reg_r (INR (length (originalVertices e)))); [exact Hn|].
      unfold Rdiv. rewrite Rmult_assoc, Rinv_l, Rmult_1_r, Rmult_1_l by lra.
      exact Hkn.
  - reflexivity.
  - subst e'. unfold updateGeometryMorphing. cbn [positionArray].
    apply length_morph_from.
Qed.

Lemma updateGeometryMorphing_vertex_witness :
  let e := mkEngine (mkConfig 0 0 1 0.8 false)
             [vec3 1.5 0 0; vec3 0 1.5 0; vec3 0 0 1.5]
             [vec3 1.5 0 0; vec3 0 1.5 0; vec3 0 0 1.5] [] true in
  (1 < length (originalVertices e))%nat
  /\ length (positionArray (updateGeometryMorphing (mkAudio 1 0.5 0 1) 0 e)) = 3%nat.
Proof.
  cbv zeta.
  assert (H : (1 < length (originalVertices
                  (mkEngine (mkConfig 0 0 1 0.8 false)
                     [vec3 1.5 0 0; vec3 0 1.5 0; vec3 0 0 1.5]
                     [vec3 1.5 0 0; vec3 0 1.5 0; vec3 0 0 1.5] [] true)))%nat)
    by (simpl; lia).
  split; [exact H|].
  destruct (updateGeometryMorphing_vertex (mkAudio 1 0.5 0 1) 0 _ 1%nat H)
    as (region & _ & _ & _ & _ & _ & _ & Hlen).
  exact Hlen.
Defined.

(** ** Particles: distances and the loop *)

Lemma sum_squares_nonneg (a b c : R) : 0 <= a * a + b * b + c * c.
Proof. nra. Qed.

Lemma distance_nonneg (p : Vector3) : 0 <= distance p.
Proof. apply sqrt_pos. Qed.

Lemma distance_sqr (p : Vector3) :
  distance p * distance p = x p * x p + y p * y p + z p * z p.
Proof. apply sqrt_sqrt, sum_squares_nonneg. Qed.

Section RandomFacts.

Variable rng : nat -> R.
Hypothesis rng_range : forall n, 0 <= rng n < 1.


Lemma particle_loop_empty audioData deltaTime count k :
  fst (particle_loop rng audioData deltaTime count [] k) = [].
Proof.
  revert k. induction count as [|count IH]; intro k; [reflexivity|].
  cbn [particle_loop]. unfold bind, Math_random. apply IH.
Qed.

Lemma particle_loop_cons audioData deltaTime count p rest k :
  fst (particle_loop rng audioData deltaTime (S count) (p :: rest) k)
  = fst (updateParticle rng audioData deltaTime p k)
    :: fst (particle_loop rng audioData deltaTime count rest
              (snd (updateParticle rng audioData deltaTime p k))).
Proof.
  cbn [particle_loop]. unfold bind at 1.
  destruct (updateParticle rng audioData deltaTime p k) as [p' k'].
  unfold bind at 1. cbn [fst snd].
  destruct (particle_loop rng audioData deltaTime count rest k') as [rest' k''].
  reflexivity.
Qed.

Lemma length_particle_loop audioData deltaTime count ps :
  forall k,
    length (fst (particle_loop rng audioData deltaTime count ps k)) = length ps.
Proof.
  revert ps. induction count as [|count IH]; intros ps k; [reflexivity|].
  destruct ps as [|p rest].
  - rewrite particle_loop_empty. reflexivity.
  - rewrite particle_loop_cons. cbn [length]. rewrite IH. reflexivity.
Qed.

End RandomFacts.


Section ParticleClaims.

Variable rng : nat -> R.
Hypothesis rng_range : forall n, 0 <= rng n < 1.

Lemma setupParticleSystem_cons count k :
  fst (setupParticleSystem rng (S count) k)
  = fst (setupParticle rng k)
    :: fst (setupParticleSystem rng count (snd (setupParticle rng k))).
Proof.
  cbn [setupParticleSystem]. unfold bind at 1.
  destruct (setupParticle rng k) as [p k'].
  unfold bind at 1. cbn [fst snd].
  destruct (setupParticleSystem rng count k') as [rest k''].
  reflexivity.
Qed.

Lemma particles_updateParticleSystem audioData deltaTime e k :
  particles (fst (updateParticleSystem rng audioData deltaTime e k))
  = fst (particle_loop rng audioData deltaTime
           (Z.to_nat (particleCount (config e))) (particles e) k).
Proof.
  unfold updateParticleSystem, bind, ret.
  destruct (particle_loop rng audioData deltaTime _ (particles e) k).
  reflexivity.
Qed.

Lemma particles_construct c geometry k :
  particles (fst (construct rng c geometry k))
  = fst (setupParticleSystem rng (Z.to_nat (particleCount c)) k).
Proof.
  unfold construct, bind, ret.
  destruct (setupParticleSystem rng _ k). reflexivity.
Qed.

End ParticleClaims.

(** A random stream that always answers 0.5. *)
Definition rng_half : nat -> R := fun _ => 0.5.



(** ** Configuration updates and buffer sizes *)

Lemma length_setupParticleSystem rng count :
  forall k, length (fst (setupParticleSystem rng count k)) = count.
Proof.
  induction count as [|count IH]; intro k; [reflexivity|].
  rewrite setupParticleSystem_cons. cbn [length]. rewrite IH. reflexivity.
Qed.

(** C5, the claim as stated fails: on an engine constructed with 1000
    particles, [updateConfig({ particleCount: 50 })] makes
    [getParticleCount()] answer 50, but the particle buffers are the ones
    allocated by the constructor and still hold 1000 particles, and the mesh
    is not rebuilt. *)
Lemma updateConfig_keeps_buffers :
  let e := fst (construct rng_half (mkConfig 32 1000 1 0.8 false)
                  [vec3 1.5 0 0; vec3 0 1.5 0; vec3 0 0 1.5] 0%nat) in
  let e' := updateConfig (mkPartial (Some 8%Z) (Some 50%Z) None None None) e in
  getParticleCount e = 1000%Z
  /\ length (particles e) = 1000%nat
  /\ getParticleCount e' = 50%Z
  /\ length (particles e') = 1000%nat
  /\ length (particles e') <> 50%nat
  /\ particles e' = particles e
  /\ originalVertices e' = originalVertices e
  /\ getVertexCount e' = getVertexCount e.
Proof.
  intros e e'.
  assert (Hlen : length (particles e) = 1000%nat).
  { subst e. rewrite particles_construct. apply length_setupParticleSystem. }
  assert (Hcount : getParticleCount e = 1000%Z).
  { subst e. unfold getParticleCount, construct, bind, ret.
    destruct (setupParticleSystem rng_half _ 0%nat). reflexivity. }
  split; [exact Hcount|]. split; [exact Hlen|].
  split; [reflexivity|].
  change (particles e') with (particles e).
  split; [exact Hlen|]. split; [rewrite Hlen; lia|].
  repeat split.
Qed.

(** C5, amended.  [updateConfig] replaces the configuration and nothing
    else: afterwards [getParticleCount()] answers the new [particleCount],
    while the particle buffers, the mesh and its base positions are the ones
    the constructor allocated.  Buffer sizes are fixed by the constructor: a
    frame update changes none of them either. *)
Theorem updateConfig_only_config (rng : nat -> R) (newConfig : PartialConfig)
    (e : Engine) :
  let e' := updateConfig newConfig e in
  getParticleCount e'
  = match particleCount' newConfig with
    | Some n => n
    | None => getParticleCount e
    end
  /\ particles e' = particles e
  /\ positionArray e' = positionArray e
  /\ originalVertices e' = originalVertices e
  /\ getVertexCount e' = getVertexCount e
  /\ (forall c geometry k,
        length (particles (fst (construct rng c geometry k)))
        = Z.to_nat (particleCount c))
  /\ (forall audioData deltaTime elapsedTime k,
        let e2 := fst (updateVisualization rng audioData deltaTime elapsedTime e k) in
        length (particles e2) = length (particles e)
        /\ length (originalVertices e2) = length (originalVertices e)
        /\ (length (positionArray e) = length (originalVertices e) ->
            length (positionArray e2) = length (positionArray e))).
Proof.
  intro e'. subst e'.
  split; [reflexivity|]. split; [reflexivity|]. split; [reflexivity|].
  split; [reflexivity|]. split; [reflexivity|]. split.
  - intros c geometry k. rewrite particles_construct.
    apply length_setupParticleSystem.
  - intros audioData deltaTime elapsedTime k e2. subst e2.
    unfold updateVisualization. destruct (isAnimating e).
    + rewrite particles_updateParticleSystem.
      unfold updateParticleSystem, bind, ret.
      destruct (particle_loop rng audioData deltaTime _ _ k) as [ps k'] eqn:E.
      cbn [fst originalVertices positionArray updateGeometryMorphing config particles] in *.
      split; [|split].
      * pose proof (length_particle_loop rng audioData deltaTime
                      (Z.to_nat (particleCount (config e))) (particles e) k) as H.
        rewrite E in H. exact H.
      * reflexivity.
      * intro H. rewrite length_morph_from. symmetry. exact H.
    + cbn [ret fst]. repeat split; intros; reflexivity.
Qed.

(* ------------------------------------------------------------------ *)
(** ** The rest of a frame: scale factor, materials, camera, velocities *)
(* ------------------------------------------------------------------ *)








(** [updateCameraMovement(audioData, time)]: the camera position. *)
Definition updateCameraMovement (audioData : AudioLevels) (time : R) : Vector3 :=
  let rotationSpeed := 0.1 + overallLevel audioData * 0.2 in
  vec3 (cos (time * rotationSpeed) * 5)
       (sin (time * rotationSpeed * 0.5) * 2)
       (sin (time * rotationSpeed) * 5).

(** [handleSensitivityChange] of the UI controller:
    [updateConfig({ morphingIntensity: parseInt(slider.value) / 5 })]. *)
Definition handleSensitivityChange (slider : Z) (e : Engine) : Engine :=
  updateConfig (mkPartial None None (Some (IZR slider / 5)) None None) e.






Lemma camera_distance_lower (audioData : AudioLevels) (time : R) :
  5 <= distance (updateCameraMovement audioData time).
Proof.
  unfold updateCameraMovement.
  set (rs := 0.1 + overallLevel audioData * 0.2).
  pose proof (sin2_cos2 (time * rs)) as Hsc. unfold Rsqr in Hsc.
  set (cam := vec3 (cos (time * rs) * 5) (sin (time * rs * 0.5) * 2)
                   (sin (time * rs) * 5)).
  pose proof (distance_sqr cam) as Hsq. cbn [cam x y z] in Hsq.
  pose proof (distance_nonneg cam) as Hn.
  destruct (Rle_lt_dec 5 (distance cam)) as [|Hlt]; [assumption|].
  exfalso. nra.
Qed.

(** X15.  The camera circles the vertical axis at horizontal distance 5
    and height between -2 and 2, whatever the levels and the time: its
    distance from the origin is at least 5 and its square at most 29. *)
Theorem camera_orbit (audioData : AudioLevels) (time : R) :
  let camera := updateCameraMovement audioData time in
  x camera * x camera + z camera * z camera = 25
  /\ -2 <= y camera <= 2
  /\ 5 <= distance camera
  /\ distance camera * distance camera <= 29.
Proof.
  intro camera. subst camera.
  pose proof (camera_distance_lower audioData time) as Hlow.
  unfold updateCameraMovement in *. cbn [x y z].
  set (rotationSpeed := 0.1 + overallLevel audioData * 0.2) in *.
  pose proof (sin2_cos2 (time * rotationSpeed)) as Hsc. unfold Rsqr in Hsc.
  pose proof (SIN_bound (time * rotationSpeed * 0.5)) as Hs.
  set (c := cos (time * rotationSpeed)) in *.
  set (s := sin (time * rotationSpeed)) in *.
  set (h := sin (time * rotationSpeed * 0.5)) in *.
  assert (Hxz : c * 5 * (c * 5) + s * 5 * (s * 5) = 25) by nra.
  split; [exact Hxz|]. split; [lra|].
  assert (Hsq : distance (vec3 (c * 5) (h * 2) (s * 5))
                * distance (vec3 (c * 5) (h * 2) (s * 5))
                = 25 + h * 2 * (h * 2)).
  { rewrite distance_sqr. cbn [x y z]. lra. }
  split; [exact Hlow|]. nra.
Qed.



(** X17.  The sensitivity slider ranges over 1..10; moving it sets the
    morphing intensity to a fifth of its value, between 0.2 and 2, and
    changes nothing else of the engine: the other configuration fields, the
    mesh and the particles stay as they are. *)
Theorem handleSensitivityChange_range (slider : Z) (e : Engine) :
  (1 <= slider <= 10)%Z ->
  let e' := handleSensitivityChange slider e in
  morphingIntensity (config e') = IZR slider / 5
  /\ 0.2 <= morphingIntensity (config e') <= 2
  /\ particleCount (config e') = particleCount (config e)
  /\ geometrySegments (config e') = geometrySegments (config e)
  /\ colorSaturation (config e') = colorSaturation (config e)
  /\ enableWireframe (config e') = enableWireframe (config e)
  /\ particles e' = particles e
  /\ originalVertices e' = originalVertices e
  /\ positionArray e' = positionArray e.
Proof.
  intros [Hlo Hhi] e'. subst e'.
  unfold handleSensitivityChange, updateConfig, spread.
  cbn [config morphingIntensity particleCount geometrySegments colorSaturation
       enableWireframe particles originalVertices positionArray
       morphingIntensity' particleCount' geometrySegments' colorSaturation'
       enableWireframe'].
  apply IZR_le in Hlo, Hhi.
  repeat split; lra.
Qed.

Lemma handleSensitivityChange_range_witness :
  (1 <= 7 <= 10)%Z
  /\ morphingIntensity (config (handleSensitivityChange 7
       (mkEngine (mkConfig 32 1000 1 0.8 false) [] [] [] false))) = IZR 7 / 5.
Proof.
  assert (H : (1 <= 7 <= 10)%Z) by lia.
  split; [exact H|].
  exact (proj1 (handleSensitivityChange_range 7
                  (mkEngine (mkConfig 32 1000 1 0.8 false) [] [] [] false) H)).
Defined.



(** ** Velocities, and the particles a pass does not reach *)

Section ParticleExtras.

Variable rng : nat -> R.
Hypothesis rng_range : forall n, 0 <= rng n < 1.





(** The particles the loop does not reach. *)
Lemma particle_loop_skipn audioData deltaTime count ps :
  forall k,
    skipn count (fst (particle_loop rng audioData deltaTime count ps k))
    = skipn count ps.
Proof.
  revert ps. induction count as [|count IH]; intros ps k; [reflexivity|].
  destruct ps as [|p rest].
  - rewrite particle_loop_empty. reflexivity.
  - rewrite particle_loop_cons. cbn [skipn]. apply IH.
Qed.

(** X20.  A pass reaches the first [particleCount] particles only.  After
    [updateConfig] has lowered [particleCount] below the number of particles
    in the buffers, every later pass leaves the particles from that index on
    exactly where they were, with the velocity they had. *)
Theorem particles_beyond_count_frozen (audioData : AudioLevels) (deltaTime : R)
    (e : Engine) (k : nat) (i : nat) :
  (Z.to_nat (particleCount (config e)) <= i)%nat ->
  nth_error (particles (fst (updateParticleSystem rng audioData deltaTime e k))) i
  = nth_error (particles e) i.
Proof.
  intro Hi. rewrite (particles_updateParticleSystem rng).
  set (count := Z.to_nat (particleCount (config e))) in *.
  pose proof (particle_loop_skipn audioData deltaTime count (particles e) k) as Hs.
  replace i with (count + (i - count))%nat by lia.
  rewrite <- !nth_error_skipn. rewrite Hs. reflexivity.
Qed.

End ParticleExtras.


Lemma particles_beyond_count_frozen_witness :
  let e := updateConfig (mkPartial None (Some 1%Z) None None None)
             (mkEngine (mkConfig 0 2 1 0.8 false) [] []
                [mkParticle (vec3 3 0 0) (vec3 0 0 0);
                 mkParticle (vec3 0 4 0) (vec3 0 0.01 0)] true) in
  (Z.to_nat (particleCount (config e)) <= 1)%nat
  /\ nth_error (particles (fst (updateParticleSystem rng_half (mkAudio 0 0 0 1) 1 e 0%nat))) 1
     = Some (mkParticle (vec3 0 4 0) (vec3 0 0.01 0)).
Proof.
  cbv zeta.
  assert (H : (Z.to_nat (particleCount (config
                 (updateConfig (mkPartial None (Some 1%Z) None None None)
                    (mkEngine (mkConfig 0 2 1 0.8 false) [] []
                       [mkParticle (vec3 3 0 0) (vec3 0 0 0);
                        mkParticle (vec3 0 4 0) (vec3 0 0.01 0)] true)))) <= 1)%nat)
    by (cbn; lia).
  split; [exact H|].
  rewrite (particles_beyond_count_frozen rng_half (mkAudio 0 0 0 1) 1 _ 0%nat 1%nat H).
  reflexivity.
Defined.

End VisualizerEngine.

(* ================================================================== *)
(** * VisualizerEngine: the particle pass with its rounding *)
(* ================================================================== *)

(** [updateParticleSystem] computes in numbers (binary64) and keeps the
    positions and velocities in [Float32Array]s.  This module repeats the
    loop body of [VisualizerEngine] with every operation followed by the
    rounding it has in the code: [rnd] after each operation on numbers and
    for each decimal literal, [fround] at each store into a [Float32Array].
    Two properties of the roundings are used, which rounding to nearest has:
    they are monotone, and they leave integers up to [2 ^ 24] as they are.
    [Math.sin], [Math.cos] and [Math.acos] are the host's approximations; of
    the first two only the range [-1, 1] is used.  Values are finite:
    overflow and NaN are outside this model. *)

Module VisualizerEngineRounded.

Import VisualizerEngine.

Local Open Scope R_scope.

Section Machine.

Variable rnd : R -> R.
Variable fround : R -> R.
Variables Math_sin Math_cos Math_acos : R -> R.

(** The values [Math.random()] returns, in the order of the calls. *)
Variable rng : nat -> R.

Notation "a <- m ;; f" := (bind m (fun a => f))
  (at level 61, m at next level, right associativity).

(** [a + b], [a - b], [a * b], [Math.sqrt(a)] and [Math.PI] *)
Definition add (a b : R) : R := rnd (a + b).
Definition sub (a b : R) : R := rnd (a - b).
Definition mul (a b : R) : R := rnd (a * b).
Definition Math_sqrt (a : R) : R := rnd (sqrt a).
Definition Math_PI : R := rnd PI.

(** The distance the boundary check computes from the stored position. *)
Definition distance64 (p : Vector3) : R :=
  Math_sqrt (add (add (mul (x p) (x p)) (mul (y p) (y p))) (mul (z p) (z p))).

(** One component of the velocity: [+=] of the random force, then
    [*= 0.99], each stored. *)
Definition integrate_component (audioForce deltaTime v r : R) : R :=
  fround (mul (fround (add v (mul (mul (sub r 0.5) audioForce) deltaTime)))
              (rnd 0.99)).

Definition integrate_velocity (audioData : AudioLevels) (deltaTime : R)
    (v : Vector3) (r1 r2 r3 : R) : Vector3 :=
  let audioForce := mul (overallLevel audioData) (rnd 0.1) in
  vec3 (integrate_component audioForce deltaTime (x v) r1)
       (integrate_component audioForce deltaTime (y v) r2)
       (integrate_component audioForce deltaTime (z v) r3).

(** [positionArray[i] += particleVelocities[i]], stored. *)
Definition translate (p v : Vector3) : Vector3 :=
  vec3 (fround (add (x p) (x v))) (fround (add (y p) (y v)))
       (fround (add (z p) (z v))).

(** The three stores of the reset. *)
Definition spherical (radius theta phi : R) : Vector3 :=
  vec3 (fround (mul (mul radius (Math_sin phi)) (Math_cos theta)))
       (fround (mul (mul radius (Math_sin phi)) (Math_sin theta)))
       (fround (mul radius (Math_cos phi))).

(** The body of the loop of [updateParticleSystem] for one particle. *)
Definition updateParticle (audioData : AudioLevels) (deltaTime : R)
    (p : Particle) : Rand Particle :=
  r1 <- Math_random rng ;;
  r2 <- Math_random rng ;;
  r3 <- Math_random rng ;;
  let v := integrate_velocity audioData deltaTime (velocity p) r1 r2 r3 in
  let moved := translate (position p) v in
  if Rlt_dec 8 (distance64 moved) then
    u1 <- Math_random rng ;;
    u2 <- Math_random rng ;;
    u3 <- Math_random rng ;;
    let resetRadius := add 3 u1 in
    let theta := mul (mul u2 Math_PI) 2 in
    let phi := Math_acos (sub (mul 2 u3) 1) in
    ret (mkParticle (spherical resetRadius theta phi) v)
  else ret (mkParticle moved v).

(** The loop over the first [particleCount] particles; an index past the
    end of the arrays only makes its three calls of [Math.random()]. *)
Fixpoint particle_loop (audioData : AudioLevels) (deltaTime : R)
    (count : nat) (ps : list Particle) : Rand (list Particle) :=
  match count with
  | O => ret ps
  | S count' =>
      match ps with
      | [] =>
          _ <- Math_random rng ;; _ <- Math_random rng ;; _ <- Math_random rng ;;
          particle_loop audioData deltaTime count' []
      | p :: rest =>
          p' <- updateParticle audioData deltaTime p ;;
          rest' <- particle_loop audioData deltaTime count' rest ;;
          ret (p' :: rest')
      end
  end.

(** [updateParticleSystem(audioData, deltaTime)], positions and velocities. *)
Definition updateParticleSystem (audioData : AudioLevels) (deltaTime : R)
    (e : Engine) : Rand Engine :=
  ps <- particle_loop audioData deltaTime
          (Z.to_nat (particleCount (config e))) (particles e) ;;
  ret (mkEngine (config e) (originalVertices e) (positionArray e) ps
         (isAnimating e)).


(** ** What is assumed of the roundings, the host and the random stream *)

Hypothesis rnd_monotone : forall a b, a <= b -> rnd a <= rnd b.
Hypothesis rnd_integer :
  forall n : Z, (Z.abs n <= 2 ^ 24)%Z -> rnd (IZR n) = IZR n.
Hypothesis fround_monotone : forall a b, a <= b -> fround a <= fround b.
Hypothesis fround_integer :
  forall n : Z, (Z.abs n <= 2 ^ 24)%Z -> fround (IZR n) = IZR n.
Hypothesis sin_range : forall a, -1 <= Math_sin a <= 1.
Hypothesis cos_range : forall a, -1 <= Math_cos a <= 1.
Hypothesis rng_range : forall n, 0 <= rng n < 1.





















End Machine.

(** With nothing rounded and the exact sine, cosine and arc cosine, the loop
    body is the one of [VisualizerEngine]. *)
Lemma exact_roundings_give_updateParticle (rng : nat -> R)
    (audioData : AudioLevels) (deltaTime : R) (p : Particle) (k : nat) :
  updateParticle (fun a => a) (fun a => a) sin cos acos rng
    audioData deltaTime p k
  = VisualizerEngine.updateParticle rng audioData deltaTime p k.
Proof. reflexivity. Qed.

(** ** A rounding to try the statements on *)







End VisualizerEngineRounded.

(* ================================================================== *)
(** * VisualizerEngine: the reset radius as a number *)
(* ================================================================== *)

Module VisualizerEngineBinary64.

Import Floats.

(** [const resetRadius = 3 + Math.random();] *)
Definition resetRadius (u : float) : float := (3 + u)%float.


End VisualizerEngineBinary64.

(* ================================================================== *)
(** * ObjectPool *)
(* ================================================================== *)

Module ObjectPool.

Section Pool.

(** The pooled objects, [createFn] and [resetFn].  [createFn] is given the
    number of objects created so far, so that two created objects can be
    told apart. *)
Variable T : Type.
Variable createFn : nat -> T.
Variable resetFn : T -> T.

(** The array [pool], first pushed first, and the number of calls of
    [createFn] made so far. *)
Record ObjectPool := mkPool {
  pool : list T;
  created : nat
}.

(** [Array.prototype.pop]: the last element and the rest. *)
Definition pop (l : list T) : option (T * list T) :=
  match rev l with
  | [] => None
  | obj :: rest => Some (obj, rev rest)
  end.

(** The loop of the constructor: [initialSize] pushes of a new object. *)
Fixpoint populate (n : nat) (p : ObjectPool) : ObjectPool :=
  match n with
  | O => p
  | S n' => populate n' (mkPool (pool p ++ [createFn (created p)]) (S (created p)))
  end.

Definition construct (initialSize : nat) : ObjectPool :=
  populate initialSize (mkPool [] 0).

(** [acquire()] *)
Definition acquire (p : ObjectPool) : T * ObjectPool :=
  match pop (pool p) with
  | Some (obj, rest) => (resetFn obj, mkPool rest (created p))
  | None => (createFn (created p), mkPool [] (S (created p)))
  end.

(** [release(obj)] *)
Definition release (p : ObjectPool) (obj : T) : ObjectPool :=
  mkPool (pool p ++ [obj]) (created p).

(** [clear()] *)
Definition clear (p : ObjectPool) : ObjectPool := mkPool [] (created p).

(** [get size()] *)
Definition size (p : ObjectPool) : nat := length (pool p).

(** [n] calls of [acquire]: the objects handed out, first first. *)
Fixpoint acquire_n (n : nat) (p : ObjectPool) : list T * ObjectPool :=
  match n with
  | O => ([], p)
  | S n' =>
      let (obj, p1) := acquire p in
      let (objs, p2) := acquire_n n' p1 in
      (obj :: objs, p2)
  end.

(** The objects of a list released one after the other. *)
Definition release_all (p : ObjectPool) (objs : list T) : ObjectPool :=
  fold_left release objs p.

Lemma pop_app (l : list T) (obj : T) : pop (l ++ [obj]) = Some (obj, l).
Proof.
  unfold pop. rewrite rev_app_distr. cbn [rev app]. rewrite rev_involutive.
  reflexivity.
Qed.

Lemma pop_None (l : list T) : pop l = None -> l = [].
Proof.
  unfold pop. destruct (rev l) eqn:E; [|discriminate].
  intros _. apply (f_equal (@rev T)) in E. rewrite rev_involutive in E. exact E.
Qed.

Lemma pop_Some (l : list T) (obj : T) (rest : list T) :
  pop l = Some (obj, rest) -> l = rest ++ [obj].
Proof.
  unfold pop. destruct (rev l) as [|o r] eqn:E; [discriminate|].
  intro H. injection H as <- <-.
  apply (f_equal (@rev T)) in E. rewrite rev_involutive in E. exact E.
Qed.

Lemma size_populate (n : nat) (p : ObjectPool) :
  size (populate n p) = (size p + n)%nat.
Proof.
  revert p. induction n as [|n IH]; intro p; [unfold size; cbn; lia|].
  cbn [populate]. rewrite IH. unfold size. cbn [pool].
  rewrite length_app. simpl. lia.
Qed.

Lemma size_acquire (p : ObjectPool) : size (snd (acquire p)) = (size p - 1)%nat.
Proof.
  unfold acquire, size. destruct (pop (pool p)) as [[obj rest]|] eqn:E.
  - apply pop_Some in E. rewrite E, length_app. cbn. lia.
  - apply pop_None in E. rewrite E. reflexivity.
Qed.

(** X21.  The pool is a stack.  The constructor leaves [initialSize]
    objects in it; [acquire] after [release] hands out the released object,
    reset, and leaves the pool as it was before the release; [acquire] on an
    empty pool creates a new object and leaves the pool empty; and the size
    goes down by one per [acquire], never below 0. *)
Theorem pool_is_a_stack (p : ObjectPool) (obj : T) (initialSize : nat) :
  size (construct initialSize) = initialSize
  /\ acquire (release p obj) = (resetFn obj, p)
  /\ size (release p obj) = S (size p)
  /\ (size p = 0%nat ->
      acquire p = (createFn (created p), mkPool [] (S (created p))))
  /\ size (snd (acquire p)) = (size p - 1)%nat
  /\ size (clear p) = 0%nat.
Proof.
  split; [|split; [|split; [|split; [|split]]]].
  - unfold construct. rewrite size_populate. reflexivity.
  - unfold acquire, release. cbn [pool created]. rewrite pop_app.
    destruct p. reflexivity.
  - unfold size, release. cbn [pool]. rewrite length_app. simpl. lia.
  - unfold size. intro H. destruct p as [l c]. cbn [pool] in H.
    destruct l; [reflexivity|discriminate].
  - apply size_acquire.
  - reflexivity.
Qed.

Lemma acquire_n_length (n : nat) (p : ObjectPool) :
  length (fst (acquire_n n p)) = n
  /\ size (snd (acquire_n n p)) = (size p - n)%nat.
Proof.
  revert p. induction n as [|n IH]; intro p; [cbn; split; [reflexivity|lia]|].
  cbn [acquire_n].
  pose proof (size_acquire p) as Hs.
  destruct (acquire p) as [obj p1]. cbn [snd] in Hs.
  specialize (IH p1). destruct (acquire_n n p1) as [objs p2].
  cbn [fst snd length] in *. destruct IH as [IH1 IH2]. split; lia.
Qed.

Lemma size_release_all (objs : list T) (p : ObjectPool) :
  size (release_all p objs) = (size p + length objs)%nat.
Proof.
  unfold release_all. revert p.
  induction objs as [|o objs IH]; intro p; [cbn; lia|].
  cbn [fold_left length]. rewrite IH. unfold size, release. cbn [pool].
  rewrite length_app. simpl. lia.
Qed.

(** X22.  Borrowing [n] objects and releasing them again, as every frame
    of the mesh morphing does with two vectors, leaves the pool with the
    larger of its size and [n]: a pool that held at least [n] objects keeps
    its size, a smaller one grows to [n] and stays there. *)
Theorem borrow_and_return_size (n : nat) (p : ObjectPool) :
  let (objs, p1) := acquire_n n p in
  size (release_all p1 objs) = Nat.max (size p) n.
Proof.
  pose proof (acquire_n_length n p) as [H1 H2].
  destruct (acquire_n n p) as [objs p1]. cbn [fst snd] in *.
  rewrite size_release_all. lia.
Qed.

End Pool.

(** ** Vector3Pool *)

(** [new THREE.Vector3()] and [v.set(0, 0, 0)]. *)
Definition zero : VisualizerEngine.Vector3 := VisualizerEngine.vec3 0 0 0.

Definition Vector3Pool := ObjectPool VisualizerEngine.Vector3.

Definition acquireVector3 (p : Vector3Pool) : VisualizerEngine.Vector3 * Vector3Pool :=
  acquire VisualizerEngine.Vector3 (fun _ => zero) (fun _ => zero) p.

(** Whatever vectors were released into a [Vector3Pool], every
    vector it hands out is the zero vector: no coordinates of an earlier use
    come back through the pool. *)
Theorem Vector3Pool_hands_out_zero (p : Vector3Pool) :
  fst (acquireVector3 p) = zero
  /\ forall v, fst (acquireVector3 (release VisualizerEngine.Vector3 p v)) = zero.
Proof.
  split.
  - unfold acquireVector3, acquire. destruct (pop _ (pool _ p)) as [[obj rest]|];
      reflexivity.
  - intro v. unfold acquireVector3, acquire, release. cbn [pool].
    rewrite pop_app. reflexivity.
Qed.

End ObjectPool.

(* ================================================================== *)
(** * EventBus *)
(* ================================================================== *)

Module EventBus.

(** A callback is a function object; [indexOf] compares callbacks by
    reference, so a callback is represented by its identity. *)
Definition EventCallback := nat.

(** [Map<string, EventCallback[]>]: the array registered for an event name,
    if the map has the key. *)
Definition EventBus := string -> option (list EventCallback).

(** [new Map()] and [clear()]. *)
Definition empty : EventBus := fun _ => None.

Definition clear (bus : EventBus) : EventBus := empty.

(** [events.set(event, callbacks)] *)
Definition set (bus : EventBus) (event : string) (callbacks : list EventCallback)
    : EventBus :=
  fun e => if String.eqb e event then Some callbacks else bus e.

(** [on(event, callback)] *)
Definition on (bus : EventBus) (event : string) (callback : EventCallback)
    : EventBus :=
  let bus1 := match bus event with
              | Some _ => bus
              | None => set bus event []
              end in
  match bus1 event with
  | Some callbacks => set bus1 event (callbacks ++ [callback])
  | None => bus1
  end.

(** [callbacks.indexOf(callback)] followed by [splice(index, 1)] when the
    index is not -1: the first occurrence is removed. *)
Fixpoint remove_first (callback : EventCallback) (callbacks : list EventCallback)
    : list EventCallback :=
  match callbacks with
  | [] => []
  | c :: rest => if Nat.eqb c callback then rest else c :: remove_first callback rest
  end.

(** [off(event, callback)] *)
Definition off (bus : EventBus) (event : string) (callback : EventCallback)
    : EventBus :=
  match bus event with
  | Some callbacks => set bus event (remove_first callback callbacks)
  | None => bus
  end.

(** [emit(event, data)]: the callbacks invoked, in order.  Each call sits in
    its own [try], so a callback that throws is logged and the next one is
    still called; callbacks are taken not to change the bus while it emits. *)
Definition emit (bus : EventBus) (event : string) : list EventCallback :=
  match bus event with
  | Some callbacks => callbacks
  | None => []
  end.

Lemma set_same (bus : EventBus) (event : string) (callbacks : list EventCallback) :
  set bus event callbacks event = Some callbacks.
Proof. unfold set. rewrite String.eqb_refl. reflexivity. Qed.

Lemma emit_set_same (bus : EventBus) (event : string) (callbacks : list EventCallback) :
  emit (set bus event callbacks) event = callbacks.
Proof. unfold emit, set. rewrite String.eqb_refl. reflexivity. Qed.

Lemma emit_set_other (bus : EventBus) (event other : string)
    (callbacks : list EventCallback) :
  other <> event -> emit (set bus event callbacks) other = emit bus other.
Proof.
  intro H. unfold emit, set. apply String.eqb_neq in H. rewrite H. reflexivity.
Qed.

Lemma emit_on_same (bus : EventBus) (event : string) (callback : EventCallback) :
  emit (on bus event callback) event = emit bus event ++ [callback].
Proof.
  unfold on. destruct (bus event) as [callbacks|] eqn:E.
  - rewrite E, emit_set_same. unfold emit. rewrite E. reflexivity.
  - rewrite set_same, emit_set_same. unfold emit. rewrite E. reflexivity.
Qed.

Lemma emit_on_other (bus : EventBus) (event other : string) (callback : EventCallback) :
  other <> event -> emit (on bus event callback) other = emit bus other.
Proof.
  intro H. unfold on. destruct (bus event) as [callbacks|] eqn:E.
  - rewrite E. apply emit_set_other. exact H.
  - rewrite set_same. rewrite !emit_set_other by exact H. reflexivity.
Qed.

Lemma emit_off_same (bus : EventBus) (event : string) (callback : EventCallback) :
  emit (off bus event callback) event = remove_first callback (emit bus event).
Proof.
  unfold off. destruct (bus event) as [callbacks|] eqn:E.
  - rewrite emit_set_same. unfold emit. rewrite E. reflexivity.
  - unfold emit. rewrite E. reflexivity.
Qed.

Lemma emit_off_other (bus : EventBus) (event other : string) (callback : EventCallback) :
  other <> event -> emit (off bus event callback) other = emit bus other.
Proof.
  intro H. unfold off. destruct (bus event); [|reflexivity].
  apply emit_set_other. exact H.
Qed.

Lemma count_remove_first (callback c : EventCallback) (l : list EventCallback) :
  count_occ Nat.eq_dec (remove_first callback l) c
  = if Nat.eq_dec callback c
    then (count_occ Nat.eq_dec l c - 1)%nat
    else count_occ Nat.eq_dec l c.
Proof.
  induction l as [|a l IH]; [cbn; destruct (Nat.eq_dec callback c); reflexivity|].
  cbn [remove_first]. destruct (Nat.eqb_spec a callback) as [->|Hne].
  - cbn [count_occ]. destruct (Nat.eq_dec callback c); lia.
  - cbn [count_occ]. rewrite IH.
    destruct (Nat.eq_dec a c); destruct (Nat.eq_dec callback c); lia.
Qed.

Lemma remove_first_absent (callback : EventCallback) (l : list EventCallback) :
  ~ In callback l -> remove_first callback l = l.
Proof.
  induction l as [|a l IH]; intro H; [reflexivity|].
  cbn [remove_first]. destruct (Nat.eqb_spec a callback) as [->|Hne].
  - exfalso. apply H. left. reflexivity.
  - f_equal. apply IH. intro Hin. apply H. right. exact Hin.
Qed.

Lemma remove_first_app_new (callback : EventCallback) (l : list EventCallback) :
  remove_first callback (l ++ [callback])
  = if in_dec Nat.eq_dec callback l
    then remove_first callback l ++ [callback]
    else l.
Proof.
  induction l as [|a l IH].
  - cbn. rewrite Nat.eqb_refl. reflexivity.
  - cbn [app remove_first]. destruct (Nat.eqb_spec a callback) as [->|Hne].
    + destruct (in_dec Nat.eq_dec callback (callback :: l)) as [|Hn];
        [reflexivity|]. exfalso. apply Hn. left. reflexivity.
    + rewrite IH.
      destruct (in_dec Nat.eq_dec callback l) as [Hin|Hnin];
        destruct (in_dec Nat.eq_dec callback (a :: l)) as [Hin'|Hnin'];
        try reflexivity.
      * exfalso. apply Hnin'. right. exact Hin.
      * exfalso. destruct Hin' as [E|Hin']; [congruence | contradiction].
Qed.

(** X23.  Registration order is call order.  After [on(event, callback)]
    an [emit] of that event calls the callbacks registered before, in their
    order, and then the new one; a callback registered twice is called twice;
    other events are not affected; and [clear] leaves nothing to call. *)
Theorem on_appends_in_order (bus : EventBus) (event : string)
    (callback : EventCallback) :
  emit (on bus event callback) event = emit bus event ++ [callback]
  /\ emit (on (on bus event callback) event callback) event
     = emit bus event ++ [callback; callback]
  /\ (forall other, other <> event ->
        emit (on bus event callback) other = emit bus other)
  /\ (forall any, emit (clear (on bus event callback)) any = []).
Proof.
  split; [apply emit_on_same|]. split; [|split].
  - rewrite !emit_on_same, <- app_assoc. reflexivity.
  - intros other H. apply emit_on_other. exact H.
  - reflexivity.
Qed.

(** X24.  [off] removes one registration, the oldest one: the number of
    times the callback is called goes down by exactly one if it was
    registered and no other callback's count changes; [off] of a callback
    that is not registered, or on an event without listeners, changes
    nothing.  [on] followed by [off] restores the calls only for a callback
    that was not registered before: otherwise the oldest registration goes
    and the callback moves to the end. *)
Theorem off_removes_oldest_registration (bus : EventBus) (event : string)
    (callback : EventCallback) :
  emit (off bus event callback) event = remove_first callback (emit bus event)
  /\ (forall c,
        count_occ Nat.eq_dec (emit (off bus event callback) event) c
        = if Nat.eq_dec callback c
          then (count_occ Nat.eq_dec (emit bus event) c - 1)%nat
          else count_occ Nat.eq_dec (emit bus event) c)
  /\ (~ In callback (emit bus event) ->
      emit (off bus event callback) event = emit bus event)
  /\ (forall other, other <> event ->
        emit (off bus event callback) other = emit bus other)
  /\ emit (off (on bus event callback) event callback) event
     = (if in_dec Nat.eq_dec callback (emit bus event)
        then remove_first callback (emit bus event) ++ [callback]
        else emit bus event).
Proof.
  split; [apply emit_off_same|]. split; [|split; [|split]].
  - intro c. rewrite emit_off_same. apply count_remove_first.
  - intro H. rewrite emit_off_same. apply remove_first_absent. exact H.
  - intros other H. apply emit_off_other. exact H.
  - rewrite emit_off_same, emit_on_same. apply remove_first_app_new.
Qed.

(** Two listeners and a re-registration. *)
Example reregistering_moves_the_listener :
  let bus := on (on empty "audio:data" 1%nat) "audio:data" 2%nat in
  emit bus "audio:data" = [1%nat; 2%nat]
  /\ emit (off (on bus "audio:data" 1%nat) "audio:data" 1%nat) "audio:data"
     = [2%nat; 1%nat]
  /\ emit bus "ui:error" = [].
Proof. repeat split. Qed.

End EventBus.

(* ================================================================== *)
(** * ErrorHandler *)
(* ================================================================== *)

Module ErrorHandler.

Inductive Severity := warning | error | critical.

(** [interface ErrorInfo]; of the optional [fallback] function only its
    presence is kept. *)
Record ErrorInfo := mkErrorInfo {
  code : string;
  message : string;
  severity : Severity;
  userMessage : string;
  suggestions : list string;
  fallback : bool
}.

(** The fields of the handler: whether the error container exists, the map
    [activeErrors] in insertion order, the notifications appended to the
    container and not cleared since (their removal by timer or by the dismiss
    button is not followed), and the codes whose fallback has been run. *)
Record ErrorHandler := mkHandler {
  errorContainer : bool;
  activeErrors : list (string * ErrorInfo);
  notifications : list ErrorInfo;
  fallbacksRun : list string
}.

(** The constructor, after [createErrorContainer]. *)
Definition initial : ErrorHandler := mkHandler true [] [] [].

(** [Map.prototype.set]: a present key keeps its place and gets the new
    value, an absent key is added at the end. *)
Fixpoint map_set (key : string) (value : ErrorInfo) (m : list (string * ErrorInfo))
    : list (string * ErrorInfo) :=
  match m with
  | [] => [(key, value)]
  | (k, v) :: rest =>
      if String.eqb k key then (k, value) :: rest
      else (k, v) :: map_set key value rest
  end.

(** [Map.prototype.get] *)
Fixpoint map_get (key : string) (m : list (string * ErrorInfo)) : option ErrorInfo :=
  match m with
  | [] => None
  | (k, v) :: rest => if String.eqb k key then Some v else map_get key rest
  end.

(** [showErrorToUser]: one more notification, if there is a container. *)
Definition showErrorToUser (h : ErrorHandler) (errorInfo : ErrorInfo) : ErrorHandler :=
  if errorContainer h
  then mkHandler (errorContainer h) (activeErrors h)
         (notifications h ++ [errorInfo]) (fallbacksRun h)
  else h.

(** [handleError(errorInfo)]: store, run the fallback if there is one (an
    exception it throws is caught), show when severe enough. *)
Definition handleError (h : ErrorHandler) (errorInfo : ErrorInfo) : ErrorHandler :=
  let h1 := mkHandler (errorContainer h)
              (map_set (code errorInfo) errorInfo (activeErrors h))
              (notifications h)
              (if fallback errorInfo
               then fallbacksRun h ++ [code errorInfo] else fallbacksRun h) in
  match severity errorInfo with
  | error | critical => showErrorToUser h1 errorInfo
  | warning => h1
  end.

(** [clearAllErrors()] *)
Definition clearAllErrors (h : ErrorHandler) : ErrorHandler :=
  mkHandler (errorContainer h) []
    (if errorContainer h then [] else notifications h) (fallbacksRun h).

(** [hasError(code)] *)
Definition hasError (h : ErrorHandler) (c : string) : bool :=
  match map_get c (activeErrors h) with Some _ => true | None => false end.

(** [getActiveErrors()] *)
Definition getActiveErrors (h : ErrorHandler) : list ErrorInfo :=
  map snd (activeErrors h).

(** A public call that changes the handler. *)
Inductive call :=
| HandleError (errorInfo : ErrorInfo)
| ClearAllErrors.

Definition perform (h : ErrorHandler) (c : call) : ErrorHandler :=
  match c with
  | HandleError errorInfo => handleError h errorInfo
  | ClearAllErrors => clearAllErrors h
  end.

Definition run (calls : list call) (h : ErrorHandler) : ErrorHandler :=
  fold_left perform calls h.

Lemma map_get_set_same key value m : map_get key (map_set key value m) = Some value.
Proof.
  induction m as [|[k v] rest IH]; cbn [map_set map_get].
  - rewrite String.eqb_refl. reflexivity.
  - destruct (String.eqb k key) eqn:E; cbn [map_get]; rewrite E; [reflexivity|exact IH].
Qed.

Lemma map_get_set_other key other value m :
  other <> key -> map_get other (map_set key value m) = map_get other m.
Proof.
  intro H. induction m as [|[k v] rest IH]; cbn [map_set map_get].
  - replace (String.eqb key other) with false; [reflexivity|].
    symmetry. apply String.eqb_neq. congruence.
  - destruct (String.eqb k key) eqn:E; cbn [map_get].
    + apply String.eqb_eq in E. subst k.
      replace (String.eqb key other) with false; [reflexivity|].
      symmetry. apply String.eqb_neq. congruence.
    + destruct (String.eqb k other); [reflexivity|exact IH].
Qed.

Lemma map_get_In key m :
  map_get key m <> None <-> In key (map fst m).
Proof.
  induction m as [|[k v] rest IH]; cbn [map_get map fst In].
  - split; [congruence|tauto].
  - destruct (String.eqb_spec k key) as [->|Hne].
    + split; [intros _; left; reflexivity | discriminate].
    + rewrite IH. split; [tauto | intros [E|H]; [contradiction|exact H]].
Qed.

Lemma map_set_keys key value m :
  map fst (map_set key value m)
  = if in_dec string_dec key (map fst m) then map fst m else map fst m ++ [key].
Proof.
  induction m as [|[k v] rest IH]; cbn [map_set map fst].
  - destruct (in_dec string_dec key []) as [[]|]; reflexivity.
  - destruct (String.eqb_spec k key) as [->|Hne]; cbn [map fst].
    + destruct (in_dec string_dec key (key :: map fst rest)) as [|Hn];
        [reflexivity|]. exfalso. apply Hn. left. reflexivity.
    + rewrite IH.
      destruct (in_dec string_dec key (map fst rest)) as [Hin|Hnin];
        destruct (in_dec string_dec key (k :: map fst rest)) as [Hin'|Hnin'];
        try reflexivity.
      * exfalso. apply Hnin'. right. exact Hin.
      * exfalso. destruct Hin' as [E|Hin']; [contradiction | contradiction].
Qed.

Lemma map_set_NoDup key value m :
  NoDup (map fst m) -> NoDup (map fst (map_set key value m)).
Proof.
  intro H. rewrite map_set_keys.
  destruct (in_dec string_dec key (map fst m)) as [|Hn]; [exact H|].
  apply NoDup_app; [exact H | constructor; [tauto|constructor] |].
  intros k Hk [<-|[]]. contradiction.
Qed.

Lemma activeErrors_handleError h errorInfo :
  activeErrors (handleError h errorInfo)
  = map_set (code errorInfo) errorInfo (activeErrors h).
Proof.
  unfold handleError, showErrorToUser. cbn [errorContainer].
  destruct (severity errorInfo); [reflexivity| |]; destruct (errorContainer h); reflexivity.
Qed.

(** X25.  [activeErrors] is a registry keyed by error code.  After
    [handleError] the error's code is active and is bound to that error;
    whether any other code is active is unchanged; the number of active
    errors grows by one for a code that was not active and stays the same
    for one that was, the newer error replacing the older in place; and
    after any sequence of calls no code is listed twice. *)
Theorem activeErrors_is_keyed_by_code (calls : list call) (errorInfo : ErrorInfo) :
  let h := run calls initial in
  let h' := handleError h errorInfo in
  hasError h' (code errorInfo) = true
  /\ map_get (code errorInfo) (activeErrors h') = Some errorInfo
  /\ (forall c, c <> code errorInfo -> hasError h' c = hasError h c)
  /\ length (getActiveErrors h')
     = (if hasError h (code errorInfo) then length (getActiveErrors h)
        else S (length (getActiveErrors h)))
  /\ NoDup (map fst (activeErrors h))
  /\ NoDup (map fst (activeErrors h')).
Proof.
  intros h h'.
  assert (Hnd : NoDup (map fst (activeErrors h))).
  { subst h. unfold run.
    assert (H0 : NoDup (map fst (activeErrors initial))) by constructor.
    revert H0. generalize initial as h0.
    induction calls as [|c calls IH]; intros h0 H0; [exact H0|].
    cbn [fold_left]. apply IH. destruct c as [info|]; cbn [perform].
    - rewrite activeErrors_handleError. apply map_set_NoDup. exact H0.
    - cbn. constructor. }
  subst h'. unfold hasError, getActiveErrors.
  rewrite activeErrors_handleError, map_get_set_same.
  split; [reflexivity|]. split; [reflexivity|]. split; [|split; [|split]].
  - intros c Hc. rewrite map_get_set_other by exact Hc. reflexivity.
  - rewrite !length_map.
    rewrite <- (length_map fst (map_set _ _ _)), map_set_keys.
    destruct (in_dec string_dec (code errorInfo) (map fst (activeErrors h)))
      as [Hin|Hnin].
    + apply map_get_In in Hin.
      destruct (map_get (code errorInfo) (activeErrors h)); [|contradiction].
      apply length_map.
    + destruct (map_get (code errorInfo) (activeErrors h)) eqn:E.
      * exfalso. apply Hnin. apply map_get_In. rewrite E. discriminate.
      * rewrite length_app, length_map. simpl. lia.
  - exact Hnd.
  - apply map_set_NoDup. exact Hnd.
Qed.

(** Every error is recorded, but only errors of severity error or
    critical are shown: a warning leaves the notifications as they are, even
    though its fallback, if it has one, has been run.  [clearAllErrors]
    leaves no active error and no notification. *)
Theorem warnings_are_recorded_not_shown (h : ErrorHandler) (errorInfo : ErrorInfo) :
  (severity errorInfo = warning ->
   notifications (handleError h errorInfo) = notifications h)
  /\ (severity errorInfo <> warning -> errorContainer h = true ->
      notifications (handleError h errorInfo) = notifications h ++ [errorInfo])
  /\ hasError (handleError h errorInfo) (code errorInfo) = true
  /\ (fallback errorInfo = true ->
      fallbacksRun (handleError h errorInfo) = fallbacksRun h ++ [code errorInfo])
  /\ (forall c, hasError (clearAllErrors (handleError h errorInfo)) c = false)
  /\ getActiveErrors (clearAllErrors (handleError h errorInfo)) = []
  /\ (errorContainer h = true ->
      notifications (clearAllErrors (handleError h errorInfo)) = []).
Proof.
  split; [|split; [|split; [|split; [|split; [|split]]]]].
  - intro Hs. unfold handleError. rewrite Hs. reflexivity.
  - intros Hs Hc. unfold handleError, showErrorToUser. cbn [errorContainer].
    rewrite Hc. destruct (severity errorInfo); [contradiction| |]; reflexivity.
  - unfold hasError. rewrite activeErrors_handleError, map_get_set_same. reflexivity.
  - intro Hf. unfold handleError, showErrorToUser. cbn [errorContainer].
    rewrite Hf. destruct (severity errorInfo); [reflexivity| |];
      destruct (errorContainer h); reflexivity.
  - intro c. reflexivity.
  - reflexivity.
  - intro Hc. unfold clearAllErrors, handleError, showErrorToUser.
    cbn [errorContainer].
    destruct (severity errorInfo); cbn [errorContainer notifications];
      rewrite ?Hc; cbn [errorContainer notifications]; rewrite ?Hc; reflexivity.
Qed.

End ErrorHandler.

(* ================================================================== *)
(** * PerformanceMonitor *)
(* ================================================================== *)

Module PerformanceMonitor.

Local Open Scope Q_scope.

(** A frame rate: [1000 / frameTime] is [Infinity] when two frames carry
    the same time stamp. *)
Inductive num :=
| Finite (q : Q)
| Infinity.

(** [interface PerformanceMetrics] *)
Record PerformanceMetrics := mkMetrics {
  fps : num;
  frameTime : Q;
  memoryUsage : Z;
  audioLatency : Q;
  particleCount : Z;
  vertexCount : Z
}.

(** The fields of the class; of the display element only its existence. *)
Record PerformanceMonitor := mkMonitor {
  isEnabled : bool;
  frameCount : nat;
  lastTime : Q;
  fpsHistory : list num;
  frameTimeHistory : list Q;
  displayElement : bool;
  audioProcessingStart : Q;
  audioLatencyHistory : list Q;
  lastParticleCount : Z;
  lastVertexCount : Z
}.

Definition maxHistoryLength : nat := 60.

(** The constructor, with [performance.now()] at construction. *)
Definition construct (enabled : bool) (now : Q) : PerformanceMonitor :=
  mkMonitor enabled 0 now [] [] enabled 0 [] 0%Z 0%Z.

(** [Math.round]: to the nearest integer, a half upwards. *)
Definition Math_round (x : Q) : Z := Qfloor (x + (1 # 2)).

(** [a + b] and [x / n] where [a] or [x] may be [Infinity]. *)
Definition add (a b : num) : num :=
  match a, b with
  | Finite x, Finite y => Finite (x + y)
  | _, _ => Infinity
  end.

Definition lengthQ {A : Type} (l : list A) : Q := inject_Z (Z.of_nat (length l)).

(** [getAverageFPS].  The sum and the quotient are exact here; the code
    rounds each partial sum to a number before [Math.round], so a mean
    within rounding of a half can come out as the neighbouring integer. *)
Definition getAverageFPS (m : PerformanceMonitor) : num :=
  if (length (fpsHistory m) =? 0)%nat then Finite 0
  else match fold_left add (fpsHistory m) (Finite 0) with
       | Finite sum => Finite (inject_Z (Math_round (sum / lengthQ (fpsHistory m))))
       | Infinity => Infinity
       end.

Definition sumQ (l : list Q) : Q := fold_left Qplus l 0.

(** [Math.round(average * 100) / 100] *)
Definition average2 (l : list Q) : Q :=
  if (length l =? 0)%nat then 0
  else inject_Z (Math_round (sumQ l / lengthQ l * inject_Z 100)) / inject_Z 100.

(** [getAverageFrameTime] and [getAverageAudioLatency] *)
Definition getAverageFrameTime (m : PerformanceMonitor) : Q :=
  average2 (frameTimeHistory m).

Definition getAverageAudioLatency (m : PerformanceMonitor) : Q :=
  average2 (audioLatencyHistory m).

(** [getMemoryUsage], from [performance.memory.usedJSHeapSize] if the
    browser has it. *)
Definition getMemoryUsage (usedJSHeapSize : option Q) : Z :=
  match usedJSHeapSize with
  | Some used => Math_round (used / inject_Z 1024 / inject_Z 1024)
  | None => 0%Z
  end.

(** [startFrame()] *)
Definition startFrame (m : PerformanceMonitor) : PerformanceMonitor :=
  if isEnabled m
  then mkMonitor (isEnabled m) (S (frameCount m)) (lastTime m) (fpsHistory m)
         (frameTimeHistory m) (displayElement m) (audioProcessingStart m)
         (audioLatencyHistory m) (lastParticleCount m) (lastVertexCount m)
  else m.

(** [push] and, past [maxHistoryLength] entries, [shift]. *)
Definition push_capped {A : Type} (l : list A) (a : A) : list A :=
  if (maxHistoryLength <? length (l ++ [a]))%nat then tl (l ++ [a]) else l ++ [a].

(** [endFrame()], with [performance.now()] and the heap size it reads. *)
Definition endFrame (m : PerformanceMonitor) (currentTime : Q)
    (usedJSHeapSize : option Q) : PerformanceMetrics * PerformanceMonitor :=
  if negb (isEnabled m) then
    (mkMetrics (Finite (60 # 1)) (1667 # 100) 0 0 0 0, m)
  else
    let frameTime := currentTime - lastTime m in
    let fps := if Qeq_bool frameTime 0 then Infinity
               else Finite (inject_Z 1000 / frameTime) in
    let fpsHistory1 := fpsHistory m ++ [fps] in
    let frameTimeHistory1 := frameTimeHistory m ++ [frameTime] in
    let '(fpsHistory2, frameTimeHistory2) :=
      if (maxHistoryLength <? length fpsHistory1)%nat
      then (tl fpsHistory1, tl frameTimeHistory1)
      else (fpsHistory1, frameTimeHistory1) in
    let m1 := mkMonitor (isEnabled m) (frameCount m) (lastTime m) fpsHistory2
                frameTimeHistory2 (displayElement m) (audioProcessingStart m)
                (audioLatencyHistory m) (lastParticleCount m) (lastVertexCount m) in
    let metrics := mkMetrics (getAverageFPS m1) (getAverageFrameTime m1)
                     (getMemoryUsage usedJSHeapSize) (getAverageAudioLatency m1)
                     (lastParticleCount m1) (lastVertexCount m1) in
    (metrics,
     mkMonitor (isEnabled m1) (frameCount m1) currentTime (fpsHistory m1)
       (frameTimeHistory m1) (displayElement m1) (audioProcessingStart m1)
       (audioLatencyHistory m1) (lastParticleCount m1) (lastVertexCount m1)).

(** [startAudioProcessing()] and [endAudioProcessing()] *)
Definition startAudioProcessing (m : PerformanceMonitor) (now : Q) : PerformanceMonitor :=
  if isEnabled m
  then mkMonitor (isEnabled m) (frameCount m) (lastTime m) (fpsHistory m)
         (frameTimeHistory m) (displayElement m) now
         (audioLatencyHistory m) (lastParticleCount m) (lastVertexCount m)
  else m.

Definition endAudioProcessing (m : PerformanceMonitor) (now : Q) : PerformanceMonitor :=
  if isEnabled m
  then mkMonitor (isEnabled m) (frameCount m) (lastTime m) (fpsHistory m)
         (frameTimeHistory m) (displayElement m) (audioProcessingStart m)
         (push_capped (audioLatencyHistory m) (now - audioProcessingStart m))
         (lastParticleCount m) (lastVertexCount m)
  else m.

(** [updateExternalMetrics(particleCount, vertexCount)] *)
Definition updateExternalMetrics (m : PerformanceMonitor) (particles vertices : Z)
    : PerformanceMonitor :=
  mkMonitor (isEnabled m) (frameCount m) (lastTime m) (fpsHistory m)
    (frameTimeHistory m) (displayElement m) (audioProcessingStart m)
    (audioLatencyHistory m) particles vertices.

(** [avgFPS >= bound] and [avgFPS < bound] on a rate that may be infinite. *)
Definition geb (a : num) (bound : Q) : bool :=
  match a with Finite x => Qle_bool bound x | Infinity => true end.

Definition ltb (a : num) (bound : Q) : bool :=
  match a with Finite x => Qltb x bound | Infinity => false end.

(** [isPerformanceGood()] *)
Definition isPerformanceGood (m : PerformanceMonitor) : bool :=
  geb (getAverageFPS m) (55 # 1) && Qle_bool (getAverageFrameTime m) (18 # 1).

(** [getPerformanceRecommendations()] *)
Definition getPerformanceRecommendations (m : PerformanceMonitor)
    (usedJSHeapSize : option Q) : list string :=
  let avgFPS := getAverageFPS m in
  let memoryUsage := getMemoryUsage usedJSHeapSize in
  (if ltb avgFPS (30 # 1)
   then ["FPS too low - reduce particle count or geometry detail"%string]
   else if ltb avgFPS (50 # 1)
        then ["FPS borderline - consider optimizations"%string] else [])
  ++ (if (200 <? memoryUsage)%Z
      then ["High memory usage - check for memory leaks"%string] else [])
  ++ (if Qltb (20 # 1) (getAverageAudioLatency m)
      then ["Audio processing slow - optimize frequency analysis"%string] else []).

(** [toggle()] *)
Definition toggle (m : PerformanceMonitor) : PerformanceMonitor :=
  mkMonitor (negb (isEnabled m)) (frameCount m) (lastTime m) (fpsHistory m)
    (frameTimeHistory m) (displayElement m || negb (isEnabled m))
    (audioProcessingStart m) (audioLatencyHistory m)
    (lastParticleCount m) (lastVertexCount m).

(** [dispose()] *)
Definition dispose (m : PerformanceMonitor) : PerformanceMonitor :=
  mkMonitor (isEnabled m) (frameCount m) (lastTime m) [] [] false
    (audioProcessingStart m) [] (lastParticleCount m) (lastVertexCount m).

(** A public call that changes the monitor, with the clock value or heap
    size it reads. *)
Inductive call :=
| StartFrame
| EndFrame (currentTime : Q) (usedJSHeapSize : option Q)
| StartAudioProcessing (now : Q)
| EndAudioProcessing (now : Q)
| UpdateExternalMetrics (particles vertices : Z)
| Toggle
| Dispose.

Definition perform (m : PerformanceMonitor) (c : call) : PerformanceMonitor :=
  match c with
  | StartFrame => startFrame m
  | EndFrame currentTime heap => snd (endFrame m currentTime heap)
  | StartAudioProcessing now => startAudioProcessing m now
  | EndAudioProcessing now => endAudioProcessing m now
  | UpdateExternalMetrics p v => updateExternalMetrics m p v
  | Toggle => toggle m
  | Dispose => dispose m
  end.

Definition run (calls : list call) (m : PerformanceMonitor) : PerformanceMonitor :=
  fold_left perform calls m.

(** The histories are in step and within capacity. *)
Definition histories_ok (m : PerformanceMonitor) : Prop :=
  length (fpsHistory m) = length (frameTimeHistory m)
  /\ (length (fpsHistory m) <= maxHistoryLength)%nat
  /\ (length (audioLatencyHistory m) <= maxHistoryLength)%nat.

Lemma length_push_capped {A : Type} (l : list A) (a : A) :
  (length l <= maxHistoryLength)%nat ->
  (length (push_capped l a) <= maxHistoryLength)%nat.
Proof.
  intro H. unfold push_capped.
  destruct (Nat.ltb_spec maxHistoryLength (length (l ++ [a]))) as [Hlt|Hge];
    [|exact Hge].
  rewrite length_app in Hlt. simpl in Hlt.
  destruct l; simpl in *; [lia|]. rewrite length_app. simpl. lia.
Qed.

Lemma perform_histories_ok (m : PerformanceMonitor) (c : call) :
  histories_ok m -> histories_ok (perform m c).
Proof.
  intros (Heq & Hcap & Haud). unfold histories_ok.
  destruct c as [|t heap|now|now|p v| |]; cbn [perform].
  - unfold startFrame. destruct (isEnabled m); cbn; auto.
  - unfold endFrame. destruct (isEnabled m); cbn [negb snd]; [|auto].
    match goal with
    | |- context [(maxHistoryLength <? ?n)%nat] =>
        destruct (Nat.ltb_spec maxHistoryLength n) as [Hlt|Hge]
    end; cbn [snd fpsHistory frameTimeHistory audioLatencyHistory].
    + rewrite length_app in Hlt. cbn [length] in Hlt.
      destruct (fpsHistory m) as [|f fs]; destruct (frameTimeHistory m) as [|g gs];
        cbn [length app tl] in *; try lia.
      rewrite !length_app. cbn [length]. repeat split; try lia.
    + rewrite !length_app in *. cbn [length] in *. repeat split; try lia.
  - unfold startAudioProcessing. destruct (isEnabled m); cbn; auto.
  - unfold endAudioProcessing. destruct (isEnabled m); cbn; auto.
    repeat split; auto. apply length_push_capped. exact Haud.
  - cbn. auto.
  - cbn. auto.
  - cbn. repeat split; lia.
Qed.

(** X26.  Whatever calls a monitor receives after its construction, its
    two frame histories have the same length, no history holds more than 60
    entries, and while the monitor is disabled [endFrame] answers the fixed
    metrics of 60 fps and 16.67 ms and records nothing. *)
Theorem histories_stay_in_step (enabled : bool) (start : Q) (calls : list call)
    (currentTime : Q) (usedJSHeapSize : option Q) :
  let m := run calls (construct enabled start) in
  length (fpsHistory m) = length (frameTimeHistory m)
  /\ (length (fpsHistory m) <= 60)%nat
  /\ (length (audioLatencyHistory m) <= 60)%nat
  /\ (isEnabled m = false ->
      endFrame m currentTime usedJSHeapSize
      = (mkMetrics (Finite (60 # 1)) (1667 # 100) 0 0 0 0, m)).
Proof.
  intro m.
  assert (H : histories_ok m).
  { subst m. unfold run.
    assert (H0 : histories_ok (construct enabled start))
      by (unfold histories_ok; cbn; repeat split; lia).
    revert H0. generalize (construct enabled start) as m0.
    induction calls as [|c calls IH]; intros m0 H0; [exact H0|].
    cbn [fold_left]. apply IH. apply perform_histories_ok. exact H0. }
  destruct H as (H1 & H2 & H3).
  repeat split; try assumption.
  intro Hd. unfold endFrame. rewrite Hd. reflexivity.
Qed.

Lemma no_frames_not_good (m : PerformanceMonitor) (usedJSHeapSize : option Q) :
  fpsHistory m = [] ->
  getAverageFPS m = Finite 0
  /\ isPerformanceGood m = false
  /\ In "FPS too low - reduce particle count or geometry detail"%string
        (getPerformanceRecommendations m usedJSHeapSize).
Proof.
  intro H. unfold isPerformanceGood, getPerformanceRecommendations, getAverageFPS.
  rewrite H. cbn [length Nat.eqb geb ltb].
  replace (Qle_bool (55 # 1) 0) with false by reflexivity.
  replace (Qltb 0 (30 # 1)) with true by reflexivity.
  repeat split. apply in_or_app. left. left. reflexivity.
Qed.

Lemma disabled_records_nothing (m : PerformanceMonitor) (c : call) :
  c <> Toggle -> isEnabled m = false -> fpsHistory m = [] ->
  isEnabled (perform m c) = false /\ fpsHistory (perform m c) = [].
Proof.
  intros Hc Hd Hf.
  destruct c as [|t heap|now|now|p v| |]; cbn [perform].
  - unfold startFrame. rewrite Hd. split; assumption.
  - unfold endFrame. rewrite Hd. cbn [negb snd]. split; assumption.
  - unfold startAudioProcessing. rewrite Hd. split; assumption.
  - unfold endAudioProcessing. rewrite Hd. split; assumption.
  - cbn. split; assumption.
  - exfalso. apply Hc. reflexivity.
  - cbn. split; [assumption | reflexivity].
Qed.

(** X27.  A monitor that was constructed disabled and not toggled since
    contradicts itself: its [endFrame] answers 60 fps, but it has recorded no
    frame, its average frame rate is 0, [isPerformanceGood] is false and the
    recommendations say that the frame rate is too low. *)
Theorem disabled_monitor_contradicts_itself (start : Q) (calls : list call)
    (currentTime : Q) (usedJSHeapSize : option Q) :
  Forall (fun c => c <> Toggle) calls ->
  let m := run calls (construct false start) in
  fps (fst (endFrame m currentTime usedJSHeapSize)) = Finite (60 # 1)
  /\ getAverageFPS m = Finite 0
  /\ isPerformanceGood m = false
  /\ In "FPS too low - reduce particle count or geometry detail"%string
        (getPerformanceRecommendations m usedJSHeapSize).
Proof.
  intros Hcalls m.
  assert (H : isEnabled m = false /\ fpsHistory m = []).
  { subst m. unfold run.
    assert (H0 : isEnabled (construct false start) = false
                 /\ fpsHistory (construct false start) = []) by (split; reflexivity).
    revert H0. generalize (construct false start) as m0.
    induction Hcalls as [|c calls Hc _ IH]; intros m0 [Hd Hf]; [split; assumption|].
    cbn [fold_left]. apply IH. apply disabled_records_nothing; assumption. }
  destruct H as [Hd Hf].
  split; [unfold endFrame; rewrite Hd; reflexivity|].
  apply no_frames_not_good. exact Hf.
Qed.

Lemma disabled_monitor_contradicts_itself_witness :
  Forall (fun c => c <> Toggle)
    [StartFrame; EndFrame (16 # 1) None; StartFrame; EndFrame (33 # 1) None]
  /\ isPerformanceGood
       (run [StartFrame; EndFrame (16 # 1) None; StartFrame; EndFrame (33 # 1) None]
          (construct false 0)) = false.
Proof.
  assert (H : Forall (fun c => c <> Toggle)
                [StartFrame; EndFrame (16 # 1) None; StartFrame; EndFrame (33 # 1) None])
    by (repeat constructor; discriminate).
  split; [exact H|].
  exact (proj1 (proj2 (proj2 (disabled_monitor_contradicts_itself 0 _ 0 None H)))).
Defined.

(** A monitor at a steady 16 ms per frame. *)
Example steady_frames_are_good :
  let m := run [EndFrame (16 # 1) None; EndFrame (32 # 1) None; EndFrame (48 # 1) None]
             (construct true 0) in
  getAverageFPS m = Finite (inject_Z 63)
  /\ isPerformanceGood m = true
  /\ getPerformanceRecommendations m None = [].
Proof. vm_compute. repeat split. Qed.

End PerformanceMonitor.

(* ================================================================== *)
(** * UserPreferences *)
(* ================================================================== *)

Module UserPreferences.

Inductive AudioSource := microphone | file | none.
Inductive VisualMode := icosphere | particles | combined.
Inductive ColorScheme := default | neon | warm | cool.
Inductive LodLevel := auto | potato | low | medium | high | ultra.

(** [interface UserPreferencesData] *)
Record UserPreferencesData := mkData {
  volume : Q;
  sensitivity : Q;
  preferredAudioSource : AudioSource;
  visualMode : VisualMode;
  enableWireframe : bool;
  enableParticles : bool;
  colorScheme : ColorScheme;
  lodLevel : LodLevel;
  enablePerformanceMonitor : bool;
  enableKeyboardShortcuts : bool;
  autoHideControls : bool;
  reducedMotion : bool
}.

(** [Partial<UserPreferencesData>], which is also what a JSON text of
    preferences denotes: the keys it has, with their values. *)
Record PartialData := mkPartialData {
  volume' : option Q;
  sensitivity' : option Q;
  preferredAudioSource' : option AudioSource;
  visualMode' : option VisualMode;
  enableWireframe' : option bool;
  enableParticles' : option bool;
  colorScheme' : option ColorScheme;
  lodLevel' : option LodLevel;
  enablePerformanceMonitor' : option bool;
  enableKeyboardShortcuts' : option bool;
  autoHideControls' : option bool;
  reducedMotion' : option bool
}.

Definition or_else {A : Type} (o : option A) (d : A) : A :=
  match o with Some v => v | None => d end.

(** [{ ...p, ...u }] *)
Definition spread (p : UserPreferencesData) (u : PartialData) : UserPreferencesData :=
  mkData (or_else (volume' u) (volume p))
    (or_else (sensitivity' u) (sensitivity p))
    (or_else (preferredAudioSource' u) (preferredAudioSource p))
    (or_else (visualMode' u) (visualMode p))
    (or_else (enableWireframe' u) (enableWireframe p))
    (or_else (enableParticles' u) (enableParticles p))
    (or_else (colorScheme' u) (colorScheme p))
    (or_else (lodLevel' u) (lodLevel p))
    (or_else (enablePerformanceMonitor' u) (enablePerformanceMonitor p))
    (or_else (enableKeyboardShortcuts' u) (enableKeyboardShortcuts p))
    (or_else (autoHideControls' u) (autoHideControls p))
    (or_else (reducedMotion' u) (reducedMotion p)).

(** A text as [JSON.parse] and the spread see it: the keys of the
    interface it gives, with values of their declared types (a text that
    denotes no object gives no key), or a text that makes [JSON.parse]
    throw.  The empty text, which [loadPreferences] skips, has the same
    effect there as a malformed one.  What a text cannot carry (NaN, an
    infinite number, a key whose value is [undefined]) has no place in this
    type, so nothing is said here about saving such preferences. *)
Inductive Text :=
| Json (u : PartialData)
| Malformed.

(** [JSON.stringify(preferences)]: every key is written. *)
Definition stringify (p : UserPreferencesData) : Text :=
  Json (mkPartialData (Some (volume p)) (Some (sensitivity p))
          (Some (preferredAudioSource p)) (Some (visualMode p))
          (Some (enableWireframe p)) (Some (enableParticles p))
          (Some (colorScheme p)) (Some (lodLevel p))
          (Some (enablePerformanceMonitor p)) (Some (enableKeyboardShortcuts p))
          (Some (autoHideControls p)) (Some (reducedMotion p))).

(** The item under [STORAGE_KEY] in [localStorage], if there is one. *)
Definition Storage := option Text.

(** The fields of the class; a change callback is a function object,
    represented by its identity. *)
Record UserPreferences := mkPrefs {
  preferences : UserPreferencesData;
  changeCallbacks : list nat
}.

(** [getDefaultPreferences()], with what [detectReducedMotion()] answers. *)
Definition getDefaultPreferences (reduced : bool) : UserPreferencesData :=
  mkData (8 # 10) (1 # 1) none combined false true default auto false true false
    reduced.

(** [loadPreferences()]: a malformed item is caught and ignored. *)
Definition loadPreferences (p : UserPreferencesData) (storage : Storage)
    : UserPreferencesData :=
  match storage with
  | Some (Json parsed) => spread p parsed
  | Some Malformed => p
  | None => p
  end.

(** The constructor. *)
Definition construct (reduced : bool) (storage : Storage) : UserPreferences :=
  mkPrefs (loadPreferences (getDefaultPreferences reduced) storage) [].

(** What a call leaves behind: the object, the storage, and the callbacks
    notified with the preferences they were given, in order. *)
Record Outcome := mkOutcome {
  object : UserPreferences;
  stored : Storage;
  notified : list (nat * UserPreferencesData)
}.

(** [savePreferences()]: [setItem] may throw (quota, private mode), which
    is caught; then nothing is written and nobody is notified. *)
Definition savePreferences (st : UserPreferences) (writable : bool)
    (storage : Storage) : Outcome :=
  if writable
  then mkOutcome st (Some (stringify (preferences st)))
         (map (fun callback => (callback, preferences st)) (changeCallbacks st))
  else mkOutcome st storage [].

(** [updatePreferences(updates)] *)
Definition updatePreferences (st : UserPreferences) (updates : PartialData)
    (writable : bool) (storage : Storage) : Outcome :=
  savePreferences (mkPrefs (spread (preferences st) updates) (changeCallbacks st))
    writable storage.

(** [reset()] *)
Definition reset (st : UserPreferences) (reduced writable : bool)
    (storage : Storage) : Outcome :=
  savePreferences (mkPrefs (getDefaultPreferences reduced) (changeCallbacks st))
    writable storage.

(** [export()] *)
Definition export (st : UserPreferences) : Text := stringify (preferences st).

(** [import(preferencesJson)]; [None] is the thrown
    "Invalid preferences format". *)
Definition import (st : UserPreferences) (preferencesJson : Text)
    (reduced writable : bool) (storage : Storage) : option Outcome :=
  match preferencesJson with
  | Json parsed =>
      Some (savePreferences
              (mkPrefs (spread (getDefaultPreferences reduced) parsed)
                 (changeCallbacks st))
              writable storage)
  | Malformed => None
  end.

(** [onChange(callback)] and [offChange(callback)] *)
Definition onChange (st : UserPreferences) (callback : nat) : UserPreferences :=
  mkPrefs (preferences st) (changeCallbacks st ++ [callback]).

Definition offChange (st : UserPreferences) (callback : nat) : UserPreferences :=
  mkPrefs (preferences st) (EventBus.remove_first callback (changeCallbacks st)).

(** X29.  When the storage cannot be written, [updatePreferences] still
    changes the preferences in memory, but the storage keeps its old item and
    no change callback is called; a reload then brings back what was stored
    before.  When it can be written, every registered callback is called
    once per registration, in registration order, with the new preferences. *)
Theorem failed_save_is_silent (st : UserPreferences) (updates : PartialData)
    (storage : Storage) (reduced : bool) :
  let failed := updatePreferences st updates false storage in
  let saved := updatePreferences st updates true storage in
  preferences (object failed) = spread (preferences st) updates
  /\ stored failed = storage
  /\ notified failed = []
  /\ construct reduced (stored failed) = construct reduced storage
  /\ map fst (notified saved) = changeCallbacks st
  /\ Forall (fun n => snd n = spread (preferences st) updates) (notified saved).
Proof.
  intros failed saved. subst failed saved.
  unfold updatePreferences, savePreferences.
  cbn [object stored notified preferences changeCallbacks].
  repeat split.
  - rewrite map_map. cbn [fst]. apply map_id.
  - apply Forall_forall. intros n Hn. apply in_map_iff in Hn.
    destruct Hn as (c & <- & _). reflexivity.
Qed.

(** X30.  [import] starts from the defaults, not from the current
    preferences: a key the imported text does not mention is reset to its
    default, where [updatePreferences] with the same object would keep the
    current value.  A text that cannot be parsed makes [import] throw and
    changes nothing. *)
Theorem import_resets_missing_keys (st : UserPreferences) (parsed : PartialData)
    (reduced writable : bool) (storage : Storage) :
  (exists o, import st (Json parsed) reduced writable storage = Some o
     /\ preferences (object o) = spread (getDefaultPreferences reduced) parsed
     /\ (volume' parsed = None -> volume (preferences (object o)) = (8 # 10)%Q)
     /\ (lodLevel' parsed = None -> lodLevel (preferences (object o)) = auto)
     /\ changeCallbacks (object o) = changeCallbacks st)
  /\ (volume' parsed = None ->
      volume (preferences (object (updatePreferences st parsed writable storage)))
      = volume (preferences st))
  /\ import st Malformed reduced writable storage = None.
Proof.
  split; [|split; [|reflexivity]].
  - eexists. split; [reflexivity|].
    unfold savePreferences. destruct writable; cbn [object preferences changeCallbacks];
      (split; [reflexivity|]); (split; [intro H; cbn; rewrite H; reflexivity|]);
      (split; [intro H; cbn; rewrite H; reflexivity | reflexivity]).
  - intro H. unfold updatePreferences, savePreferences.
    destruct writable; cbn [object preferences]; cbn; rewrite H; reflexivity.
Qed.

End UserPreferences.
